(** * A shallow embedding of the Mafia game server

    The development follows two source files of the repository:

    - the game engine (class [GameEngine]): role distribution, collection
      of the players' actions, night and day resolution, win evaluation,
      the phase timer;
    - the connection layer (class [WebSocketHandler]): login, rooms,
      joining, leaving, disconnecting, outgoing room snapshots.

    JavaScript data is embedded as follows.  A [Map] is an association list
    in insertion order ([JsMap]) wherever the code iterates over it, and a
    [gmap] where it is only read and written by key.  The plain object that
    tallies the day votes keeps what a JavaScript object has and a
    dictionary has not: the properties inherited from [Object.prototype]
    and the enumeration order of integer-like keys.  Objects that are
    reachable from several places and mutated (a game, held by its room and
    by every interval callback armed for it) live in a store and are named
    by a reference.  Asynchronous handlers are run to completion: the only
    suspension points that wait for real input or output are the database
    calls, whose answers are arguments of the handlers here.  The engine is
    wired as the server wires it: [setRooms] and [setDatabase] have been
    called. *)

From Stdlib Require Import ZArith Lia Ascii String.
From stdpp Require Import gmap strings list fin_maps.

Open Scope string_scope.
Open Scope list_scope.
Open Scope stdpp_scope.

(** ** JavaScript [Map]: an association list in insertion order *)

Module JsMap.
Section Defs.
Context {K V : Type} `{EqDecision K}.

(** [m.get(k)] *)
Fixpoint get (k : K) (m : list (K * V)) : option V :=
  match m with
  | [] => None
  | (k', v) :: rest => if decide (k' = k) then Some v else get k rest
  end.

(** [m.has(k)] *)
Definition has (k : K) (m : list (K * V)) : bool :=
  match get k m with Some _ => true | None => false end.

(** [m.set(k, v)]: a key that is present keeps its place in the iteration
    order and takes the new value; a new key goes to the end. *)
Fixpoint set (k : K) (v : V) (m : list (K * V)) : list (K * V) :=
  match m with
  | [] => [(k, v)]
  | (k', v') :: rest =>
      if decide (k' = k) then (k, v) :: rest else (k', v') :: set k v rest
  end.

(** [m.delete(k)] *)
Fixpoint delete (k : K) (m : list (K * V)) : list (K * V) :=
  match m with
  | [] => []
  | (k', v') :: rest =>
      if decide (k' = k) then rest else (k', v') :: delete k rest
  end.

(** [m.clear()] leaves the empty map. *)
Definition clear : list (K * V) := [].

(** [Array.from(m.entries())], [Array.from(m.values())], the keys. *)
Definition entries (m : list (K * V)) : list (K * V) := m.
Definition values (m : list (K * V)) : list V := m.*2.
Definition keys (m : list (K * V)) : list K := m.*1.
End Defs.
End JsMap.

(** ** Roles, players *)

(** The role strings the engine assigns: ["don"], ["mafia"], ["doctor"],
    ["lover1"], ["lover2"], ["citizen"]. *)
Inductive Role := Don | Mafia | Doctor | Lover1 | Lover2 | Citizen.

#[global] Instance Role_eq_dec : EqDecision Role.
Proof. solve_decision. Defined.

(** [room.roles]: which optional roles the room enables (the truthiness of
    its three properties). *)
Record RoleSettings := mkRoleSettings {
  doctor : bool;
  don : bool;
  lovers : bool
}.

(** One roster entry; [role] is [null] until a game starts.  The array
    [game.players] is a copy of [room.players] that holds the same player
    objects; no result below relates the two rosters, and each of them
    carries its players by value. *)
Module Player.
Record t := mk {
  nickname : string;
  avatar : string;
  isCreator : bool;
  isReady : bool;
  role : option Role;
  isAlive : bool
}.

Definition set_role (r : option Role) (p : t) : t :=
  mk (nickname p) (avatar p) (isCreator p) (isReady p) r (isAlive p).

Definition set_isAlive (b : bool) (p : t) : t :=
  mk (nickname p) (avatar p) (isCreator p) (isReady p) (role p) b.

Definition set_isCreator (b : bool) (p : t) : t :=
  mk (nickname p) (avatar p) b (isReady p) (role p) (isAlive p).
End Player.

(** [p.role === "mafia" || p.role === "don"] *)
Definition isMafiaRole (r : option Role) : bool :=
  match r with
  | Some Mafia | Some Don => true
  | _ => false
  end.

(** [p.role === "citizen" || p.role === "doctor"] *)
Definition isCitizenRole (r : option Role) : bool :=
  match r with
  | Some Citizen | Some Doctor => true
  | _ => false
  end.

(** [players.find((p) => p.nickname === nick)] *)
Definition findPlayer (nick : string) (players : list Player.t) : option Player.t :=
  List.find (fun p => bool_decide (Player.nickname p = nick)) players.

(** The position [find] stops at: the object a later write goes to. *)
Fixpoint findPlayerIndex (nick : string) (players : list Player.t) : option nat :=
  match players with
  | [] => None
  | p :: rest =>
      if bool_decide (Player.nickname p = nick) then Some 0
      else S <$> findPlayerIndex nick rest
  end.

(** [players.find((p) => p.nickname === nick)?.role] *)
Definition playerRole (nick : string) (players : list Player.t) : option Role :=
  p ← findPlayer nick players; Player.role p.

(** [player.isAlive = false] on the object that
    [players.find((p) => p.nickname === nick)] returned, if any. *)
Definition killPlayer (nick : string) (players : list Player.t) : list Player.t :=
  match findPlayerIndex nick players with
  | Some i => alter (Player.set_isAlive false) i players
  | None => players
  end.

(** ** Role distribution ([distributeRoles]) *)

Definition countRole (r : Role) (roles : list Role) : nat :=
  length (List.filter (fun x => bool_decide (x = r)) roles).

Section Distribute.
(** [random_index i] is the value of [Math.floor(Math.random() * (i + 1))]
    drawn in the iteration of the shuffle loop whose counter is [i].  Since
    [0 <= Math.random() < 1] it is at most [i]; the results on the shuffle
    assume exactly that. *)
Variable random_index : nat -> nat.

(** [[roles[i], roles[j]] = [roles[j], roles[i]]]: the right-hand side is
    read first, then [roles[i]] and [roles[j]] are written in that order.
    Both indices are inside the array for every draw JavaScript can make;
    outside (where JavaScript would write [undefined]) the list is left as
    it is. *)
Definition swap (roles : list Role) (i j : nat) : list Role :=
  match roles !! i, roles !! j with
  | Some ri, Some rj => <[j := ri]> (<[i := rj]> roles)
  | _, _ => roles
  end.

(** [for (let i = roles.length - 1; i > 0; i--)], entered with counter [i]. *)
Fixpoint shuffleFrom (i : nat) (roles : list Role) : list Role :=
  match i with
  | 0 => roles
  | S i' => shuffleFrom i' (swap roles i (random_index i))
  end.

(** The role sequence when the shuffle loop is reached. *)
Definition rolesBeforeShuffle (playerCount : nat) (roleSettings : RoleSettings) : list Role :=
  let roles := [Don] in
  let mafiaCount := playerCount / 3 in
  (* for (let i = 1; i < mafiaCount; i++) roles.push("mafia") *)
  let roles := roles ++ replicate (mafiaCount - 1) Mafia in
  let roles :=
    if doctor roleSettings && bool_decide (5 <= playerCount)
    then roles ++ [Doctor] else roles in
  let roles :=
    if lovers roleSettings && bool_decide (6 <= playerCount)
    then roles ++ [Lover1; Lover2] else roles in
  (* while (roles.length < playerCount) roles.push("citizen") *)
  roles ++ replicate (playerCount - length roles) Citizen.

Definition distributeRoles (players : list Player.t) (roleSettings : RoleSettings) : list Role :=
  let roles := rolesBeforeShuffle (length players) roleSettings in
  shuffleFrom (length roles - 1) roles.
End Distribute.

(** The multiset the specification prescribes, written from its words: one
    leader, ordinary mafia until the mafia-type total is [playerCount / 3],
    one protector and two paired roles when enabled and the table is large
    enough, townsfolk in every remaining slot. *)
Definition quotaRoles (playerCount : nat) (roleSettings : RoleSettings) : list Role :=
  let nMafia := playerCount / 3 - 1 in
  let nDoctor := if doctor roleSettings && bool_decide (5 <= playerCount) then 1 else 0 in
  let nLover := if lovers roleSettings && bool_decide (6 <= playerCount) then 1 else 0 in
  [Don] ++ replicate nMafia Mafia ++ replicate nDoctor Doctor
    ++ replicate nLover Lover1 ++ replicate nLover Lover2
    ++ replicate (playerCount - (1 + nMafia + nDoctor + 2 * nLover)) Citizen.

(** ** Actions, the vote tally object *)

Inductive Phase := Night | Day.

#[global] Instance Phase_eq_dec : EqDecision Phase.
Proof. solve_decision. Defined.

(** A pending action [{ action, target, timestamp }].  [target] is [None]
    for [null] (the default of the parameter); [timestamp] is the value of
    [Date.now()] at submission. *)
Module Action.
Record t := mk {
  action : string;
  target : option string;
  timestamp : Z
}.
End Action.

#[global] Instance Action_eq_dec : EqDecision Action.t.
Proof. solve_decision. Defined.

(** One line of [game.gameLog]. *)
Module LogEntry.
Record t := mk {
  phase : Phase;
  day : nat;
  player : string;
  action : string;
  target : option string;
  timestamp : Z
}.
End LogEntry.

(** JavaScript truthiness of a target: [null] and the empty string are falsy. *)
Definition truthy (target : option string) : bool :=
  match target with
  | Some t => negb (bool_decide (t = ""))
  | None => false
  end.

(** The values a property of the tally object [votes] can hold: a number,
    or the string that [+ 1] builds from an inherited function or object
    (["function Object() { [native code] }1"] and the like) and from such a
    string.  None of these strings converts to a number. *)
Inductive TallyValue := VNumber (n : nat) | VString.

#[global] Instance TallyValue_eq_dec : EqDecision TallyValue.
Proof. solve_decision. Defined.

(** The property names every object literal inherits from
    [Object.prototype]; each holds a function, ["__proto__"] an object. *)
Definition objectPrototypeKeys : list string :=
  ["constructor"; "__defineGetter__"; "__defineSetter__"; "hasOwnProperty";
   "__lookupGetter__"; "__lookupSetter__"; "isPrototypeOf";
   "propertyIsEnumerable"; "toString"; "valueOf"; "__proto__";
   "toLocaleString"].

(** [(votes[k] || 0) + 1] on the object whose own properties are [votes]:
    an own number is incremented, a missing property counts from 0, and an
    own string or an inherited function or object is concatenated with
    ["1"]. *)
Definition tallyNext (k : string) (votes : list (string * TallyValue)) : TallyValue :=
  match JsMap.get k votes with
  | Some (VNumber n) => VNumber (n + 1)
  | Some VString => VString
  | None => if bool_decide (k ∈ objectPrototypeKeys) then VString else VNumber 1
  end.

(** [votes[k] = v]: an own property is created (last in creation order) or
    updated in place; for ["__proto__"] the inherited setter runs instead
    and ignores a value that is not an object. *)
Definition tallyAssign (k : string) (v : TallyValue) (votes : list (string * TallyValue))
  : list (string * TallyValue) :=
  if bool_decide (k = "__proto__") then votes else JsMap.set k v votes.

(** Array indices: the canonical decimal strings of the integers up to
    [2^32 - 2].  An object enumerates these keys first, in numeric order. *)
Definition digitValue (c : ascii) : option N :=
  let n := N_of_ascii c in
  if (48 <=? n)%N && (n <=? 57)%N then Some (n - 48)%N else None.

Fixpoint parseDigits (acc : N) (s : string) : option N :=
  match s with
  | EmptyString => Some acc
  | String c rest => d ← digitValue c; parseDigits (acc * 10 + d)%N rest
  end.

Definition arrayIndex (s : string) : option N :=
  match s with
  | EmptyString => None
  | String c rest =>
      if bool_decide (c = "0"%char) && negb (bool_decide (rest = "")) then None
      else n ← parseDigits 0 s; if (n <? 4294967295)%N then Some n else None
  end.

Fixpoint insertByIndex (i : N) (e : string * TallyValue)
    (sorted : list (N * (string * TallyValue))) : list (N * (string * TallyValue)) :=
  match sorted with
  | [] => [(i, e)]
  | (j, e') :: rest =>
      if (i <? j)%N then (i, e) :: (j, e') :: rest
      else (j, e') :: insertByIndex i e rest
  end.

Definition indexEntries (own : list (string * TallyValue)) : list (N * (string * TallyValue)) :=
  fold_left (fun acc e =>
               match arrayIndex e.1 with
               | Some i => insertByIndex i e acc
               | None => acc
               end) own [].

(** [Object.entries(votes)]: array-index keys in ascending numeric order,
    then the other keys in the order they were created. *)
Definition objectEntries (own : list (string * TallyValue)) : list (string * TallyValue) :=
  (indexEntries own).*2
    ++ List.filter (fun e => match arrayIndex e.1 with Some _ => false | None => true end) own.

(** One iteration of the loop that tallies the votes:
    [if (action.action === "vote" && action.target)
       votes[action.target] = (votes[action.target] || 0) + 1]. *)
Definition tallyStep (votes : list (string * TallyValue)) (e : string * Action.t)
  : list (string * TallyValue) :=
  let a := e.2 in
  if bool_decide (Action.action a = "vote") && truthy (Action.target a)
  then match Action.target a with
       | Some t => tallyAssign t (tallyNext t votes) votes
       | None => votes
       end
  else votes.

(** [for (const [voter, action] of game.actions.entries())], from [{}]. *)
Definition tallyVotes (actions : list (string * Action.t)) : list (string * TallyValue) :=
  fold_left tallyStep (JsMap.entries actions) [].

(** [voteCount > maxVotes]: a string that is not numeric converts to [NaN],
    and every comparison with [NaN] is false. *)
Definition greaterThan (voteCount : TallyValue) (maxVotes : nat) : bool :=
  match voteCount with
  | VNumber n => bool_decide (maxVotes < n)
  | VString => false
  end.

(** The loop that finds the target with the most votes; the state is
    [(maxVotes, votedOut)], entered with [(0, null)]. *)
Definition findVotedOut (votes : list (string * TallyValue)) : nat * option string :=
  fold_left (fun '(maxVotes, votedOut) '(target, voteCount) =>
               if greaterThan voteCount maxVotes
               then (match voteCount with VNumber n => n | VString => maxVotes end,
                     Some target)
               else (maxVotes, votedOut)) (objectEntries votes) (0, None).

(** ** Games, rooms, the server state *)

Module Game.
Record t := mk {
  id : string;
  roomId : string;
  players : list Player.t;
  phase : Phase;
  day : nat;
  timeLeft : Z;
  actions : list (string * Action.t);
  votingResults : list (string * TallyValue);
  lastAction : option string;
  mafiaMembers : list string;
  gameLog : list LogEntry.t;
  timer : option nat
}.

Definition set_players (x : list Player.t) (g : t) : t :=
  mk (id g) (roomId g) x (phase g) (day g) (timeLeft g) (actions g)
     (votingResults g) (lastAction g) (mafiaMembers g) (gameLog g) (timer g).

Definition set_phase (x : Phase) (g : t) : t :=
  mk (id g) (roomId g) (players g) x (day g) (timeLeft g) (actions g)
     (votingResults g) (lastAction g) (mafiaMembers g) (gameLog g) (timer g).

Definition set_day (x : nat) (g : t) : t :=
  mk (id g) (roomId g) (players g) (phase g) x (timeLeft g) (actions g)
     (votingResults g) (lastAction g) (mafiaMembers g) (gameLog g) (timer g).

Definition set_timeLeft (x : Z) (g : t) : t :=
  mk (id g) (roomId g) (players g) (phase g) (day g) x (actions g)
     (votingResults g) (lastAction g) (mafiaMembers g) (gameLog g) (timer g).

Definition set_actions (x : list (string * Action.t)) (g : t) : t :=
  mk (id g) (roomId g) (players g) (phase g) (day g) (timeLeft g) x
     (votingResults g) (lastAction g) (mafiaMembers g) (gameLog g) (timer g).

Definition set_votingResults (x : list (string * TallyValue)) (g : t) : t :=
  mk (id g) (roomId g) (players g) (phase g) (day g) (timeLeft g) (actions g)
     x (lastAction g) (mafiaMembers g) (gameLog g) (timer g).

Definition set_lastAction (x : option string) (g : t) : t :=
  mk (id g) (roomId g) (players g) (phase g) (day g) (timeLeft g) (actions g)
     (votingResults g) x (mafiaMembers g) (gameLog g) (timer g).

Definition set_gameLog (x : list LogEntry.t) (g : t) : t :=
  mk (id g) (roomId g) (players g) (phase g) (day g) (timeLeft g) (actions g)
     (votingResults g) (lastAction g) (mafiaMembers g) x (timer g).

Definition set_timer (x : option nat) (g : t) : t :=
  mk (id g) (roomId g) (players g) (phase g) (day g) (timeLeft g) (actions g)
     (votingResults g) (lastAction g) (mafiaMembers g) (gameLog g) x.
End Game.

(** [room.status]: the code writes ["waiting"] and ["playing"] and compares
    with ["finished"]. *)
Inductive Status := Waiting | Playing | Finished.

#[global] Instance Status_eq_dec : EqDecision Status.
Proof. solve_decision. Defined.

Module ChatMessage.
Record t := mk {
  sender : string;
  message : string;
  timestamp : Z
}.
End ChatMessage.

(** A room of the registry.  [game] is a reference to a game object of the
    store, or [None] for [null]. *)
Module Room.
Record t := mk {
  id : string;
  name : string;
  status : Status;
  minPlayers : Z;
  maxPlayers : Z;
  creator : string;
  password : option string;
  players : list Player.t;
  roles : RoleSettings;
  messages : list ChatMessage.t;
  game : option nat;
  createdAt : Z
}.

Definition set_status (x : Status) (r : t) : t :=
  mk (id r) (name r) x (minPlayers r) (maxPlayers r) (creator r) (password r)
     (players r) (roles r) (messages r) (game r) (createdAt r).

Definition set_creator (x : string) (r : t) : t :=
  mk (id r) (name r) (status r) (minPlayers r) (maxPlayers r) x (password r)
     (players r) (roles r) (messages r) (game r) (createdAt r).

Definition set_players (x : list Player.t) (r : t) : t :=
  mk (id r) (name r) (status r) (minPlayers r) (maxPlayers r) (creator r) (password r)
     x (roles r) (messages r) (game r) (createdAt r).

Definition set_game (x : option nat) (r : t) : t :=
  mk (id r) (name r) (status r) (minPlayers r) (maxPlayers r) (creator r) (password r)
     (players r) (roles r) (messages r) x (createdAt r).
End Room.

(** The value [this.users] keeps for a connection: the database row of the
    identity with [currentRoom] and [isAuthenticated]. *)
Module User.
Record t := mk {
  nickname : string;
  avatar : string;
  coins : Z;
  nickname_effects : list string;
  games_played : Z;
  games_won : Z;
  games_survived : Z;
  is_admin : bool;
  currentRoom : option string;
  isAuthenticated : bool
}.

Definition set_currentRoom (x : option string) (u : t) : t :=
  mk (nickname u) (avatar u) (coins u) (nickname_effects u) (games_played u)
     (games_won u) (games_survived u) (is_admin u) x (isAuthenticated u).
End User.

Inductive Winner := WCitizens | WMafia.

#[global] Instance Winner_eq_dec : EqDecision Winner.
Proof. solve_decision. Defined.

(** The writes the server issues to the database, in the order of issue. *)
Inductive DbCall :=
| DbUpdateUserStats (nickname : string) (won survived : bool)
| DbUpdateUserCoins (nickname : string) (amount : Z)
| DbEndGame (gameId : string) (winner : Winner) (gameLog : list LogEntry.t)
| DbDeleteRoom (roomId : string).

(** The answer of a database read: a value, or a rejected promise. *)
Inductive DbResult (A : Type) := DbOk (a : A) | DbFail.
Arguments DbOk {A} a.
Arguments DbFail {A}.

(** An armed interval: its handle and what its callback closes over, the
    game object and the room id. *)
Record Interval := mkInterval {
  handle : nat;
  intervalGame : nat;
  intervalRoom : string
}.

(** ** Outgoing messages *)

Module PlayerView.
Record t := mk {
  nickname : string;
  avatar : string;
  isCreator : bool;
  isReady : bool;
  isAlive : bool;
  role : option Role
}.
End PlayerView.

Module GameView.
Record t := mk {
  phase : Phase;
  day : nat;
  timeLeft : Z;
  votingResults : list (string * TallyValue);
  lastAction : option string
}.
End GameView.

(** What [sanitizeRoomForClient] builds. *)
Module Snapshot.
Record t := mk {
  id : string;
  name : string;
  status : Status;
  players : list PlayerView.t;
  maxPlayers : Z;
  creator : string;
  roles : RoleSettings;
  messages : list ChatMessage.t;
  game : option GameView.t
}.
End Snapshot.

(** A row of the [rooms] table, as [getRoom] and [getRooms] return it. *)
Module DbRoom.
Record t := mk {
  id : string;
  name : string;
  status : Status;
  max_players : Z;
  creator_nickname : string;
  password : option string;
  created_at : Z
}.
End DbRoom.

(** A row of the [users] table, as [loginUser] returns it. *)
Module DbUser.
Record t := mk {
  nickname : string;
  avatar : string;
  coins : Z;
  nickname_effects : list string;
  games_played : Z;
  games_won : Z;
  games_survived : Z;
  is_admin : bool
}.
End DbUser.

Module RoomListEntry.
Record t := mk {
  id : string;
  name : string;
  status : Status;
  players : nat;
  maxPlayers : Z;
  creator : string;
  hasPassword : bool;
  createdAt : Z
}.
End RoomListEntry.

Inductive Message :=
| MsgError (message : string)
| MsgKicked (reason : string)
| MsgLoginSuccess (user : DbUser.t)
| MsgRoomJoined (room : Snapshot.t)
| MsgRoomUpdated (room : Snapshot.t)
| MsgChatMessage (m : ChatMessage.t)
| MsgRooms (rooms : list RoomListEntry.t).

(** ** The state of the server

    [rooms] is the one [Map] that the connection handler creates and passes
    to the engine with [setRooms]; [games] is the engine's own [Map];
    [users] and [usersByNickname] are the handler's.  [store] holds the game
    objects, [intervals] the intervals that [setInterval] armed and
    [clearInterval] has not cleared.  A connection is a number; it is in
    [closedSockets] once its [close()] was called or its transport ended,
    and [readyState === OPEN] otherwise.  [sent] lists the frames handed to
    [ws.send], [dbCalls] the writes that the engine and [leaveRoom] hand to
    the database, in the order in which they are handed over.  The database
    is outside the program: [dbRejects k] tells whether it rejects the
    write of [dbCalls] with number [k] (counting from 0), so that the
    promise of the call is rejected and the [await] throws.  No function of
    the server changes [dbRejects], and the results hold for every such
    function.  The reads of the handler, and the writes of [createRoom] and
    [handleChatMessage], are arguments of these functions instead. *)
Record State := mkState {
  rooms : gmap string Room.t;
  store : gmap nat Game.t;
  games : gmap string nat;
  intervals : list Interval;
  nextHandle : nat;
  nextGame : nat;
  dbCalls : list DbCall;
  users : list (nat * User.t);
  usersByNickname : gmap string nat;
  closedSockets : gset nat;
  sent : list (nat * Message);
  dbRejects : nat -> bool
}.

Definition set_rooms (x : gmap string Room.t) (s : State) : State :=
  mkState x (store s) (games s) (intervals s) (nextHandle s) (nextGame s)
          (dbCalls s) (users s) (usersByNickname s) (closedSockets s) (sent s) (dbRejects s).

Definition set_store (x : gmap nat Game.t) (s : State) : State :=
  mkState (rooms s) x (games s) (intervals s) (nextHandle s) (nextGame s)
          (dbCalls s) (users s) (usersByNickname s) (closedSockets s) (sent s) (dbRejects s).

Definition set_games (x : gmap string nat) (s : State) : State :=
  mkState (rooms s) (store s) x (intervals s) (nextHandle s) (nextGame s)
          (dbCalls s) (users s) (usersByNickname s) (closedSockets s) (sent s) (dbRejects s).

Definition set_intervals (x : list Interval) (s : State) : State :=
  mkState (rooms s) (store s) (games s) x (nextHandle s) (nextGame s)
          (dbCalls s) (users s) (usersByNickname s) (closedSockets s) (sent s) (dbRejects s).

Definition set_nextHandle (x : nat) (s : State) : State :=
  mkState (rooms s) (store s) (games s) (intervals s) x (nextGame s)
          (dbCalls s) (users s) (usersByNickname s) (closedSockets s) (sent s) (dbRejects s).

Definition set_nextGame (x : nat) (s : State) : State :=
  mkState (rooms s) (store s) (games s) (intervals s) (nextHandle s) x
          (dbCalls s) (users s) (usersByNickname s) (closedSockets s) (sent s) (dbRejects s).

Definition set_dbCalls (x : list DbCall) (s : State) : State :=
  mkState (rooms s) (store s) (games s) (intervals s) (nextHandle s) (nextGame s)
          x (users s) (usersByNickname s) (closedSockets s) (sent s) (dbRejects s).

Definition set_users (x : list (nat * User.t)) (s : State) : State :=
  mkState (rooms s) (store s) (games s) (intervals s) (nextHandle s) (nextGame s)
          (dbCalls s) x (usersByNickname s) (closedSockets s) (sent s) (dbRejects s).

Definition set_usersByNickname (x : gmap string nat) (s : State) : State :=
  mkState (rooms s) (store s) (games s) (intervals s) (nextHandle s) (nextGame s)
          (dbCalls s) (users s) x (closedSockets s) (sent s) (dbRejects s).

Definition set_closedSockets (x : gset nat) (s : State) : State :=
  mkState (rooms s) (store s) (games s) (intervals s) (nextHandle s) (nextGame s)
          (dbCalls s) (users s) (usersByNickname s) x (sent s) (dbRejects s).

Definition set_sent (x : list (nat * Message)) (s : State) : State :=
  mkState (rooms s) (store s) (games s) (intervals s) (nextHandle s) (nextGame s)
          (dbCalls s) (users s) (usersByNickname s) (closedSockets s) x (dbRejects s).

Definition set_dbRejects (x : nat -> bool) (s : State) : State :=
  mkState (rooms s) (store s) (games s) (intervals s) (nextHandle s) (nextGame s)
          (dbCalls s) (users s) (usersByNickname s) (closedSockets s) (sent s) x.

(** [room.game] of the room registered under [roomId], dereferenced: the
    guard [if (!room || !room.game) return] passes exactly when this is
    [Some]. *)
Definition liveGame (roomId : string) (s : State) : option (Room.t * nat * Game.t) :=
  room ← rooms s !! roomId;
  ref ← Room.game room;
  game ← store s !! ref;
  Some (room, ref, game).

(** A write to the game object [ref]. *)
Definition updateGame (ref : nat) (f : Game.t -> Game.t) (s : State) : State :=
  set_store (alter f ref (store s)) s.

(** A write to the room registered under [roomId]. *)
Definition updateRoom (roomId : string) (f : Room.t -> Room.t) (s : State) : State :=
  set_rooms (alter f roomId (rooms s)) s.

(** ** The game engine *)

(** [startPhaseTimer(roomId)]: arms a new interval for the room's game and
    stores its handle in [game.timer].  Nothing is cleared. *)
Definition startPhaseTimer (roomId : string) (s : State) : State :=
  match liveGame roomId s with
  | None => s
  | Some (_, ref, _) =>
      let timer := nextHandle s in
      let s := set_intervals (intervals s ++ [mkInterval timer ref roomId]) s in
      let s := set_nextHandle (S timer) s in
      updateGame ref (Game.set_timer (Some timer)) s
  end.

(** The reward loop of [endGame] for one player. *)
Definition rewardCalls (winner : Winner) (player : Player.t) : list DbCall :=
  let won :=
    match winner with
    | WCitizens => isCitizenRole (Player.role player)
    | WMafia => isMafiaRole (Player.role player)
    end in
  let survived := Player.isAlive player in
  let coinReward := if won && survived then 7%Z else if won then 3%Z else (-5)%Z in
  [DbUpdateUserStats (Player.nickname player) won survived;
   DbUpdateUserCoins (Player.nickname player) coinReward].

Definition winnerText (winner : Winner) : string :=
  "Игра окончена! Победили: "
    +:+ match winner with WCitizens => "Мирные жители" | WMafia => "Мафия" end.

(** [await this.database.<write>(...)]: the write is handed to the
    database; the boolean is [false] when the database rejects it, and the
    exception then leaves the calling function at this [await]. *)
Definition dbWrite (call : DbCall) (s : State) : State * bool :=
  (set_dbCalls (dbCalls s ++ [call]) s, negb (dbRejects s (length (dbCalls s)))).

(** Writes awaited one after the other: a rejected write is the last one
    that is handed over. *)
Fixpoint dbWrites (calls : list DbCall) (s : State) : State * bool :=
  match calls with
  | [] => (s, true)
  | call :: rest =>
      let '(s, accepted) := dbWrite call s in
      if accepted then dbWrites rest s else (s, false)
  end.

(** What the database makes of the writes it is handed from number [k] on:
    whether it accepts the next [n] of them, and which of [calls] are
    handed over when they are awaited in order (all up to and including
    the first one it rejects). *)
Fixpoint acceptsFrom (rejects : nat -> bool) (k n : nat) : bool :=
  match n with
  | 0 => true
  | S n' => negb (rejects k) && acceptsFrom rejects (S k) n'
  end.

Fixpoint issuedOf (rejects : nat -> bool) (k : nat) (calls : list DbCall) : list DbCall :=
  match calls with
  | [] => []
  | call :: rest => call :: if rejects k then [] else issuedOf rejects (S k) rest
  end.

(** The database accepts the next [n] writes of the state [s]. *)
Definition dbAcceptsNext (n : nat) (s : State) : bool :=
  acceptsFrom (dbRejects s) (length (dbCalls s)) n.

(** [endGame(roomId, winner)], with the boolean [true] when the function
    returns and [false] when a rejected write throws out of it.  The reward
    writes of all players are awaited before the room is reset, and the
    end-of-game record is awaited before the entry of the engine's table
    is deleted and the closing line is written.  The function is run in
    one piece: events that the server could take between two of its
    [await]s are not part of the model. *)
Definition endGameRun (roomId : string) (winner : Winner) (s : State) : State * bool :=
  match liveGame roomId s with
  | None => (s, true)
  | Some (_, ref, game) =>
      let '(s, accepted) := dbWrites (concat (rewardCalls winner <$> Game.players game)) s in
      if negb accepted then (s, false)
      else
        let s := updateRoom roomId
                   (fun room => Room.set_game None (Room.set_status Waiting room)) s in
        let '(s, accepted) :=
          dbWrite (DbEndGame (Game.id game) winner (Game.gameLog game)) s in
        if negb accepted then (s, false)
        else
          let s := set_games (delete roomId (games s)) s in
          (updateGame ref (Game.set_lastAction (Some (winnerText winner))) s, true)
  end.

(** The state [endGame] leaves, and whether it returns. *)
Definition endGame (roomId : string) (winner : Winner) (s : State) : State :=
  (endGameRun roomId winner s).1.

Definition endGameReturns (roomId : string) (winner : Winner) (s : State) : bool :=
  (endGameRun roomId winner s).2.

Definition alivePlayersOf (players : list Player.t) : list Player.t :=
  List.filter Player.isAlive players.

Definition aliveMafiaOf (players : list Player.t) : list Player.t :=
  List.filter (fun p => isMafiaRole (Player.role p)) (alivePlayersOf players).

Definition aliveCitizensOf (players : list Player.t) : list Player.t :=
  List.filter (fun p => isCitizenRole (Player.role p)) (alivePlayersOf players).

(** The winner [checkWinConditions] decides from the players of a game. *)
Definition decideWinner (players : list Player.t) : option Winner :=
  let aliveMafia := aliveMafiaOf players in
  let aliveCitizens := aliveCitizensOf players in
  if bool_decide (length aliveMafia = 0) then Some WCitizens
  else if bool_decide (length aliveCitizens <= length aliveMafia) then Some WMafia
  else None.

(** [checkWinConditions(roomId)], with the boolean it returns; [None] when
    the exception of [endGame] leaves it. *)
Definition checkWinConditions (roomId : string) (s : State) : State * option bool :=
  match liveGame roomId s with
  | None => (s, Some false)
  | Some (_, _, game) =>
      match decideWinner (Game.players game) with
      | Some winner =>
          (endGame roomId winner s,
           if endGameReturns roomId winner s then Some true else None)
      | None => (s, Some false)
      end
  end.

(** The two filters of [processNightActions] over the pending actions. *)
Definition mafiaKillsOf (game : Game.t) : list (string * Action.t) :=
  List.filter (fun e => bool_decide (Action.action e.2 = "kill")
                        && isMafiaRole (playerRole e.1 (Game.players game)))
              (JsMap.entries (Game.actions game)).

Definition doctorHealsOf (game : Game.t) : list (string * Action.t) :=
  List.filter (fun e => bool_decide (Action.action e.2 = "heal")
                        && bool_decide (playerRole e.1 (Game.players game) = Some Doctor))
              (JsMap.entries (Game.actions game)).

(** The player [processNightActions] kills, [null] when there is none. *)
Definition nightVictim (game : Game.t) : option Player.t :=
  match mafiaKillsOf game with
  | [] => None
  | first :: _ =>
      let targetNickname := Action.target first.2 in
      let isHealed :=
        existsb (fun e => bool_decide (Action.target e.2 = targetNickname))
                (doctorHealsOf game) in
      if isHealed then None
      else t ← targetNickname; findPlayer t (Game.players game)
  end.

(** The writes of [processNightActions] to the game object, up to the win
    evaluation. *)
Definition resolveNight (game : Game.t) : Game.t :=
  let killedPlayer := nightVictim game in
  let game :=
    match killedPlayer with
    | Some p => Game.set_players (killPlayer (Player.nickname p) (Game.players game)) game
    | None => game
    end in
  let game := Game.set_phase Day game in
  let game := Game.set_timeLeft 120 game in
  let game := Game.set_actions JsMap.clear game in
  Game.set_lastAction
    (Some match killedPlayer with
          | Some p => Player.nickname p +:+ " был убит ночью"
          | None => "Ночь прошла спокойно"
          end) game.

(** [processNightActions(roomId)].  When the exception of [endGame] comes
    out of [await this.checkWinConditions(roomId)], the function is left
    there and no timer is started. *)
Definition processNightActions (roomId : string) (s : State) : State :=
  match liveGame roomId s with
  | None => s
  | Some (_, ref, _) =>
      let s := updateGame ref resolveNight s in
      match checkWinConditions roomId s with
      | (s, Some _) => startPhaseTimer roomId s
      | (s, None) => s
      end
  end.

(** The writes of [processDayVoting] to the game object, up to the win
    evaluation. *)
Definition resolveDay (game : Game.t) : Game.t :=
  let votes := tallyVotes (Game.actions game) in
  let '(maxVotes, votedOut) := findVotedOut votes in
  let game :=
    if truthy votedOut && bool_decide (0 < maxVotes) then
      match votedOut with
      | Some target =>
          match findPlayer target (Game.players game) with
          | Some _ =>
              Game.set_lastAction (Some (target +:+ " был исключён голосованием"))
                (Game.set_players (killPlayer target (Game.players game)) game)
          | None => game
          end
      | None => game
      end
    else Game.set_lastAction (Some "Никто не был исключён") game in
  Game.set_votingResults votes game.

(** The writes of [processDayVoting] when the game has not ended. *)
Definition enterNight (game : Game.t) : Game.t :=
  let game := Game.set_phase Night game in
  let game := Game.set_day (Game.day game + 1) game in
  let game := Game.set_timeLeft 60 game in
  Game.set_actions JsMap.clear game.

(** [processDayVoting(roomId)]; an exception of [endGame] leaves it at
    [await this.checkWinConditions(roomId)]. *)
Definition processDayVoting (roomId : string) (s : State) : State :=
  match liveGame roomId s with
  | None => s
  | Some (_, ref, _) =>
      let s := updateGame ref resolveDay s in
      match checkWinConditions roomId s with
      | (s, Some false) => startPhaseTimer roomId (updateGame ref enterNight s)
      | (s, _) => s
      end
  end.

(** [checkPhaseCompletion(roomId)] *)
Definition checkPhaseCompletion (roomId : string) (s : State) : State :=
  match liveGame roomId s with
  | None => s
  | Some (_, _, game) =>
      let alivePlayers := alivePlayersOf (Game.players game) in
      match Game.phase game with
      | Night =>
          let aliveMafia := List.filter (fun p => isMafiaRole (Player.role p)) alivePlayers in
          let mafiaActions :=
            List.filter (fun p => JsMap.has (Player.nickname p) (Game.actions game)) aliveMafia in
          if bool_decide (length mafiaActions = length aliveMafia)
          then processNightActions roomId s else s
      | Day =>
          let votes :=
            List.filter (fun a => bool_decide (Action.action a = "vote"))
                        (JsMap.values (Game.actions game)) in
          if bool_decide (length votes = length alivePlayers)
          then processDayVoting roomId s else s
      end
  end.

(** The two writes of [handleAction] to the game object: the pending
    action of the player is set, the log gets a line. *)
Definition recordAction (playerNickname action : string) (target : option string)
    (now : Z) (game : Game.t) : Game.t :=
  let game :=
    Game.set_actions
      (JsMap.set playerNickname (Action.mk action target now) (Game.actions game)) game in
  Game.set_gameLog
    (Game.gameLog game
       ++ [LogEntry.mk (Game.phase game) (Game.day game) playerNickname action target now])
    game.

(** [handleAction(room, playerNickname, action, target)], for the room
    object registered under [roomId]; [now] is the clock reading. *)
Definition handleAction (roomId playerNickname action : string) (target : option string)
    (now : Z) (s : State) : State :=
  match liveGame roomId s with
  | None => s
  | Some (_, ref, game) =>
      match findPlayer playerNickname (Game.players game) with
      | None => s
      | Some player =>
          if negb (Player.isAlive player) then s
          else
            let s := updateGame ref (recordAction playerNickname action target now) s in
            checkPhaseCompletion roomId s
      end
  end.

(** One run of the callback that [startPhaseTimer] passed to [setInterval]
    for the interval [timer].  A cleared interval does not run.  The
    callback does not await the resolution it calls, so an exception of
    [endGame] inside it is caught by nobody; the state is what the
    resolution left. *)
Definition intervalCallback (timer : nat) (s : State) : State :=
  match List.find (fun iv => bool_decide (handle iv = timer)) (intervals s) with
  | None => s
  | Some iv =>
      let ref := intervalGame iv in
      let roomId := intervalRoom iv in
      (* game.timeLeft-- *)
      let s := updateGame ref (fun game => Game.set_timeLeft (Game.timeLeft game - 1) game) s in
      match store s !! ref with
      | None => s
      | Some game =>
          if bool_decide (Game.timeLeft game <= 0)%Z then
            (* clearInterval(timer) *)
            let s := set_intervals
                       (List.filter (fun iv' => negb (bool_decide (handle iv' = timer)))
                                    (intervals s)) s in
            match Game.phase game with
            | Night => processNightActions roomId s
            | Day => processDayVoting roomId s
            end
          else s
      end
  end.

(** [startGame(room, database)] for the room object registered under
    [roomId]; [gameId] is what [database.startGame] resolves to and
    [random_index] the draws of the shuffle.  In the code [game.players] is
    a copy of the array [room.players] that holds the same player objects;
    here the roster and the players of the game are two lists of values,
    equal at this point.  The later writes of the engine to a player
    ([isAlive]) are followed in the game object only, and the results read
    the flags of a player from the game object, never from the roster. *)
Definition startGame (random_index : nat -> nat) (roomId gameId : string) (s : State) : State :=
  match rooms s !! roomId with
  | None => s
  | Some room =>
      let roles := distributeRoles random_index (Room.players room) (Room.roles room) in
      let players :=
        imap (fun index player =>
                Player.set_isAlive true (Player.set_role (roles !! index) player))
             (Room.players room) in
      let game :=
        Game.mk gameId (Room.id room) players Night 1 60 JsMap.clear [] None
                (Player.nickname <$> List.filter (fun p => isMafiaRole (Player.role p)) players)
                [] None in
      let ref := nextGame s in
      let s := set_nextGame (S ref) (set_store (<[ref := game]> (store s)) s) in
      let s := updateRoom roomId
                 (fun room => Room.set_status Playing
                                (Room.set_game (Some ref) (Room.set_players players room))) s in
      let s := set_games (<[Room.id room := ref]> (games s)) s in
      startPhaseTimer (Room.id room) s
  end.

(** ** The connection handler *)

(** [send(ws, data)]: [if (ws.readyState === WebSocket.OPEN) ws.send(...)] *)
Definition send (ws : nat) (data : Message) (s : State) : State :=
  if bool_decide (ws ∈ closedSockets s) then s
  else set_sent (sent s ++ [(ws, data)]) s.

Definition sendError (ws : nat) (message : string) (s : State) : State :=
  send ws (MsgError message) s.

(** [ws.close()]: the connection stops being open at once; its [close]
    event is delivered later, as an event of its own ([onClose]). *)
Definition closeSocket (ws : nat) (s : State) : State :=
  set_closedSockets ({[ws]} ∪ closedSockets s) s.

(** [broadcastToRoom(roomId, message)] *)
Definition broadcastToRoom (roomId : string) (message : Message) (s : State) : State :=
  match rooms s !! roomId with
  | None => s
  | Some _ =>
      fold_left (fun s e =>
                   if bool_decide (User.currentRoom e.2 = Some roomId)
                   then send e.1 message s else s)
                (JsMap.entries (users s)) s
  end.

Definition roomsListOf (rows : list DbRoom.t) (s : State) : list RoomListEntry.t :=
  (fun room =>
     RoomListEntry.mk (DbRoom.id room) (DbRoom.name room) (DbRoom.status room)
       (match rooms s !! DbRoom.id room with
        | Some roomData => length (Room.players roomData)
        | None => 0
        end)
       (DbRoom.max_players room) (DbRoom.creator_nickname room)
       (truthy (DbRoom.password room)) (DbRoom.created_at room)) <$> rows.

(** [broadcastRoomsList()], given the answer of [db.getRooms()]; [None]
    when that promise is rejected and the exception leaves the function. *)
Definition broadcastRoomsList (answer : DbResult (list DbRoom.t)) (s : State) : option State :=
  match answer with
  | DbFail => None
  | DbOk rows =>
      let roomsList := roomsListOf rows s in
      Some (fold_left (fun s e =>
                         if User.isAuthenticated e.2 && negb (truthy (User.currentRoom e.2))
                         then send e.1 (MsgRooms roomsList) s else s)
                      (JsMap.entries (users s)) s)
  end.

(** [sanitizeRoomForClient(room, userNickname = null)]; [objects] is the
    store in which [room.game] is looked up. *)
Definition sanitizeRoomForClient (objects : gmap nat Game.t) (room : Room.t)
    (userNickname : option string) : Snapshot.t :=
  Snapshot.mk (Room.id room) (Room.name room) (Room.status room)
    ((fun p =>
        PlayerView.mk (Player.nickname p) (Player.avatar p) (Player.isCreator p)
          (Player.isReady p) (Player.isAlive p)
          (if bool_decide (Some (Player.nickname p) = userNickname)
              || bool_decide (Room.status room = Finished)
           then Player.role p else None)) <$> Room.players room)
    (Room.maxPlayers room) (Room.creator room) (Room.roles room)
    (drop (length (Room.messages room) - 50) (Room.messages room))
    (ref ← Room.game room;
     game ← objects !! ref;
     Some (GameView.mk (Game.phase game) (Game.day game) (Game.timeLeft game)
             (Game.votingResults game) (Game.lastAction game))).

(** [handleLogin(ws, data)], given the answer of [db.loginUser]; the empty
    string stands for a missing nickname or password. *)
Definition handleLogin (ws : nat) (nickname password : string)
    (answer : DbResult (option DbUser.t)) (s : State) : State :=
  if bool_decide (nickname = "") || bool_decide (password = "")
  then sendError ws "Никнейм и пароль обязательны" s
  else
    match answer with
    | DbFail => sendError ws "Ошибка входа в систему" s
    | DbOk None => sendError ws "Неверный никнейм или пароль" s
    | DbOk (Some user) =>
        let s :=
          match usersByNickname s !! nickname with
          | Some existingWs =>
              if negb (bool_decide (existingWs = ws))
              then closeSocket existingWs
                     (send existingWs (MsgKicked "Вход с другого устройства") s)
              else s
          | None => s
          end in
        let s :=
          set_users
            (JsMap.set ws
               (User.mk (DbUser.nickname user) (DbUser.avatar user) (DbUser.coins user)
                  (DbUser.nickname_effects user) (DbUser.games_played user)
                  (DbUser.games_won user) (DbUser.games_survived user)
                  (DbUser.is_admin user) None true)
               (users s)) s in
        let s := set_usersByNickname (<[nickname := ws]> (usersByNickname s)) s in
        send ws (MsgLoginSuccess user) s
    end.

(** The player [joinRoom] pushes on the roster. *)
Definition newPlayer (user : User.t) : Player.t :=
  Player.mk (User.nickname user) (User.avatar user) false false None true.

(** [dbRoom && dbRoom.password && dbRoom.password !== password] *)
Definition wrongPassword (dbRoom : option DbRoom.t) (password : option string) : bool :=
  match dbRoom with
  | Some row =>
      truthy (DbRoom.password row) && negb (bool_decide (DbRoom.password row = password))
  | None => false
  end.

(** [joinRoom(ws, roomId, password = null)], given the answers of
    [db.getRoom(roomId)] and of the [db.getRooms()] of the final broadcast,
    and the clock reading. *)
Definition joinRoom (ws : nat) (roomId : string) (password : option string)
    (dbRoom : DbResult (option DbRoom.t)) (dbRooms : DbResult (list DbRoom.t))
    (now : Z) (s : State) : State :=
  match JsMap.get ws (users s) with
  | None => sendError ws "Вы не авторизованы" s
  | Some user =>
      if negb (User.isAuthenticated user) then sendError ws "Вы не авторизованы" s
      else if truthy (User.currentRoom user) then sendError ws "Вы уже находитесь в комнате" s
      else
        match rooms s !! roomId with
        | None => sendError ws "Комната не найдена" s
        | Some room =>
            match dbRoom with
            | DbFail => sendError ws "Ошибка присоединения к комнате" s
            | DbOk dbRoom =>
                if wrongPassword dbRoom password then sendError ws "Неверный пароль" s
                else if bool_decide (Room.maxPlayers room <= Z.of_nat (length (Room.players room)))%Z
                then sendError ws "Комната заполнена" s
                else if negb (bool_decide (Room.status room = Waiting))
                then sendError ws "Игра уже началась" s
                else
                  let room := Room.set_players (Room.players room ++ [newPlayer user]) room in
                  let s := set_rooms (<[roomId := room]> (rooms s)) s in
                  let s := set_users
                             (JsMap.set ws (User.set_currentRoom (Some roomId) user) (users s)) s in
                  let s := send ws (MsgRoomJoined
                                      (sanitizeRoomForClient (store s) room
                                         (Some (User.nickname user)))) s in
                  let s := broadcastToRoom roomId
                             (MsgRoomUpdated (sanitizeRoomForClient (store s) room None)) s in
                  let s := broadcastToRoom roomId
                             (MsgChatMessage
                                (ChatMessage.mk "Система"
                                   (User.nickname user +:+ " присоединился к комнате") now)) s in
                  match broadcastRoomsList dbRooms s with
                  | Some s' => s'
                  | None => sendError ws "Ошибка присоединения к комнате" s
                  end
            end
        end
  end.

(** [leaveRoom(ws)] up to [await this.broadcastRoomsList()]; the boolean
    tells whether the function goes on to broadcast the room list: it does
    not where it returns early, nor when [db.deleteRoom] is rejected. *)
Definition leaveRoomSync (ws : nat) (now : Z) (s : State) : State * bool :=
  match JsMap.get ws (users s) with
  | None => (s, false)
  | Some user =>
      match User.currentRoom user with
      | None => (s, false)
      | Some roomId =>
          if negb (truthy (Some roomId)) then (s, false)
          else
            match rooms s !! roomId with
            | None => (s, false)
            | Some room =>
                let players :=
                  match findPlayerIndex (User.nickname user) (Room.players room) with
                  | Some playerIndex => delete playerIndex (Room.players room)
                  | None => Room.players room
                  end in
                let room := Room.set_players players room in
                let s := set_rooms (<[roomId := room]> (rooms s)) s in
                let s := set_users (JsMap.set ws (User.set_currentRoom None user) (users s)) s in
                match players with
                | [] =>
                    let s := set_rooms (delete roomId (rooms s)) s in
                    (* await this.db.deleteRoom(roomId): rejected, the
                       exception leaves [leaveRoom] before the broadcast *)
                    dbWrite (DbDeleteRoom roomId) s
                | first :: others =>
                    let room :=
                      if bool_decide (Room.creator room = User.nickname user)
                      then Room.set_players (Player.set_isCreator true first :: others)
                             (Room.set_creator (Player.nickname first) room)
                      else room in
                    let s := set_rooms (<[roomId := room]> (rooms s)) s in
                    let s := broadcastToRoom roomId
                               (MsgRoomUpdated (sanitizeRoomForClient (store s) room None)) s in
                    let s := broadcastToRoom roomId
                               (MsgChatMessage
                                  (ChatMessage.mk "Система"
                                     (User.nickname user +:+ " покинул комнату") now)) s in
                    (s, true)
                end
            end
      end
  end.

(** [leaveRoom(ws)]; a rejected [db.getRooms()] leaves the state as the
    synchronous part made it. *)
Definition leaveRoom (ws : nat) (dbRooms : DbResult (list DbRoom.t)) (now : Z) (s : State) : State :=
  let '(s, continues) := leaveRoomSync ws now s in
  if continues then default s (broadcastRoomsList dbRooms s) else s.

(** [handleDisconnect(ws)].  [leaveRoom] is called without [await]: it runs
    to its first suspension, the two [delete]s follow, and the room list is
    broadcast afterwards. *)
Definition handleDisconnect (ws : nat) (dbRooms : DbResult (list DbRoom.t)) (now : Z)
    (s : State) : State :=
  match JsMap.get ws (users s) with
  | None => s
  | Some user =>
      let '(s, continues) :=
        if truthy (User.currentRoom user) then leaveRoomSync ws now s else (s, false) in
      let s := set_users (JsMap.delete ws (users s)) s in
      let s :=
        if negb (bool_decide (User.nickname user = ""))
        then set_usersByNickname (delete (User.nickname user) (usersByNickname s)) s
        else s in
      if continues then default s (broadcastRoomsList dbRooms s) else s
  end.

(** The [close] event of a connection: the transport has ended, and the
    listener registered in [setupWebSocket] runs [handleDisconnect]. *)
Definition onClose (ws : nat) (dbRooms : DbResult (list DbRoom.t)) (now : Z) (s : State) : State :=
  handleDisconnect ws dbRooms now (closeSocket ws s).

(** [handleGameAction(ws, data)] with [data.action = { action, target }]. *)
Definition handleGameAction (ws : nat) (action : string) (target : option string) (now : Z)
    (s : State) : State :=
  match JsMap.get ws (users s) with
  | None => sendError ws "Вы не находитесь в комнате" s
  | Some user =>
      match User.currentRoom user with
      | None => sendError ws "Вы не находитесь в комнате" s
      | Some roomId =>
          if negb (truthy (Some roomId)) then sendError ws "Вы не находитесь в комнате" s
          else
            match liveGame roomId s with
            | None => sendError ws "Игра не найдена" s
            | Some _ => handleAction roomId (User.nickname user) action target now s
            end
      end
  end.

(** ** Events

    What reaches the engine of one server: an action of a player, or a run
    of the callback of an armed interval.  [run] dispatches a sequence of
    events in order. *)
Inductive Event :=
| EvAction (roomId playerNickname action : string) (target : option string) (now : Z)
| EvInterval (timer : nat).

Definition step (s : State) (e : Event) : State :=
  match e with
  | EvAction roomId playerNickname action target now =>
      handleAction roomId playerNickname action target now s
  | EvInterval timer => intervalCallback timer s
  end.

Definition run (events : list Event) (s : State) : State :=
  fold_left step events s.

(** What reaches the connection handler in the results on login: a login
    message with the database's answer, or the [close] event of a
    connection. *)
Inductive ConnEvent :=
| EvLogin (ws : nat) (nickname password : string) (answer : DbResult (option DbUser.t))
| EvClose (ws : nat) (dbRooms : DbResult (list DbRoom.t)) (now : Z).

Definition connStep (s : State) (e : ConnEvent) : State :=
  match e with
  | EvLogin ws nickname password answer => handleLogin ws nickname password answer s
  | EvClose ws dbRooms now => onClose ws dbRooms now s
  end.

Definition connRun (events : list ConnEvent) (s : State) : State :=
  fold_left connStep events s.

(** The connections that are open and hold the identity [nickname] in
    [this.users]. *)
Definition liveConnectionsOf (nickname : string) (s : State) : list nat :=
  (List.filter (fun e => bool_decide (User.nickname e.2 = nickname)
                         && negb (bool_decide (e.1 ∈ closedSockets s)))
               (JsMap.entries (users s))).*1.

Definition emptyState : State :=
  mkState ∅ ∅ ∅ [] 0 0 [] [] ∅ ∅ [] (fun _ => false).

(** ** Example tables and games *)

Definition fivePlayers : list Player.t :=
  (fun nick => Player.mk nick "" false false None true) <$> ["P1"; "P2"; "P3"; "P4"; "P5"].

(** A game of four: P1 is the leader (the shuffle draws [j = i] throughout
    and exchanges nothing). *)
Definition plainPlayer (nick : string) : Player.t :=
  Player.mk nick "" false false None true.

Definition tableOfFour : Room.t :=
  Room.mk "r1" "table" Waiting 4 10 "P1" None
          (plainPlayer <$> ["P1"; "P2"; "P3"; "P4"])
          (mkRoleSettings true true false) [] None 0.

Definition gameOfFour : State :=
  startGame (fun i => i) "r1" "g1" (set_rooms {["r1" := tableOfFour]} emptyState).

(** The room and the game object of [gameOfFour], written out. *)
Definition firstNightOfFour : Game.t :=
  Game.mk "g1" "r1"
          [Player.set_role (Some Don) (plainPlayer "P1");
           Player.set_role (Some Citizen) (plainPlayer "P2");
           Player.set_role (Some Citizen) (plainPlayer "P3");
           Player.set_role (Some Citizen) (plainPlayer "P4")]
          Night 1 60 [] [] None ["P1"] [] (Some 0).

Definition roomOfFour : Room.t :=
  Room.set_status Playing
    (Room.set_game (Some 0)
       (Room.set_players (Game.players firstNightOfFour) tableOfFour)).

(** A night in which the leader acts at once without naming a victim, and
    a day in which all four vote at once without naming a target: each
    phase is resolved by the completion of its actions, and nobody dies. *)
Definition quietNight (now : Z) : list Event :=
  [EvAction "r1" "P1" "kill" None now].

Definition quietDay (now : Z) : list Event :=
  (fun nick => EvAction "r1" nick "vote" None now) <$> ["P1"; "P2"; "P3"; "P4"].

(** The armed intervals run once a second each, in the order they were
    armed.  With the seven intervals of night 4, 59 runs are eight rounds
    and three more. *)
Definition fiftyNineRuns : list Event :=
  concat (replicate 8 (EvInterval <$> [0; 1; 2; 3; 4; 5; 6])) ++ (EvInterval <$> [0; 1; 2]).

(** Sixty seconds with the two intervals 0 and 1 armed, and sixty seconds
    with interval 1 alone. *)
Definition sixtySecondsOfTwo : list Event :=
  concat (replicate 60 (EvInterval <$> [0; 1])).

Definition sixtySecondsOfOne : list Event :=
  replicate 60 (EvInterval 1).

(** What an observer of the game of a room sees: phase, day, countdown,
    outcome line. *)
Definition phaseViewOf (roomId : string) (s : State) : option (Phase * nat * Z * option string) :=
  match liveGame roomId s with
  | Some (_, _, game) =>
      Some (Game.phase game, Game.day game, Game.timeLeft game, Game.lastAction game)
  | None => None
  end.

Definition phaseView (s : State) : option (Phase * nat * Z * option string) :=
  phaseViewOf "r1" s.

(** A game of six with the protector and the paired roles enabled: P1 is
    the leader, P2 mafia, P3 the protector, P4 and P5 the pair, P6 a
    townsman. *)
Definition tableOfSix : Room.t :=
  Room.mk "r2" "table" Waiting 4 10 "P1" None
          (plainPlayer <$> ["P1"; "P2"; "P3"; "P4"; "P5"; "P6"])
          (mkRoleSettings true true true) [] None 0.

Definition gameOfSix : State :=
  startGame (fun i => i) "r2" "g2" (set_rooms {["r2" := tableOfSix]} emptyState).



(** One submission of an action, as [handleAction] receives it. *)
Record Submission := mkSubmission {
  actor : string;
  verb : string;
  aim : option string;
  time : Z
}.

Definition actionOf (sub : Submission) : Action.t :=
  Action.mk (verb sub) (aim sub) (time sub).

(** The writes of a sequence of accepted submissions to the game object,
    in order. *)
Definition submitAll (subs : list Submission) (game : Game.t) : Game.t :=
  fold_left (fun g sub => recordAction (actor sub) (verb sub) (aim sub) (time sub) g) subs game.

(** The submissions of one actor, in order. *)
Definition submissionsOf (who : string) (subs : list Submission) : list Submission :=
  List.filter (fun sub => bool_decide (actor sub = who)) subs.

(** A day on which three of four players are alive and have all voted: a
    state on which the phase-completion check would resolve the day. *)
Definition completedDay : State :=
  let game :=
    Game.mk "g1" "r1"
            [Player.set_role (Some Don) (plainPlayer "P1");
             Player.set_role (Some Citizen) (plainPlayer "P2");
             Player.set_role (Some Citizen) (plainPlayer "P3");
             Player.set_isAlive false (Player.set_role (Some Citizen) (plainPlayer "P4"))]
            Day 1 100
            [("P1", Action.mk "vote" (Some "P2") 1);
             ("P2", Action.mk "vote" (Some "P1") 2);
             ("P3", Action.mk "vote" (Some "P2") 3)]
            [] (Some "P4 был убит ночью") ["P1"] [] (Some 1) in
  set_store {[0 := game]} gameOfFour.

(** A game of nine with the protector enabled: P1 is the leader, P2 and P3
    mafia, P4 the protector, P5 to P9 townsfolk. *)
Definition tableOfNine : Room.t :=
  Room.mk "r3" "table" Waiting 4 12 "P1" None
          (plainPlayer <$> ["P1"; "P2"; "P3"; "P4"; "P5"; "P6"; "P7"; "P8"; "P9"])
          (mkRoleSettings true true false) [] None 0.

Definition gameOfNine : State :=
  startGame (fun i => i) "r3" "g3" (set_rooms {["r3" := tableOfNine]} emptyState).

(** The test of the first filter of [processNightActions] on one entry. *)
Definition isMafiaKill (game : Game.t) (e : string * Action.t) : bool :=
  bool_decide (Action.action e.2 = "kill")
  && isMafiaRole (playerRole e.1 (Game.players game)).

(** The kill rule in the words of the specification, for comparison: among
    the pending kill actions of mafia-type actors, the one submitted
    earliest (the smallest timestamp, the earlier entry among equals). *)
Definition earliestOf (kills : list (string * Action.t)) : option (string * Action.t) :=
  fold_left (fun best e =>
               match best with
               | None => Some e
               | Some b =>
                   if (Action.timestamp e.2 <? Action.timestamp b.2)%Z then Some e else Some b
               end) kills None.

Definition specKill (game : Game.t) : option (string * Action.t) :=
  earliestOf (mafiaKillsOf game).

(** The first night of the game of nine: the leader submits an action that
    is not a kill, the second mafia submits a kill of P6, the leader
    replaces the own action by a kill of P7, the third mafia submits a kill
    of P8.  With the last submission every living mafia has acted and the
    night is resolved. *)
Definition nineFirstThree : list Event :=
  [EvAction "r3" "P1" "vote" None 1;
   EvAction "r3" "P2" "kill" (Some "P6") 2;
   EvAction "r3" "P1" "kill" (Some "P7") 3].

Definition nineLast : Event := EvAction "r3" "P3" "kill" (Some "P8") 4.

(** The game object as the resolution of that night reads it: after the
    fourth submission is recorded. *)
Definition nineAtResolution : Game.t :=
  recordAction "P3" "kill" (Some "P8") 4
    (default firstNightOfFour (store (run nineFirstThree gameOfNine) !! 0)).

(** A game of four in which one player is called "constructor" (a nickname
    the registration accepts: 11 characters).  Alice is the leader. *)
Definition tableOfInherited : Room.t :=
  Room.mk "r4" "table" Waiting 4 10 "Alice" None
          (plainPlayer <$> ["Alice"; "Bob"; "Carol"; "constructor"])
          (mkRoleSettings true true false) [] None 0.

Definition gameOfInherited : State :=
  startGame (fun i => i) "r4" "g4" (set_rooms {["r4" := tableOfInherited]} emptyState).

(** The first day of that game, after a night without a victim. *)
Definition dayOfInherited : State :=
  run [EvAction "r4" "Alice" "kill" None 1] gameOfInherited.

(** All four living players vote for the same target. *)
Definition allVoteFor (target : string) : list Event :=
  [EvAction "r4" "Alice" "vote" (Some target) 2;
   EvAction "r4" "Bob" "vote" (Some target) 3;
   EvAction "r4" "Carol" "vote" (Some target) 4;
   EvAction "r4" "constructor" "vote" (Some target) 5].

(** The players of the game object 0, with their alive flags. *)
Definition aliveFlags (s : State) : list (string * bool) :=
  match store s !! 0 with
  | Some game => (fun p => (Player.nickname p, Player.isAlive p)) <$> Game.players game
  | None => []
  end.

(** The number a tally value counts for in the search of the maximum. *)
Definition countOf (v : TallyValue) : nat :=
  match v with
  | VNumber n => n
  | VString => 0
  end.

(** The pending entry is a vote that names [t]. *)
Definition votesFor (t : string) (e : string * Action.t) : bool :=
  bool_decide (Action.action e.2 = "vote")
  && truthy (Action.target e.2)
  && bool_decide (Action.target e.2 = Some t).

(** The number of pending votes that name [t]. *)
Definition votesCast (t : string) (actions : list (string * Action.t)) : nat :=
  length (List.filter (votesFor t) (JsMap.entries actions)).

(** The identity "Anna" and her logins from several connections. *)
Definition anna : DbUser.t :=
  DbUser.mk "Anna" "" 100 [] 0 0 0 false.

Definition loginAnna (ws : nat) : ConnEvent :=
  EvLogin ws "Anna" "secret" (DbOk (Some anna)).

(** Anna logs in from connection 1, then from connection 2; the [close]
    event of connection 1 arrives; Anna logs in from connection 3. *)
Definition twoLogins : list ConnEvent := [loginAnna 1; loginAnna 2].

Definition closeOfFirst : ConnEvent := EvClose 1 (DbOk []) 10.

(** The frames sent to one connection. *)
Definition sentTo (ws : nat) (s : State) : list Message :=
  (List.filter (fun e => bool_decide (e.1 = ws)) (sent s)).*2.

(** The frames a loop of [send]s over the connections hands out: one per
    entry that passes the test [f] and whose connection is open. *)
Definition deliveries (f : nat * User.t -> bool) (data : Message)
    (entries : list (nat * User.t)) (closed : gset nat) : list (nat * Message) :=
  (fun e => (e.1, data))
    <$> List.filter (fun e => f e && negb (bool_decide (e.1 ∈ closed))) entries.

(** A lobby: Bob (connection 1) sits alone in the room "lobby", which takes
    two players; Carl (connection 2) is logged in and in no room. *)
Definition bob : User.t := User.mk "Bob" "" 100 [] 0 0 0 false (Some "lobby") true.

Definition carl : User.t := User.mk "Carl" "" 100 [] 0 0 0 false None true.

Definition lobbyRoom : Room.t :=
  Room.mk "lobby" "table" Waiting 2 2 "Bob" None
          [Player.mk "Bob" "" true false None true]
          (mkRoleSettings true true false) [] None 0.

Definition lobbyRow : DbRoom.t :=
  DbRoom.mk "lobby" "table" Waiting 2 "Bob" None 0.

Definition lobby : State :=
  set_users [(1, bob); (2, carl)] (set_rooms {["lobby" := lobbyRoom]} emptyState).

(** * Further definitions

    Parts of the two classes that the results of the second half cover,
    and the example states of their witnesses. *)

(** The game object of [completedDay]. *)
Definition completedDayGame : Game.t :=
  default firstNightOfFour (store completedDay !! 0).

(** A table of two. *)
Definition twoPlayers : list Player.t := plainPlayer <$> ["P1"; "P2"].

(** The game of six after its first night, which ends it (mafia wins). *)
Definition endedGameOfSix : State :=
  run [EvAction "r2" "P1" "kill" None 1; EvAction "r2" "P2" "kill" None 2] gameOfSix.

(** ** What the engine's writes keep of a game object *)

(** A player of a game keeps the nickname and the role, and is not brought
    back to life. *)
Definition playerEvolves (p p' : Player.t) : Prop :=
  Player.nickname p' = Player.nickname p
  /\ Player.role p' = Player.role p
  /\ (Player.isAlive p' = true -> Player.isAlive p = true).

Definition evolves (g g' : Game.t) : Prop :=
  Game.id g' = Game.id g
  /\ Game.roomId g' = Game.roomId g
  /\ Game.mafiaMembers g' = Game.mafiaMembers g
  /\ Forall2 playerEvolves (Game.players g) (Game.players g')
  /\ Game.gameLog g `prefix_of` Game.gameLog g'
  /\ Game.day g <= Game.day g'.

(** Every game object of [s] is still in place in [s'], and related to
    what it was by [R]. *)
Definition storeKeeps (R : Game.t -> Game.t -> Prop) (s s' : State) : Prop :=
  forall ref g, store s !! ref = Some g ->
    exists g', store s' !! ref = Some g' /\ R g g'.

(** The log of a game object is as it was. *)
Definition sameLog (g g' : Game.t) : Prop := Game.gameLog g' = Game.gameLog g.

(** A night and a day of the game of four with a victim each. *)
Definition twoPhasesOfFour : list Event :=
  [EvAction "r1" "P1" "kill" (Some "P2") 1;
   EvAction "r1" "P1" "vote" (Some "P3") 2;
   EvAction "r1" "P3" "vote" (Some "P4") 3;
   EvInterval 0;
   EvAction "r1" "P4" "vote" (Some "P4") 4].

(** ** What an engine call leaves alone *)

(** The game object a room refers to. *)
Definition gameRefOf (roomId : string) (s : State) : option nat :=
  room ← rooms s !! roomId; Room.game room.

(** The two writes of [endGame] to the room. *)
Definition closeRoom (room : Room.t) : Room.t :=
  Room.set_game None (Room.set_status Waiting room).

(** An engine call for [roomId] writes to the game object of that room, to
    the status and game link of that room and to its entry in the engine's
    table, and to nothing else of the rooms, the games and the handler.
    (The flags of a player, which the roster of a room shares with the
    games started on that room, are followed in the game object.) *)
Definition engineFrame (roomId : string) (s s' : State) : Prop :=
  (forall other, other <> roomId ->
     rooms s' !! other = rooms s !! other /\ games s' !! other = games s !! other)
  /\ (forall ref, gameRefOf roomId s <> Some ref -> store s' !! ref = store s !! ref)
  /\ (rooms s' !! roomId = rooms s !! roomId
      \/ rooms s' !! roomId = closeRoom <$> rooms s !! roomId)
  /\ users s' = users s
  /\ usersByNickname s' = usersByNickname s
  /\ closedSockets s' = closedSockets s
  /\ sent s' = sent s
  /\ nextGame s' = nextGame s.

(** Two tables with a game each, and a connection in each. *)
Definition twoTables : State :=
  let s := set_rooms {["r1" := tableOfFour; "r2" := tableOfSix]} emptyState in
  let s := startGame (fun i => i) "r1" "g1" s in
  let s := startGame (fun i => i) "r2" "g2" s in
  set_users [(1, User.mk "P1" "" 0 [] 0 0 0 false (Some "r1") true);
             (2, User.mk "P2" "" 0 [] 0 0 0 false (Some "r2") true)] s.

(** The room of [completedDay]. *)
Definition completedDayRoom : Room.t :=
  default tableOfFour (rooms completedDay !! "r1").

(** A night of the game of nine in which two of the three living mafia
    have acted. *)
Definition nineAfterTwo : State :=
  run [EvAction "r3" "P1" "kill" (Some "P5") 1; EvAction "r3" "P2" "wait" None 2] gameOfNine.

Definition nineAfterTwoGame : Game.t :=
  default firstNightOfFour (store nineAfterTwo !! 0).

Definition nineAfterTwoRoom : Room.t :=
  default tableOfNine (rooms nineAfterTwo !! "r3").

(** ** Example states of the connection handler *)

(** Bob and Carl at one table that Bob created, Dora in no room. *)
Definition carlAtTable : User.t := User.mk "Carl" "" 100 [] 0 0 0 false (Some "lobby") true.

Definition dora : User.t := User.mk "Dora" "" 100 [] 0 0 0 false None true.

Definition tableOfTwo : Room.t :=
  Room.mk "lobby" "table" Waiting 2 4 "Bob" None
          [Player.mk "Bob" "" true false None true;
           Player.mk "Carl" "" false false None true]
          (mkRoleSettings true true false) [] None 0.

Definition twoAtTable : State :=
  set_usersByNickname {["Bob" := 1; "Carl" := 2; "Dora" := 3]}
    (set_users [(1, bob); (2, carlAtTable); (3, dora)]
       (set_rooms {["lobby" := tableOfTwo]} emptyState)).

(** Carl's row in the [users] table. *)
Definition carlRow : DbUser.t := DbUser.mk "Carl" "" 100 [] 0 0 0 false.

(** ** Creating a room and chatting ([createRoom], [handleChatMessage]) *)

(** The [roomData] of a [createRoom] message; a field the client left out
    is [None].  The numbers are integers, as the form of the client sends
    them. *)
Record RoomData := mkRoomData {
  dataName : string;
  dataMinPlayers : option Z;
  dataMaxPlayers : option Z;
  dataPassword : option string;
  dataRoles : option RoleSettings
}.

(** [x || d] for a number that may be missing: 0 is falsy. *)
Definition numberOr (x : option Z) (d : Z) : Z :=
  match x with
  | Some n => if bool_decide (n = 0%Z) then d else n
  | None => d
  end.

(** The room object [createRoom] builds; [roomId] is the value of
    [uuidv4()] and [now] the clock reading. *)
Definition newRoom (roomId : string) (roomData : RoomData) (user : User.t) (now : Z) : Room.t :=
  Room.mk roomId (dataName roomData) Waiting
          (numberOr (dataMinPlayers roomData) 4) (numberOr (dataMaxPlayers roomData) 10)
          (User.nickname user)
          (if truthy (dataPassword roomData) then dataPassword roomData else None)
          [Player.mk (User.nickname user) (User.avatar user) true false None true]
          (default (mkRoleSettings true true false) (dataRoles roomData))
          [] None now.

(** [createRoom(ws, roomData)], given the outcome of [db.createRoom] and
    the answer of the [db.getRooms()] of the final broadcast.  The room is
    put into [this.rooms] before the database is asked; every exception of
    the [try] block ends in the same error message. *)
Definition createRoom (ws : nat) (roomId : string) (roomData : RoomData)
    (created : DbResult unit) (dbRooms : DbResult (list DbRoom.t)) (now : Z)
    (s : State) : State :=
  match JsMap.get ws (users s) with
  | None => sendError ws "Вы не авторизованы" s
  | Some user =>
      if negb (User.isAuthenticated user) then sendError ws "Вы не авторизованы" s
      else if truthy (User.currentRoom user) then sendError ws "Вы уже находитесь в комнате" s
      else
        let room := newRoom roomId roomData user now in
        let s := set_rooms (<[roomId := room]> (rooms s)) s in
        match created with
        | DbFail => sendError ws "Ошибка создания комнаты" s
        | DbOk _ =>
            let s := set_users
                       (JsMap.set ws (User.set_currentRoom (Some roomId) user) (users s)) s in
            let s := send ws (MsgRoomJoined
                                (sanitizeRoomForClient (store s) room
                                   (Some (User.nickname user)))) s in
            match broadcastRoomsList dbRooms s with
            | Some s' => s'
            | None => sendError ws "Ошибка создания комнаты" s
            end
        end
  end.

(** [room.messages.push(message)] *)
Definition pushMessage (message : ChatMessage.t) (room : Room.t) : Room.t :=
  Room.mk (Room.id room) (Room.name room) (Room.status room) (Room.minPlayers room)
          (Room.maxPlayers room) (Room.creator room) (Room.password room)
          (Room.players room) (Room.roles room) (Room.messages room ++ [message])
          (Room.game room) (Room.createdAt room).

(** [handleChatMessage(ws, data)] as [handleMessage] runs it, given the
    outcome of [db.saveMessage].  The function has no [try] of its own: a
    rejection leaves it after the push and is caught in [handleMessage],
    which reports [errorMessage], the message of the exception, to the
    sender. *)
Definition handleChatMessage (ws : nat) (message : string) (saved : DbResult unit)
    (errorMessage : string) (now : Z) (s : State) : State :=
  match JsMap.get ws (users s) with
  | None => sendError ws "Вы не находитесь в комнате" s
  | Some user =>
      match User.currentRoom user with
      | None => sendError ws "Вы не находитесь в комнате" s
      | Some roomId =>
          if negb (truthy (Some roomId)) then sendError ws "Вы не находитесь в комнате" s
          else
            match rooms s !! roomId with
            | None => sendError ws "Комната не найдена" s
            | Some room =>
                let chat := ChatMessage.mk (User.nickname user) message now in
                let s := set_rooms (<[roomId := pushMessage chat room]> (rooms s)) s in
                match saved with
                | DbFail => sendError ws ("Ошибка обработки сообщения: " +:+ errorMessage) s
                | DbOk _ => broadcastToRoom roomId (MsgChatMessage chat) s
                end
            end
      end
  end.

(** Dora's room data: a name and nothing else. *)
Definition doraRoomData : RoomData := mkRoomData "Dora's" None (Some 0%Z) (Some "") None.

(** ** A countdown *)

(** The state after [k] runs of an interval on a game object that had
    [timeLeft] seconds: only the countdown of that object has moved. *)
Definition ticked (ref : nat) (game : Game.t) (timeLeft : Z) (k : nat) (s : State) : State :=
  set_store (<[ref := Game.set_timeLeft (timeLeft - Z.of_nat k) game]> (store s)) s.

(** The game object of the second table of [twoTables]. *)
Definition secondOfTwoTables : Game.t :=
  default firstNightOfFour (store twoTables !! 1).

(** The day of [completedDay] with a database that rejects the third write
    it is handed. *)
Definition rejectingDay : State :=
  set_dbRejects (fun k => Nat.eqb k 2) completedDay.

(** ** Submissions within one phase *)

(** The guards of [handleAction] on the players of a game: the actor is a
    player of the game (the first of that name) and that player is alive. *)
Definition accepts (players : list Player.t) (sub : Submission) : bool :=
  match findPlayer (actor sub) players with
  | Some player => Player.isAlive player
  | None => false
  end.

(** The test of [checkPhaseCompletion] on a game object: at night every
    living mafia-type player has a pending action, by day there are as many
    pending votes as living players. *)
Definition phaseComplete (game : Game.t) : bool :=
  let alivePlayers := alivePlayersOf (Game.players game) in
  match Game.phase game with
  | Night =>
      let aliveMafia := List.filter (fun p => isMafiaRole (Player.role p)) alivePlayers in
      let mafiaActions :=
        List.filter (fun p => JsMap.has (Player.nickname p) (Game.actions game)) aliveMafia in
      bool_decide (length mafiaActions = length aliveMafia)
  | Day =>
      let votes :=
        List.filter (fun a => bool_decide (Action.action a = "vote"))
                    (JsMap.values (Game.actions game)) in
      bool_decide (length votes = length alivePlayers)
  end.

(** The resolution [checkPhaseCompletion] calls for a phase. *)
Definition resolvePhase (phase : Phase) (roomId : string) (s : State) : State :=
  match phase with
  | Night => processNightActions roomId s
  | Day => processDayVoting roomId s
  end.

(** [handleAction] called for one submission, and for a sequence of
    submissions in order. *)
Definition submit (roomId : string) (s : State) (sub : Submission) : State :=
  handleAction roomId (actor sub) (verb sub) (aim sub) (time sub) s.

Definition submitRun (roomId : string) (subs : list Submission) (s : State) : State :=
  fold_left (submit roomId) subs s.

(** A night of the game of nine: the leader votes, a mafia kills, a
    stranger who is not in the game kills, the leader kills; then the third
    mafia kills, which completes the night. *)
Definition nineSubmissions : list Submission :=
  [mkSubmission "P1" "vote" None 1;
   mkSubmission "P2" "kill" (Some "P6") 2;
   mkSubmission "stranger" "kill" (Some "P1") 3;
   mkSubmission "P1" "kill" (Some "P7") 4].

Definition nineFinal : Submission := mkSubmission "P3" "kill" (Some "P8") 5.

Definition nineRoom : Room.t := default tableOfNine (rooms gameOfNine !! "r3").

Definition nineGame : Game.t := default firstNightOfFour (store gameOfNine !! 0).

(** What the accepted submissions of [nineSubmissions] record. *)
Definition ninePending : Game.t :=
  submitAll (List.filter (accepts (Game.players nineGame)) nineSubmissions) nineGame.

(** ** A room that is registered in memory only *)

(** Bob is in the lobby, Carl and Dora are logged in and in no room. *)
Definition lobbyOfThree : State :=
  set_users [(1, bob); (2, carl); (3, dora)] (set_rooms {["lobby" := lobbyRoom]} emptyState).

(** Dora's room data for a room with the secret "pw". *)
Definition secretRoomData : RoomData := mkRoomData "secret" None None (Some "pw") None.

(** Dora's [createRoom] when the database rejects the insert: the room
    stays in [this.rooms], and the table of rooms has no row for it. *)
Definition orphanRoom : State :=
  createRoom 3 "r9" secretRoomData DbFail (DbOk []) 5 lobbyOfThree.

(** * Results *)

(** Closed statements about concrete games are settled by evaluation. *)
Ltac evaluate := vm_compute; repeat split; reflexivity.

(** ** Role distribution *)

Section DistributeFacts.
Variable random_index : nat -> nat.

Lemma insert_Permutation (l : list Role) (i : nat) (a b : Role) :
  l !! i = Some a -> <[i := b]> l ≡ₚ b :: delete i l.
Proof.
  revert i. induction l as [|x l IH]; intros [|i] H; simplify_eq/=; first done.
  rewrite (IH _ H). apply Permutation_swap.
Qed.

Lemma swap_Permutation (roles : list Role) (i j : nat) :
  swap roles i j ≡ₚ roles.
Proof.
  unfold swap.
  destruct (roles !! i) as [ri|] eqn:Hi; last done.
  destruct (roles !! j) as [rj|] eqn:Hj; last done.
  destruct (decide (i = j)) as [->|Hne].
  - simplify_eq. rewrite list_insert_insert_eq. by rewrite list_insert_id.
  - set (l1 := <[i := rj]> roles).
    assert (H1 : l1 !! j = Some rj).
    { unfold l1. rewrite list_lookup_insert_ne; done. }
    assert (H2 : l1 ≡ₚ rj :: delete i roles) by (by eapply insert_Permutation).
    pose proof (delete_Permutation l1 j rj H1) as H3.
    rewrite (insert_Permutation l1 j rj ri H1).
    rewrite (delete_Permutation roles i ri Hi).
    constructor.
    rewrite H3 in H2. by apply (inj (cons rj)) in H2.
Qed.

(** Inside the array the model's swap is the JavaScript exchange: both
    reads succeed. *)
Lemma swap_in_range (roles : list Role) (i j : nat) :
  i < length roles -> j <= i ->
  exists ri rj, roles !! i = Some ri /\ roles !! j = Some rj
                /\ swap roles i j = <[j := ri]> (<[i := rj]> roles).
Proof.
  intros Hi Hj.
  destruct (lookup_lt_is_Some_2 roles i Hi) as [ri Hri].
  destruct (lookup_lt_is_Some_2 roles j ltac:(lia)) as [rj Hrj].
  exists ri, rj. unfold swap. by rewrite Hri, Hrj.
Qed.

Lemma swap_length (roles : list Role) (i j : nat) :
  length (swap roles i j) = length roles.
Proof. by rewrite swap_Permutation. Qed.

Lemma shuffleFrom_Permutation (i : nat) (roles : list Role) :
  shuffleFrom random_index i roles ≡ₚ roles.
Proof.
  revert roles. induction i as [|i IH]; intros roles; simpl; first done.
  rewrite IH. apply swap_Permutation.
Qed.

Lemma distributeRoles_Permutation (players : list Player.t) (roleSettings : RoleSettings) :
  distributeRoles random_index players roleSettings
  ≡ₚ rolesBeforeShuffle (length players) roleSettings.
Proof. apply shuffleFrom_Permutation. Qed.
End DistributeFacts.

Lemma countRole_Permutation (r : Role) (l1 l2 : list Role) :
  l1 ≡ₚ l2 -> countRole r l1 = countRole r l2.
Proof.
  intros H. unfold countRole.
  induction H as [|x l l' _ IH|x y l|l l' l'' _ IH1 _ IH2]; simpl.
  - done.
  - destruct (bool_decide (x = r)); simpl; lia.
  - destruct (bool_decide (x = r)), (bool_decide (y = r)); simpl; lia.
  - lia.
Qed.

Lemma rolesBeforeShuffle_quota (n : nat) (roleSettings : RoleSettings) :
  4 <= n <= 12 -> rolesBeforeShuffle n roleSettings = quotaRoles n roleSettings.
Proof.
  intros Hn.
  assert (Hcases : n = 4 \/ n = 5 \/ n = 6 \/ n = 7 \/ n = 8 \/ n = 9
                   \/ n = 10 \/ n = 11 \/ n = 12) by lia.
  destruct roleSettings as [[] d []];
    repeat (destruct Hcases as [->|Hcases]; [reflexivity|]); subst; reflexivity.
Qed.

(** C2.  For a table of 4 to 12 players, every role configuration and every
    sequence of draws of the shuffle, the roles handed out are as many as
    the players and are, as a multiset, exactly the quota: one leader,
    ordinary mafia until the mafia-type total is the third of the table
    (rounded down), one protector iff enabled and at least 5 players, the
    two paired roles iff enabled and at least 6 players, townsfolk in all
    remaining slots.  The shuffle only permutes the sequence built before
    it. *)
Theorem distributeRoles_quota (random_index : nat -> nat) (players : list Player.t)
    (roleSettings : RoleSettings) :
  (forall i, random_index i <= i) ->
  4 <= length players <= 12 ->
  let n := length players in
  let roles := distributeRoles random_index players roleSettings in
  let nDoctor := if doctor roleSettings && bool_decide (5 <= n) then 1 else 0 in
  let nLover := if lovers roleSettings && bool_decide (6 <= n) then 1 else 0 in
  length roles = n
  /\ roles ≡ₚ quotaRoles n roleSettings
  /\ roles ≡ₚ rolesBeforeShuffle n roleSettings
  /\ countRole Don roles = 1
  /\ countRole Don roles + countRole Mafia roles = n / 3
  /\ countRole Doctor roles = nDoctor
  /\ countRole Lover1 roles = nLover
  /\ countRole Lover2 roles = nLover
  /\ countRole Citizen roles = n - n / 3 - nDoctor - 2 * nLover.
Proof.
  intros _ Hn n roles nDoctor nLover.
  change (4 <= n <= 12) in Hn.
  assert (Hperm : roles ≡ₚ quotaRoles n roleSettings).
  { unfold roles. rewrite distributeRoles_Permutation.
    by rewrite rolesBeforeShuffle_quota. }
  assert (Hperm' : roles ≡ₚ rolesBeforeShuffle n roleSettings).
  { by rewrite rolesBeforeShuffle_quota. }
  split_and!; try done;
    [rewrite Hperm | rewrite !(countRole_Permutation _ _ _ Hperm)..];
    subst nDoctor nLover; clearbody n; clear Hperm Hperm' roles;
    assert (Hcases : n = 4 \/ n = 5 \/ n = 6 \/ n = 7 \/ n = 8 \/ n = 9
                     \/ n = 10 \/ n = 11 \/ n = 12) by lia;
    destruct roleSettings as [[] d []];
    repeat (destruct Hcases as [->|Hcases]; [reflexivity|]); subst; reflexivity.
Qed.

(** Five players, protector on, paired off, every draw 0. *)
Lemma distributeRoles_quota_witness :
  let roles := distributeRoles (fun _ => 0) fivePlayers (mkRoleSettings true true false) in
  length roles = 5
  /\ roles ≡ₚ [Don; Doctor; Citizen; Citizen; Citizen]
  /\ countRole Citizen roles = 3.
Proof.
  pose proof (distributeRoles_quota (fun _ => 0) fivePlayers (mkRoleSettings true true false)
                ltac:(intros i; cbv beta; lia) ltac:(vm_compute; lia)) as H.
  vm_compute in H. destruct H as (H1 & H2 & _ & _ & _ & _ & _ & _ & H9).
  split_and!; [exact H1 | exact H2 | exact H9].
Defined.

(** ** The phase timer *)

Lemma intervals_updateGame (ref : nat) (f : Game.t -> Game.t) (s : State) :
  intervals (updateGame ref f s) = intervals s.
Proof. reflexivity. Qed.

Lemma intervals_startPhaseTimer (roomId : string) (s : State) :
  intervals s `prefix_of` intervals (startPhaseTimer roomId s).
Proof.
  unfold startPhaseTimer. destruct (liveGame roomId s) as [[[room ref] game]|]; last done.
  simpl. by apply prefix_app_r.
Qed.

(** Awaited writes: what is handed over, and whether all are accepted. *)
Lemma dbWrites_eq (calls : list DbCall) (s : State) :
  dbWrites calls s
  = (set_dbCalls (dbCalls s ++ issuedOf (dbRejects s) (length (dbCalls s)) calls) s,
     acceptsFrom (dbRejects s) (length (dbCalls s)) (length calls)).
Proof.
  revert s. induction calls as [|call calls IH]; intros s.
  - simpl. rewrite app_nil_r. by destruct s.
  - cbn [dbWrites dbWrite issuedOf acceptsFrom length].
    destruct (dbRejects s (length (dbCalls s))) eqn:Hr; cbn [negb andb]; first done.
    rewrite IH. cbn [dbCalls set_dbCalls dbRejects]. rewrite length_app. cbn [length].
    replace (length (dbCalls s) + 1) with (S (length (dbCalls s))) by lia.
    by rewrite <- app_assoc.
Qed.

Lemma issuedOf_accepted (rejects : nat -> bool) (k : nat) (calls : list DbCall) :
  acceptsFrom rejects k (length calls) = true -> issuedOf rejects k calls = calls.
Proof.
  revert k. induction calls as [|call calls IH]; intros k; simpl; first done.
  intros [Hk Hrest]%andb_true_iff. apply negb_true_iff in Hk. rewrite Hk.
  by rewrite IH.
Qed.

Lemma issuedOf_prefix (rejects : nat -> bool) (k : nat) (calls : list DbCall) :
  issuedOf rejects k calls `prefix_of` calls.
Proof.
  revert k. induction calls as [|call calls IH]; intros k; simpl; first done.
  apply prefix_cons. destruct (rejects k); [apply prefix_nil | apply IH].
Qed.

Lemma acceptsFrom_app (rejects : nat -> bool) (k n m : nat) :
  acceptsFrom rejects k (n + m)
  = acceptsFrom rejects k n && acceptsFrom rejects (k + n) m.
Proof.
  revert k. induction n as [|n IH]; intros k; simpl.
  - by rewrite Nat.add_0_r.
  - rewrite IH, andb_assoc. by replace (S k + n) with (k + S n) by lia.
Qed.

Lemma length_rewards (winner : Winner) (players : list Player.t) :
  length (concat (rewardCalls winner <$> players)) = 2 * length players.
Proof.
  induction players as [|p players IH]; first done.
  rewrite fmap_cons. cbn [concat]. rewrite length_app, IH. cbn [rewardCalls length]. lia.
Qed.

(** The three ways [endGame] runs on a live game: a reward write is
    rejected; the rewards are written and the end-of-game record is
    rejected; every write is accepted. *)
Lemma endGameRun_cases (roomId : string) (winner : Winner) (s : State) (room : Room.t)
    (ref : nat) (game : Game.t) :
  liveGame roomId s = Some (room, ref, game) ->
  let rewards := concat (rewardCalls winner <$> Game.players game) in
  let record := DbEndGame (Game.id game) winner (Game.gameLog game) in
  let closed :=
    updateRoom roomId (fun room => Room.set_game None (Room.set_status Waiting room))
      (set_dbCalls (dbCalls s ++ rewards ++ [record]) s) in
  endGameRun roomId winner s
  = if negb (dbAcceptsNext (length rewards) s)
    then (set_dbCalls
            (dbCalls s ++ issuedOf (dbRejects s) (length (dbCalls s)) rewards) s, false)
    else if dbRejects s (length (dbCalls s) + length rewards)
    then (closed, false)
    else (updateGame ref (Game.set_lastAction (Some (winnerText winner)))
            (set_games (delete roomId (games s)) closed), true).
Proof.
  intros Hlive rewards record closed. unfold endGameRun. rewrite Hlive. fold rewards.
  rewrite dbWrites_eq. unfold dbAcceptsNext.
  destruct (acceptsFrom (dbRejects s) (length (dbCalls s)) (length rewards)) eqn:Hacc;
    cbn [negb]; last done.
  rewrite (issuedOf_accepted _ _ _ Hacc).
  cbn [dbWrite dbCalls dbRejects set_dbCalls updateRoom set_rooms].
  rewrite length_app.
  destruct (dbRejects s (length (dbCalls s) + length rewards)); cbn [negb];
    unfold closed, updateRoom; cbn; by rewrite <- app_assoc.
Qed.

Lemma endGame_idle (roomId : string) (winner : Winner) (s : State) :
  liveGame roomId s = None -> endGameRun roomId winner s = (s, true).
Proof. intros H. unfold endGameRun. by rewrite H. Qed.

Lemma intervals_endGame (roomId : string) (winner : Winner) (s : State) :
  intervals (endGame roomId winner s) = intervals s.
Proof.
  unfold endGame. destruct (liveGame roomId s) as [[[room ref] game]|] eqn:Hlive.
  - rewrite (endGameRun_cases _ _ _ _ _ _ Hlive).
    destruct (negb _); first done. by destruct (dbRejects s _).
  - by rewrite endGame_idle.
Qed.

Lemma intervals_checkWinConditions (roomId : string) (s : State) :
  intervals (checkWinConditions roomId s).1 = intervals s.
Proof.
  unfold checkWinConditions.
  destruct (liveGame roomId s) as [[[room ref] game]|]; last done.
  destruct (decideWinner (Game.players game)); last done.
  apply intervals_endGame.
Qed.

(** Night resolution clears no interval: every interval that was armed
    before it is armed after it. *)
Lemma intervals_processNightActions (roomId : string) (s : State) :
  intervals s `prefix_of` intervals (processNightActions roomId s).
Proof.
  unfold processNightActions.
  destruct (liveGame roomId s) as [[[room ref] game]|]; last done.
  pose proof (intervals_checkWinConditions roomId (updateGame ref resolveNight s)) as H.
  destruct (checkWinConditions roomId (updateGame ref resolveNight s)) as [s' [returned|]].
  - etrans; last apply intervals_startPhaseTimer. simpl in H. by rewrite H.
  - simpl in H. by rewrite H.
Qed.

(** Day resolution clears no interval either. *)
Lemma intervals_processDayVoting (roomId : string) (s : State) :
  intervals s `prefix_of` intervals (processDayVoting roomId s).
Proof.
  unfold processDayVoting.
  destruct (liveGame roomId s) as [[[room ref] game]|]; last done.
  pose proof (intervals_checkWinConditions roomId (updateGame ref resolveDay s)) as H.
  destruct (checkWinConditions roomId (updateGame ref resolveDay s))
    as [s' [[|]|]]; simpl in H.
  - by rewrite H, ?intervals_updateGame.
  - etrans; last apply intervals_startPhaseTimer.
    by rewrite ?intervals_updateGame, H, ?intervals_updateGame.
  - by rewrite H, ?intervals_updateGame.
Qed.

Lemma intervals_checkPhaseCompletion (roomId : string) (s : State) :
  intervals s `prefix_of` intervals (checkPhaseCompletion roomId s).
Proof.
  unfold checkPhaseCompletion.
  destruct (liveGame roomId s) as [[[room ref] game]|]; last done.
  destruct (Game.phase game); case_bool_decide; try done.
  - apply intervals_processNightActions.
  - apply intervals_processDayVoting.
Qed.

(** A resolution that the players' actions trigger leaves the interval of
    the resolved phase armed: [handleAction] never clears an interval. *)
Lemma intervals_handleAction (roomId playerNickname action : string)
    (target : option string) (now : Z) (s : State) :
  intervals s `prefix_of`
    intervals (handleAction roomId playerNickname action target now s).
Proof.
  unfold handleAction.
  destruct (liveGame roomId s) as [[[room ref] game]|]; last done.
  destruct (findPlayer playerNickname (Game.players game)) as [player|]; last done.
  destruct (Player.isAlive player); simpl; last done.
  etrans; last apply intervals_checkPhaseCompletion.
  by rewrite intervals_updateGame.
Qed.

(** C1.  The interval armed for a phase is not cleared when the phase is
    resolved by its completed actions, and its later expiry is not a no-op.
    In the game of four, interval 3 is armed when day 2 begins; day 2 is
    resolved by the four votes, and interval 3 stays armed.  In night 4 the
    seven armed intervals share the countdown; the 60th run is a run of
    interval 3, which finds the countdown at zero and resolves night 4:
    a phase transition and an outcome line from the countdown of a phase
    that was resolved long before. *)
Theorem stale_interval_resolves_phase :
  let day2 := run (quietNight 1 ++ quietDay 2 ++ quietNight 3) gameOfFour in
  let night3 := run (quietDay 4) day2 in
  let night4 := run (quietNight 5 ++ quietDay 6) night3 in
  let lastSecond := run fiftyNineRuns night4 in
  phaseView gameOfFour = Some (Night, 1, 60%Z, None)
  /\ handle <$> intervals gameOfFour = [0]
  /\ phaseView day2 = Some (Day, 2, 120%Z, Some "Ночь прошла спокойно")
  /\ handle <$> intervals day2 = [0; 1; 2; 3]
  /\ phaseView night3 = Some (Night, 3, 60%Z, Some "Никто не был исключён")
  /\ handle <$> intervals night3 = [0; 1; 2; 3; 4]
  /\ phaseView night4 = Some (Night, 4, 60%Z, Some "Никто не был исключён")
  /\ handle <$> intervals night4 = [0; 1; 2; 3; 4; 5; 6]
  /\ phaseView lastSecond = Some (Night, 4, 1%Z, Some "Никто не был исключён")
  /\ phaseView (intervalCallback 3 lastSecond)
     = Some (Day, 4, 120%Z, Some "Ночь прошла спокойно")
  /\ handle <$> intervals (intervalCallback 3 lastSecond) = [0; 1; 2; 4; 5; 6; 7].
Proof. evaluate. Qed.

(** The same defect after one early resolution.  The interval of night 1
    is still armed when day 1 has begun, and each of its runs takes a
    second off the countdown of the day.  Sixty seconds later, at the
    deadline of the night that was resolved at its start, the countdown of
    the day is used up and the day is resolved: the game is in night 2.
    With interval 1 alone the day would have sixty seconds left. *)
Lemma stale_interval_shares_countdown :
  let day1 := run (quietNight 1) gameOfFour in
  phaseView day1 = Some (Day, 1, 120%Z, Some "Ночь прошла спокойно")
  /\ handle <$> intervals day1 = [0; 1]
  /\ phaseView (intervalCallback 0 day1)
     = Some (Day, 1, 119%Z, Some "Ночь прошла спокойно")
  /\ phaseView (run sixtySecondsOfTwo day1)
     = Some (Night, 2, 60%Z, Some "Никто не был исключён")
  /\ phaseView (run sixtySecondsOfOne day1)
     = Some (Day, 1, 60%Z, Some "Ночь прошла спокойно").
Proof. evaluate. Qed.

(** ** Win evaluation *)

Lemma liveGame_updateGame (roomId : string) (s : State) (f : Game.t -> Game.t)
    (room : Room.t) (ref : nat) (game : Game.t) :
  liveGame roomId s = Some (room, ref, game) ->
  liveGame roomId (updateGame ref f s) = Some (room, ref, f game).
Proof.
  unfold liveGame. intros H. simpl.
  destruct (rooms s !! roomId) as [room'|]; simplify_eq/=.
  destruct (Room.game room') as [ref'|]; simplify_eq/=.
  destruct (store s !! ref') as [game'|] eqn:Hg; simplify_eq/=.
  rewrite lookup_alter_eq, Hg. done.
Qed.

Lemma store_liveGame (roomId : string) (s : State) (room : Room.t) (ref : nat)
    (game : Game.t) :
  liveGame roomId s = Some (room, ref, game) -> store s !! ref = Some game.
Proof.
  unfold liveGame. intros H.
  destruct (rooms s !! roomId) as [room'|]; simplify_eq/=.
  destruct (Room.game room') as [ref'|]; simplify_eq/=.
  destruct (store s !! ref') eqn:Hg; by simplify_eq/=.
Qed.

(** [endGame] detaches the game from the room and reports the winner to
    the database. *)
Lemma endGame_ends (roomId : string) (winner : Winner) (s : State)
    (room : Room.t) (ref : nat) (game : Game.t) :
  liveGame roomId s = Some (room, ref, game) ->
  dbAcceptsNext (2 * length (Game.players game)) s = true ->
  let s' := endGame roomId winner s in
  liveGame roomId s' = None
  /\ rooms s' !! roomId = Some (Room.set_game None (Room.set_status Waiting room))
  /\ last (dbCalls s') = Some (DbEndGame (Game.id game) winner (Game.gameLog game))
  /\ intervals s' = intervals s.
Proof.
  intros H Hacc. unfold endGame. rewrite (endGameRun_cases _ _ _ _ _ _ H).
  rewrite length_rewards, Hacc. cbn [negb].
  assert (Hroom : rooms s !! roomId = Some room).
  { unfold liveGame in H. destruct (rooms s !! roomId) as [room'|]; simplify_eq/=.
    destruct (Room.game room') as [ref'|]; simplify_eq/=.
    destruct (store s !! ref'); by simplify_eq/=. }
  destruct (dbRejects s _); cbn [fst]; unfold liveGame; simpl;
    rewrite lookup_alter_eq, Hroom; simpl; split_and!; try done;
    rewrite (app_assoc (dbCalls s)); apply last_snoc.
Qed.

(** When the database rejects a reward write, [endGame] stops there: the
    game stays attached to the room, and nothing but the list of database
    writes has changed. *)
Lemma endGame_stops (roomId : string) (winner : Winner) (s : State)
    (room : Room.t) (ref : nat) (game : Game.t) :
  liveGame roomId s = Some (room, ref, game) ->
  dbAcceptsNext (2 * length (Game.players game)) s = false ->
  endGameRun roomId winner s
  = (set_dbCalls
       (dbCalls s ++ issuedOf (dbRejects s) (length (dbCalls s))
                       (concat (rewardCalls winner <$> Game.players game))) s, false).
Proof.
  intros H Hacc. rewrite (endGameRun_cases _ _ _ _ _ _ H).
  by rewrite length_rewards, Hacc.
Qed.

Lemma decideWinner_cases (players : list Player.t) :
  let m := length (aliveMafiaOf players) in
  let c := length (aliveCitizensOf players) in
  (decideWinner players = Some WCitizens <-> m = 0)
  /\ (decideWinner players = Some WMafia <-> m <> 0 /\ c <= m)
  /\ (decideWinner players = None <-> m <> 0 /\ m < c).
Proof.
  intros m c. unfold decideWinner. fold m c.
  repeat case_bool_decide; split_and!; split; intros; simplify_eq; try done; lia.
Qed.

(** When [endGame] returns, the game is detached from the room. *)
Lemma endGame_returns_detached (roomId : string) (winner : Winner) (s : State) :
  endGameReturns roomId winner s = true -> liveGame roomId (endGame roomId winner s) = None.
Proof.
  unfold endGameReturns, endGame.
  destruct (liveGame roomId s) as [[[room ref] game]|] eqn:Hlive.
  - rewrite (endGameRun_cases _ _ _ _ _ _ Hlive).
    destruct (negb _); first done. destruct (dbRejects s _); first done.
    intros _. cbn [fst]. unfold liveGame. simpl. rewrite lookup_alter_eq.
    by destruct (rooms s !! roomId).
  - by rewrite endGame_idle.
Qed.

Lemma startPhaseTimer_live (roomId : string) (s : State) (room : Room.t) (ref : nat)
    (game : Game.t) :
  liveGame roomId s = Some (room, ref, game) ->
  liveGame roomId (startPhaseTimer roomId s)
  = Some (room, ref, Game.set_timer (Some (nextHandle s)) game)
  /\ intervals (startPhaseTimer roomId s)
     = intervals s ++ [mkInterval (nextHandle s) ref roomId]
  /\ nextHandle (startPhaseTimer roomId s) = S (nextHandle s)
  /\ rooms (startPhaseTimer roomId s) = rooms s
  /\ dbCalls (startPhaseTimer roomId s) = dbCalls s.
Proof.
  intros H. unfold startPhaseTimer. rewrite H. split_and!; try done.
  assert (H' : liveGame roomId
                 (set_nextHandle (S (nextHandle s))
                    (set_intervals (intervals s ++ [mkInterval (nextHandle s) ref roomId]) s))
               = Some (room, ref, game)) by exact H.
  exact (liveGame_updateGame _ _ _ _ _ _ H').
Qed.

Lemma startPhaseTimer_idle (roomId : string) (s : State) :
  liveGame roomId s = None -> startPhaseTimer roomId s = s.
Proof. intros H. unfold startPhaseTimer. by rewrite H. Qed.

Lemma checkWinConditions_live (roomId : string) (s : State) (room : Room.t) (ref : nat)
    (game : Game.t) :
  liveGame roomId s = Some (room, ref, game) ->
  checkWinConditions roomId s
  = match decideWinner (Game.players game) with
    | Some winner =>
        (endGame roomId winner s,
         if endGameReturns roomId winner s then Some true else None)
    | None => (s, Some false)
    end.
Proof. intros H. unfold checkWinConditions. by rewrite H. Qed.

(** Night resolution on a live game: the game ends with the winner the
    rule decides, or it goes on with a new interval. *)
Lemma processNightActions_outcome (roomId : string) (s : State) (room : Room.t) (ref : nat)
    (game : Game.t) :
  liveGame roomId s = Some (room, ref, game) ->
  processNightActions roomId s
  = match decideWinner (Game.players (resolveNight game)) with
    | Some winner => endGame roomId winner (updateGame ref resolveNight s)
    | None => startPhaseTimer roomId (updateGame ref resolveNight s)
    end.
Proof.
  intros H. unfold processNightActions. rewrite H.
  pose proof (liveGame_updateGame _ _ resolveNight _ _ _ H) as H1.
  rewrite (checkWinConditions_live _ _ _ _ _ H1).
  destruct (decideWinner (Game.players (resolveNight game))) as [winner|]; last done.
  destruct (endGameReturns roomId winner _) eqn:Hret; last done.
  by apply startPhaseTimer_idle, endGame_returns_detached.
Qed.

(** Day resolution on a live game, likewise. *)
Lemma processDayVoting_outcome (roomId : string) (s : State) (room : Room.t) (ref : nat)
    (game : Game.t) :
  liveGame roomId s = Some (room, ref, game) ->
  processDayVoting roomId s
  = match decideWinner (Game.players (resolveDay game)) with
    | Some winner => endGame roomId winner (updateGame ref resolveDay s)
    | None => startPhaseTimer roomId
                (updateGame ref enterNight (updateGame ref resolveDay s))
    end.
Proof.
  intros H. unfold processDayVoting. rewrite H.
  pose proof (liveGame_updateGame _ _ resolveDay _ _ _ H) as H1.
  rewrite (checkWinConditions_live _ _ _ _ _ H1).
  destruct (decideWinner (Game.players (resolveDay game))) as [winner|]; last done.
  by destruct (endGameReturns roomId winner _).
Qed.

Lemma not_record_in_rewards (winner : Winner) (players : list Player.t) (gameId : string)
    (won : Winner) (gameLog : list LogEntry.t) :
  DbEndGame gameId won gameLog ∉ concat (rewardCalls winner <$> players).
Proof.
  induction players as [|p players IH]; first apply not_elem_of_nil.
  rewrite fmap_cons. cbn [concat]. rewrite elem_of_app. intros [Hin | Hin]; last done.
  unfold rewardCalls in Hin.
  apply elem_of_cons in Hin as [Hin | Hin]; first done.
  apply elem_of_cons in Hin as [Hin | Hin]; first done.
  destruct (not_elem_of_nil _ Hin).
Qed.




(** ** The pending-actions map *)

Section JsMapFacts.
Context {K V : Type} `{EqDecision K}.
Implicit Types (m : list (K * V)) (k : K) (v : V).

Lemma get_set_eq m k v : JsMap.get k (JsMap.set k v m) = Some v.
Proof.
  induction m as [|[k' v'] m IH]; simpl.
  - by rewrite decide_True.
  - destruct (decide (k' = k)); simpl.
    + by rewrite decide_True.
    + by rewrite decide_False.
Qed.

Lemma get_set_ne m k k' v : k <> k' -> JsMap.get k' (JsMap.set k v m) = JsMap.get k' m.
Proof.
  intros Hne. induction m as [|[k0 v0] m IH]; simpl.
  - by rewrite decide_False.
  - destruct (decide (k0 = k)) as [->|]; simpl.
    + by rewrite !decide_False.
    + destruct (decide (k0 = k')); done.
Qed.

Lemma get_None m k : JsMap.get k m = None <-> k ∉ JsMap.keys m.
Proof.
  unfold JsMap.keys. induction m as [|[k' v'] m IH]; simpl.
  - split; [intros _; apply not_elem_of_nil | done].
  - rewrite not_elem_of_cons. destruct (decide (k' = k)) as [->|Hne].
    + split; [done | by intros [? _]].
    + rewrite IH. split; [by split | by intros [_ ?]].
Qed.

(** A resubmission keeps the place of the key in the iteration order. *)
Lemma keys_set_present m k v : k ∈ JsMap.keys m -> JsMap.keys (JsMap.set k v m) = JsMap.keys m.
Proof.
  unfold JsMap.keys. induction m as [|[k' v'] m IH]; simpl.
  - by intros ?%elem_of_nil.
  - intros Hin. destruct (decide (k' = k)) as [->|Hne]; simpl; first done.
    f_equal. apply IH. apply elem_of_cons in Hin as [->|Hin]; done.
Qed.

(** A first submission goes to the end of the iteration order. *)
Lemma set_absent m k v : k ∉ JsMap.keys m -> JsMap.set k v m = m ++ [(k, v)].
Proof.
  unfold JsMap.keys. induction m as [|[k' v'] m IH]; simpl; first done.
  intros [? ?]%not_elem_of_cons. rewrite decide_False by done. by rewrite IH.
Qed.

Lemma keys_set m k v :
  JsMap.keys (JsMap.set k v m)
  = if decide (k ∈ JsMap.keys m) then JsMap.keys m else JsMap.keys m ++ [k].
Proof.
  destruct (decide (k ∈ JsMap.keys m)).
  - by apply keys_set_present.
  - rewrite set_absent by done. unfold JsMap.keys. by rewrite fmap_app.
Qed.

Lemma NoDup_keys_set m k v : NoDup (JsMap.keys m) -> NoDup (JsMap.keys (JsMap.set k v m)).
Proof.
  intros H. rewrite keys_set. destruct (decide (k ∈ JsMap.keys m)); first done.
  apply NoDup_app. split_and!; [done| |apply NoDup_singleton].
  intros x Hx ->%list_elem_of_singleton. done.
Qed.

(** With distinct keys, the entries of one key are at most one, the one
    [get] returns. *)
Lemma entries_of_key m k :
  NoDup (JsMap.keys m) ->
  List.filter (fun e => bool_decide (e.1 = k)) (JsMap.entries m)
  = match JsMap.get k m with Some v => [(k, v)] | None => [] end.
Proof.
  unfold JsMap.keys, JsMap.entries. induction m as [|[k' v'] m IH]; simpl; first done.
  intros [Hk Hm]%NoDup_cons. destruct (decide (k' = k)) as [->|Hne].
  - rewrite bool_decide_eq_true_2 by done. f_equal.
    specialize (IH Hm). apply get_None in Hk. by rewrite Hk in IH.
  - rewrite bool_decide_eq_false_2 by done. by apply IH.
Qed.
End JsMapFacts.

Lemma actions_recordAction (playerNickname action : string) (target : option string)
    (now : Z) (game : Game.t) :
  Game.actions (recordAction playerNickname action target now game)
  = JsMap.set playerNickname (Action.mk action target now) (Game.actions game).
Proof. reflexivity. Qed.

Lemma submitAll_pending (who : string) (subs : list Submission) (game : Game.t) :
  NoDup (JsMap.keys (Game.actions game)) ->
  NoDup (JsMap.keys (Game.actions (submitAll subs game)))
  /\ JsMap.get who (Game.actions (submitAll subs game))
     = match last (submissionsOf who subs) with
       | Some sub => Some (actionOf sub)
       | None => JsMap.get who (Game.actions game)
       end.
Proof.
  revert game. induction subs as [|sub subs IH]; intros game Hnd; simpl; first done.
  destruct (IH (recordAction (actor sub) (verb sub) (aim sub) (time sub) game)) as [H1 H2].
  { rewrite actions_recordAction. by apply NoDup_keys_set. }
  split; first done.
  fold (submitAll subs (recordAction (actor sub) (verb sub) (aim sub) (time sub) game)).
  rewrite H2, actions_recordAction. case_bool_decide as Hactor.
  - change (sub :: submissionsOf who subs) with ([sub] ++ submissionsOf who subs).
    destruct (submissionsOf who subs) as [|sub' rest] eqn:Hsubs using rev_ind.
    + simpl. rewrite <- Hactor. apply get_set_eq.
    + by rewrite app_assoc, !last_snoc.
  - rewrite get_set_ne by done. done.
Qed.

(** [handleAction] for an actor who is in the game and alive: the action is
    recorded, then the phase-completion check runs on the recorded state. *)
Lemma handleAction_accepts (roomId playerNickname action : string) (target : option string)
    (now : Z) (s : State) (room : Room.t) (ref : nat) (game : Game.t) (player : Player.t) :
  liveGame roomId s = Some (room, ref, game) ->
  findPlayer playerNickname (Game.players game) = Some player ->
  Player.isAlive player = true ->
  handleAction roomId playerNickname action target now s
  = checkPhaseCompletion roomId
      (updateGame ref (recordAction playerNickname action target now) s)
  /\ liveGame roomId (updateGame ref (recordAction playerNickname action target now) s)
     = Some (room, ref, recordAction playerNickname action target now game).
Proof.
  intros H Hp Ha. split.
  - unfold handleAction. by rewrite H, Hp, Ha.
  - by apply liveGame_updateGame.
Qed.

(** The phase-completion check, by its test on the game object. *)
Lemma checkPhaseCompletion_eq (roomId : string) (s : State) (room : Room.t) (ref : nat)
    (game : Game.t) :
  liveGame roomId s = Some (room, ref, game) ->
  checkPhaseCompletion roomId s
  = if phaseComplete game then resolvePhase (Game.phase game) roomId s else s.
Proof.
  intros H. unfold checkPhaseCompletion, phaseComplete, resolvePhase. rewrite H.
  by destruct (Game.phase game).
Qed.

(** One call of [handleAction]: rejected by the guards, or recorded and
    followed by the completion check. *)
Lemma submit_step (roomId : string) (s : State) (room : Room.t) (ref : nat) (game : Game.t)
    (sub : Submission) :
  liveGame roomId s = Some (room, ref, game) ->
  let recorded := recordAction (actor sub) (verb sub) (aim sub) (time sub) in
  submit roomId s sub
  = if accepts (Game.players game) sub
    then if phaseComplete (recorded game)
         then resolvePhase (Game.phase game) roomId (updateGame ref recorded s)
         else updateGame ref recorded s
    else s.
Proof.
  intros H recorded. unfold submit, accepts.
  destruct (findPlayer (actor sub) (Game.players game)) as [player|] eqn:Hp;
    last (unfold handleAction; by rewrite H, Hp).
  destruct (Player.isAlive player) eqn:Ha;
    last (unfold handleAction; by rewrite H, Hp, Ha).
  destruct (handleAction_accepts roomId (actor sub) (verb sub) (aim sub) (time sub) s
              room ref game player H Hp Ha) as [-> Hlive].
  by rewrite (checkPhaseCompletion_eq _ _ _ _ _ Hlive).
Qed.

Lemma submitAll_fields (subs : list Submission) (game : Game.t) :
  Game.players (submitAll subs game) = Game.players game
  /\ Game.phase (submitAll subs game) = Game.phase game
  /\ Game.day (submitAll subs game) = Game.day game.
Proof.
  revert game. induction subs as [|sub subs IH]; intros game; first done.
  apply (IH (recordAction (actor sub) (verb sub) (aim sub) (time sub) game)).
Qed.

Lemma submitAll_snoc (subs : list Submission) (sub : Submission) (game : Game.t) :
  submitAll (subs ++ [sub]) game
  = recordAction (actor sub) (verb sub) (aim sub) (time sub) (submitAll subs game).
Proof. unfold submitAll. by rewrite fold_left_app. Qed.

Lemma liveGame_insert (roomId : string) (s : State) (room : Room.t) (ref : nat)
    (game game' : Game.t) :
  liveGame roomId s = Some (room, ref, game) ->
  liveGame roomId (set_store (<[ref := game']> (store s)) s) = Some (room, ref, game').
Proof.
  unfold liveGame. intros H. simpl.
  destruct (rooms s !! roomId) as [room'|]; simplify_eq/=.
  destruct (Room.game room') as [ref'|]; simplify_eq/=.
  destruct (store s !! ref') as [game''|]; simplify_eq/=.
  by rewrite lookup_insert_eq.
Qed.

(** A sequence of calls of [handleAction] none of which completes the
    phase: the calls write to the game object only, and what they leave
    there is what the accepted submissions record, in order. *)
Lemma submitRun_pending (roomId : string) (subs : list Submission) (s : State)
    (room : Room.t) (ref : nat) (game : Game.t) :
  liveGame roomId s = Some (room, ref, game) ->
  (forall n sub,
     subs !! n = Some sub -> accepts (Game.players game) sub = true ->
     phaseComplete
       (submitAll (List.filter (accepts (Game.players game)) (take (S n) subs)) game)
     = false) ->
  submitRun roomId subs s
  = set_store
      (<[ref := submitAll (List.filter (accepts (Game.players game)) subs) game]> (store s))
      s.
Proof.
  revert s game. induction subs as [|sub subs IH]; intros s game Hlive Hopen.
  - simpl. rewrite insert_id by exact (store_liveGame _ _ _ _ _ Hlive). by destruct s.
  - change (submitRun roomId (sub :: subs) s)
      with (submitRun roomId subs (submit roomId s sub)).
    rewrite (submit_step _ _ _ _ _ sub Hlive). cbn zeta.
    cbn [List.filter]. destruct (accepts (Game.players game) sub) eqn:Hacc.
    + pose proof (Hopen 0 sub eq_refl Hacc) as Hfirst.
      change (take 1 (sub :: subs)) with [sub] in Hfirst.
      cbn [List.filter] in Hfirst. rewrite Hacc in Hfirst.
      cbn [submitAll fold_left] in Hfirst. rewrite Hfirst.
      set (game1 := recordAction (actor sub) (verb sub) (aim sub) (time sub) game).
      pose proof (liveGame_updateGame _ _ (recordAction (actor sub) (verb sub) (aim sub)
                                             (time sub)) _ _ _ Hlive) as Hlive1.
      fold game1 in Hlive1.
      rewrite (IH _ game1 Hlive1).
      * cbn [store updateGame set_store]. rewrite insert_alter_eq. reflexivity.
      * intros n x Hn Hx. specialize (Hopen (S n) x Hn Hx).
        change (take (S (S n)) (sub :: subs)) with (sub :: take (S n) subs) in Hopen.
        cbn [List.filter] in Hopen. rewrite Hacc in Hopen. exact Hopen.
    + rewrite (IH _ game Hlive); first done.
      intros n x Hn Hx. specialize (Hopen (S n) x Hn Hx).
      change (take (S (S n)) (sub :: subs)) with (sub :: take (S n) subs) in Hopen.
      cbn [List.filter] in Hopen. rewrite Hacc in Hopen. exact Hopen.
Qed.

(** C6.  Within one phase, through [handleAction].  From the start of a
    phase, when the map of pending actions is empty, take any sequence of
    calls of [handleAction] for the room none of which completes the phase.
    A call for an actor who is not a living player of the game leaves no
    trace; the other calls write to the game object only, and leave the
    phase, the day number and the players as they were.  The map of pending
    actions then holds at most one entry per actor, and the entry of an
    actor is the last action that actor submitted: a later submission has
    overwritten the earlier one.  That map is what a resolution reads:
    the resolution that the timer triggers runs on this game object, and
    for a further accepted call that completes the phase, [handleAction]
    records the action in the same way and runs the resolution of the
    phase on the game object with that action recorded. *)
Theorem one_pending_action_per_actor (roomId : string) (s : State) (room : Room.t)
    (ref : nat) (game : Game.t) (subs : list Submission) (who : string) :
  liveGame roomId s = Some (room, ref, game) ->
  Game.actions game = [] ->
  (forall n sub,
     subs !! n = Some sub -> accepts (Game.players game) sub = true ->
     phaseComplete
       (submitAll (List.filter (accepts (Game.players game)) (take (S n) subs)) game)
     = false) ->
  let accepted := List.filter (accepts (Game.players game)) in
  let s' := submitRun roomId subs s in
  exists game',
    s' = set_store (<[ref := game']> (store s)) s
    /\ liveGame roomId s' = Some (room, ref, game')
    /\ Game.players game' = Game.players game
    /\ Game.phase game' = Game.phase game
    /\ Game.day game' = Game.day game
    /\ NoDup (JsMap.keys (Game.actions game'))
    /\ JsMap.get who (Game.actions game')
       = actionOf <$> last (submissionsOf who (accepted subs))
    /\ List.filter (fun e => bool_decide (e.1 = who)) (JsMap.entries (Game.actions game'))
       = match last (submissionsOf who (accepted subs)) with
         | Some sub => [(who, actionOf sub)]
         | None => []
         end
    /\ processNightActions roomId s'
       = match decideWinner (Game.players (resolveNight game')) with
         | Some winner => endGame roomId winner (updateGame ref resolveNight s')
         | None => startPhaseTimer roomId (updateGame ref resolveNight s')
         end
    /\ processDayVoting roomId s'
       = match decideWinner (Game.players (resolveDay game')) with
         | Some winner => endGame roomId winner (updateGame ref resolveDay s')
         | None =>
             startPhaseTimer roomId
               (updateGame ref enterNight (updateGame ref resolveDay s'))
         end
    /\ (forall final,
          accepts (Game.players game) final = true ->
          let recorded :=
            recordAction (actor final) (verb final) (aim final) (time final) in
          phaseComplete (recorded game') = true ->
          submit roomId s' final
          = resolvePhase (Game.phase game) roomId (updateGame ref recorded s')
          /\ liveGame roomId (updateGame ref recorded s')
             = Some (room, ref, recorded game')
          /\ JsMap.get who (Game.actions (recorded game'))
             = actionOf <$> last (submissionsOf who (accepted (subs ++ [final])))).
Proof.
  intros Hlive Hstart Hopen accepted s'.
  set (game' := submitAll (accepted subs) game).
  assert (Hrun : s' = set_store (<[ref := game']> (store s)) s)
    by (by apply (submitRun_pending roomId subs s room)).
  assert (Hlive' : liveGame roomId s' = Some (room, ref, game'))
    by (rewrite Hrun; by apply (liveGame_insert _ _ _ _ game)).
  destruct (submitAll_fields (accepted subs) game) as (Hplayers & Hphase & Hday).
  fold game' in Hplayers, Hphase, Hday.
  assert (Hpending : forall l,
            NoDup (JsMap.keys (Game.actions (submitAll l game)))
            /\ JsMap.get who (Game.actions (submitAll l game))
               = actionOf <$> last (submissionsOf who l)).
  { intros l. destruct (submitAll_pending who l game) as [Hnd Hget].
    { rewrite Hstart. apply NoDup_nil_2. }
    split; first done. rewrite Hget, Hstart. by destruct (last (submissionsOf who l)). }
  destruct (Hpending (accepted subs)) as [Hnd Hget].
  exists game'. split_and!; try done.
  - rewrite entries_of_key by done. fold game' in Hget |- *. rewrite Hget.
    by destruct (last (submissionsOf who (accepted subs))).
  - by apply (processNightActions_outcome _ _ room).
  - by apply (processDayVoting_outcome _ _ room).
  - intros final Hfinal recorded Hcomplete.
    rewrite (submit_step _ _ _ _ _ final Hlive'). cbn zeta. fold recorded.
    rewrite Hplayers, Hfinal, Hcomplete, Hphase. split_and!; first done.
    + by apply liveGame_updateGame.
    + unfold accepted. rewrite List.filter_app. cbn [List.filter]. rewrite Hfinal.
      unfold recorded, game'. rewrite <- submitAll_snoc. apply Hpending.
Qed.

Lemma one_pending_action_per_actor_witness :
  let s' := submitRun "r3" nineSubmissions gameOfNine in
  liveGame "r3" s' = Some (nineRoom, 0, ninePending)
  /\ JsMap.get "P1" (Game.actions ninePending) = Some (Action.mk "kill" (Some "P7") 4)
  /\ JsMap.get "stranger" (Game.actions ninePending) = None
  /\ submit "r3" s' nineFinal
     = processNightActions "r3"
         (updateGame 0 (recordAction "P3" "kill" (Some "P8") 5) s').
Proof.
  assert (Hlive : liveGame "r3" gameOfNine = Some (nineRoom, 0, nineGame))
    by (vm_compute; reflexivity).
  assert (Hopen : forall n sub,
            nineSubmissions !! n = Some sub -> accepts (Game.players nineGame) sub = true ->
            phaseComplete
              (submitAll (List.filter (accepts (Game.players nineGame))
                            (take (S n) nineSubmissions)) nineGame) = false).
  { intros n sub Hn _. destruct n as [|[|[|[|n]]]]; vm_compute; reflexivity. }
  assert (Hvalue : liveGame "r3" (submitRun "r3" nineSubmissions gameOfNine)
                   = Some (nineRoom, 0, ninePending))
    by (vm_compute; reflexivity).
  assert (Hphase : Game.phase nineGame = Night) by (vm_compute; reflexivity).
  assert (Hcomplete : phaseComplete (recordAction "P3" "kill" (Some "P8") 5 ninePending)
                      = true)
    by (vm_compute; reflexivity).
  assert (Hfinal : accepts (Game.players nineGame) nineFinal = true)
    by (vm_compute; reflexivity).
  destruct (one_pending_action_per_actor "r3" gameOfNine nineRoom 0 nineGame
              nineSubmissions "P1" Hlive eq_refl Hopen)
    as (game' & _ & Hlive' & _ & _ & _ & _ & Hleader & _ & _ & _ & Hlast).
  destruct (one_pending_action_per_actor "r3" gameOfNine nineRoom 0 nineGame
              nineSubmissions "stranger" Hlive eq_refl Hopen)
    as (game'' & _ & Hlive'' & _ & _ & _ & _ & Hstranger & _).
  rewrite Hvalue in Hlive', Hlive''.
  assert (Hg' : ninePending = game').
  { exact (f_equal (fun o : option (Room.t * nat * Game.t) =>
                      match o with Some (_, _, g) => g | None => ninePending end) Hlive'). }
  assert (Hg'' : ninePending = game'').
  { exact (f_equal (fun o : option (Room.t * nat * Game.t) =>
                      match o with Some (_, _, g) => g | None => ninePending end) Hlive''). }
  rewrite <- Hg' in *. rewrite <- Hg'' in *. clear Hlive' Hlive''.
  cbv zeta. split; first exact Hvalue.
  split; first (rewrite Hleader; vm_compute; reflexivity).
  split; first (rewrite Hstranger; vm_compute; reflexivity).
  destruct (Hlast nineFinal Hfinal Hcomplete) as (Hsubmit & _).
  rewrite Hphase in Hsubmit. exact Hsubmit.
Defined.

(** ** Rejected actions *)

(** C10.  When the named actor is not among the players of the game, or is
    not alive, [handleAction] returns the state it was given: pending
    actions, log, phase, day counter and the players are untouched, and the
    phase-completion check does not run. *)
Theorem handleAction_rejects (roomId playerNickname action : string) (target : option string)
    (now : Z) (s : State) (room : Room.t) (ref : nat) (game : Game.t) :
  liveGame roomId s = Some (room, ref, game) ->
  (forall player, player ∈ Game.players game -> Player.nickname player <> playerNickname)
  \/ (exists player, findPlayer playerNickname (Game.players game) = Some player
                     /\ Player.isAlive player = false) ->
  handleAction roomId playerNickname action target now s = s.
Proof.
  intros H Hguard. unfold handleAction. rewrite H.
  destruct Hguard as [Habsent|(player & Hp & Hdead)].
  - destruct (findPlayer playerNickname (Game.players game)) as [p|] eqn:Hp; last done.
    apply find_some in Hp as [Hin Heq%bool_decide_eq_true].
    apply list_elem_of_In in Hin. by destruct (Habsent p Hin).
  - by rewrite Hp, Hdead.
Qed.

(** On [completedDay] the check would resolve the day; the action of the
    dead player P4 leaves the state as it is, and so does the action of a
    stranger. *)
Lemma handleAction_rejects_witness :
  checkPhaseCompletion "r1" completedDay <> completedDay
  /\ handleAction "r1" "P4" "vote" (Some "P1") 9 completedDay = completedDay
  /\ handleAction "r1" "Eve" "vote" (Some "P1") 9 completedDay = completedDay.
Proof.
  assert (H : liveGame "r1" completedDay
              = Some (roomOfFour, 0, default firstNightOfFour (store completedDay !! 0)))
    by (vm_compute; reflexivity).
  split_and!.
  - intros Heq. apply (f_equal phaseView) in Heq. vm_compute in Heq. discriminate.
  - apply (handleAction_rejects _ _ _ _ _ _ _ _ _ H). right.
    eexists. split; vm_compute; reflexivity.
  - apply (handleAction_rejects _ _ _ _ _ _ _ _ _ H). left.
    intros player Hin. vm_compute in Hin.
    repeat (apply elem_of_cons in Hin as [->|Hin]; [by vm_compute|]).
    destruct (not_elem_of_nil _ Hin).
Defined.

(** ** Night resolution *)

Lemma filter_first {A : Type} (f : A -> bool) (l : list A) (x : A) (r : list A) :
  List.filter f l = x :: r ->
  exists before after,
    l = before ++ x :: after /\ Forall (fun y => f y = false) before /\ f x = true.
Proof.
  induction l as [|y l IH]; simpl; first done.
  destruct (f y) eqn:Hy.
  - intros [= -> _]. exists [], l. by split_and!.
  - intros (before & after & -> & Hb & Hx)%IH.
    exists (y :: before), after. split_and!; [done | by constructor | done].
Qed.

Lemma findPlayer_nickname (nick : string) (players : list Player.t) (p : Player.t) :
  findPlayer nick players = Some p -> Player.nickname p = nick.
Proof. intros [_ H%bool_decide_eq_true]%find_some. done. Qed.

Lemma findPlayerIndex_findPlayer (nick : string) (players : list Player.t) :
  match findPlayerIndex nick players with
  | Some i => exists p, players !! i = Some p /\ findPlayer nick players = Some p
  | None => findPlayer nick players = None
  end.
Proof.
  unfold findPlayer. induction players as [|p players IH]; simpl; first done.
  destruct (bool_decide (Player.nickname p = nick)); simpl.
  - by exists p.
  - destruct (findPlayerIndex nick players); simpl; done.
Qed.

(** [killPlayer] writes to one player at most: the first one of that name. *)
Lemma killPlayer_one (nick : string) (players : list Player.t) (i : nat) (p : Player.t) :
  players !! i = Some p ->
  killPlayer nick players !! i = Some p
  \/ (findPlayerIndex nick players = Some i
      /\ Player.nickname p = nick
      /\ killPlayer nick players !! i = Some (Player.set_isAlive false p)).
Proof.
  intros Hp. unfold killPlayer.
  pose proof (findPlayerIndex_findPlayer nick players) as H.
  destruct (findPlayerIndex nick players) as [j|]; last by left.
  destruct H as (q & Hq & Hfind). destruct (decide (j = i)) as [->|Hne].
  - right. simplify_eq. split_and!; first done.
    + by eapply findPlayer_nickname.
    + by rewrite list_lookup_alter_eq, Hp.
  - left. by rewrite list_lookup_alter_ne.
Qed.

Lemma nightVictim_healed (game : Game.t) (first : string * Action.t)
    (rest : list (string * Action.t)) (healer : string) (heal : Action.t) :
  mafiaKillsOf game = first :: rest ->
  (healer, heal) ∈ JsMap.entries (Game.actions game) ->
  Action.action heal = "heal" ->
  playerRole healer (Game.players game) = Some Doctor ->
  Action.target heal = Action.target first.2 ->
  nightVictim game = None.
Proof.
  intros Hk Hin Hverb Hrole Htarget. unfold nightVictim. rewrite Hk.
  assert (Hex : existsb (fun e => bool_decide (Action.target e.2 = Action.target first.2))
                        (doctorHealsOf game) = true).
  { apply existsb_exists. exists (healer, heal). split.
    - apply filter_In. split; first by apply list_elem_of_In.
      simpl. by rewrite !bool_decide_eq_true_2.
    - by apply bool_decide_eq_true_2. }
  by rewrite Hex.
Qed.

Lemma nightVictim_not_healed (game : Game.t) (first : string * Action.t)
    (rest : list (string * Action.t)) :
  mafiaKillsOf game = first :: rest ->
  (forall healer heal,
      (healer, heal) ∈ JsMap.entries (Game.actions game) ->
      Action.action heal = "heal" ->
      playerRole healer (Game.players game) = Some Doctor ->
      Action.target heal <> Action.target first.2) ->
  nightVictim game = (t ← Action.target first.2; findPlayer t (Game.players game)).
Proof.
  intros Hk Hno. unfold nightVictim. rewrite Hk.
  destruct (existsb _ (doctorHealsOf game)) eqn:Hex; last done.
  apply existsb_exists in Hex as ([healer heal] & Hin & Ht%bool_decide_eq_true).
  apply filter_In in Hin as [Hin Hf]. simpl in Hf.
  apply andb_true_iff in Hf as [Hv%bool_decide_eq_true Hr%bool_decide_eq_true].
  apply list_elem_of_In in Hin. by destruct (Hno healer heal Hin Hv Hr).
Qed.

(** C5, as the code has it.  When the pending actions hold a kill of a
    mafia-type actor, the kill honoured is the first such entry in the
    iteration order of the map of pending actions, whatever the other
    kills say; that order is the order in which the actors first submitted
    in the phase, since a resubmission replaces the action in place
    ([keys_set]).  If a pending heal of a protector names the same target,
    no player dies and the outcome line is the quiet one; otherwise the
    first player of that name, if any, dies, and nobody else does. *)
Theorem night_kill_is_first_in_map (game : Game.t) (first : string * Action.t)
    (rest : list (string * Action.t)) :
  mafiaKillsOf game = first :: rest ->
  let victim := Action.target first.2 in
  (exists before after,
      JsMap.entries (Game.actions game) = before ++ first :: after
      /\ Forall (fun e => isMafiaKill game e = false) before
      /\ isMafiaKill game first = true)
  /\ ((exists healer heal,
          (healer, heal) ∈ JsMap.entries (Game.actions game)
          /\ Action.action heal = "heal"
          /\ playerRole healer (Game.players game) = Some Doctor
          /\ Action.target heal = victim) ->
      Game.players (resolveNight game) = Game.players game
      /\ Game.lastAction (resolveNight game) = Some "Ночь прошла спокойно")
  /\ ((forall healer heal,
          (healer, heal) ∈ JsMap.entries (Game.actions game) ->
          Action.action heal = "heal" ->
          playerRole healer (Game.players game) = Some Doctor ->
          Action.target heal <> victim) ->
      Game.players (resolveNight game)
      = match victim with
        | Some t => killPlayer t (Game.players game)
        | None => Game.players game
        end)
  /\ (forall (i : nat) (p : Player.t),
        Game.players game !! i = Some p ->
        Game.players (resolveNight game) !! i = Some p
        \/ (Some (Player.nickname p) = victim
            /\ Game.players (resolveNight game) !! i = Some (Player.set_isAlive false p))).
Proof.
  intros Hk victim. split_and!.
  - apply (filter_first _ _ _ _ Hk).
  - intros (healer & heal & Hin & Hverb & Hrole & Htarget).
    unfold resolveNight.
    by rewrite (nightVictim_healed game first rest healer heal Hk Hin Hverb Hrole Htarget).
  - intros Hno. unfold resolveNight.
    rewrite (nightVictim_not_healed game first rest Hk Hno). fold victim.
    destruct victim as [t|]; simpl; last done.
    destruct (findPlayer t (Game.players game)) as [p|] eqn:Hp; simpl.
    + by rewrite (findPlayer_nickname _ _ _ Hp).
    + unfold killPlayer.
      pose proof (findPlayerIndex_findPlayer t (Game.players game)) as H.
      destruct (findPlayerIndex t (Game.players game)); last done.
      destruct H as (q & _ & Hq). congruence.
  - intros i p Hp. unfold resolveNight.
    destruct (nightVictim game) as [q|] eqn:Hq; simpl; last by left.
    assert (Hv : victim = Some (Player.nickname q)).
    { unfold nightVictim in Hq. rewrite Hk in Hq. fold victim in Hq.
      destruct (existsb _ _); first done.
      destruct victim as [t|]; simpl in Hq; last done.
      by rewrite (findPlayer_nickname _ _ _ Hq). }
    destruct (killPlayer_one (Player.nickname q) _ i p Hp) as [H|(_ & Hn & H)].
    + by left.
    + right. by rewrite Hv, Hn.
Qed.

Lemma night_kill_is_first_in_map_witness :
  mafiaKillsOf nineAtResolution
  = [("P1", Action.mk "kill" (Some "P7") 3);
     ("P2", Action.mk "kill" (Some "P6") 2);
     ("P3", Action.mk "kill" (Some "P8") 4)]
  /\ Game.players (resolveNight nineAtResolution)
     = killPlayer "P7" (Game.players nineAtResolution).
Proof.
  assert (Hk : mafiaKillsOf nineAtResolution
               = ("P1", Action.mk "kill" (Some "P7") 3)
                   :: [("P2", Action.mk "kill" (Some "P6") 2);
                       ("P3", Action.mk "kill" (Some "P8") 4)])
    by (vm_compute; reflexivity).
  split; first exact Hk.
  destruct (night_kill_is_first_in_map nineAtResolution _ _ Hk) as (_ & _ & Hkill & _).
  apply Hkill. intros healer heal Hin Hverb _.
  vm_compute in Hin.
  repeat (apply elem_of_cons in Hin as [[= -> ->]|Hin]; [by vm_compute in Hverb|]).
  destruct (not_elem_of_nil _ Hin).
Defined.

(** C5, as the specification words it, fails on the first night of the
    game of nine.  The kill actions were submitted in the order P6 (second
    mafia, time 2), P7 (leader, time 3), P8 (third mafia, time 4); the
    leader had submitted another action before, at time 1, and so holds the
    first place in the map.  The earliest-submitted kill names P6; the code
    honours the kill that is first in the map, the leader's, and P7 dies
    while P6 lives. *)
Lemma night_kill_is_not_the_earliest :
  let after := run (nineFirstThree ++ [nineLast]) gameOfNine in
  JsMap.entries (Game.actions nineAtResolution)
  = [("P1", Action.mk "kill" (Some "P7") 3);
     ("P2", Action.mk "kill" (Some "P6") 2);
     ("P3", Action.mk "kill" (Some "P8") 4)]
  /\ specKill nineAtResolution = Some ("P2", Action.mk "kill" (Some "P6") 2)
  /\ Player.nickname <$> nightVictim nineAtResolution = Some "P7"
  /\ store after !! 0 = Some (Game.set_timer (Some 1) (resolveNight nineAtResolution))
  /\ (Player.isAlive <$> findPlayer "P6" (Game.players (resolveNight nineAtResolution)))
     = Some true
  /\ (Player.isAlive <$> findPlayer "P7" (Game.players (resolveNight nineAtResolution)))
     = Some false
  /\ Game.lastAction (resolveNight nineAtResolution) = Some "P7 был убит ночью"
  /\ (Action.target <$> (snd <$> specKill nineAtResolution))
     <> (Some <$> (Player.nickname <$> nightVictim nineAtResolution)).
Proof. vm_compute. split_and!; try reflexivity. discriminate. Qed.

(** ** Day resolution *)

(** The search of [processDayVoting] returns the first entry, in the
    enumeration order of the tally, whose count is the maximum; entries
    that hold a string never win. *)
Lemma findVotedOut_first_maximum (votes : list (string * TallyValue)) :
  let entries := objectEntries votes in
  let '(maxVotes, votedOut) := findVotedOut votes in
  Forall (fun e => countOf e.2 <= maxVotes) entries
  /\ match votedOut with
     | None => maxVotes = 0
     | Some target =>
         0 < maxVotes
         /\ exists i, entries !! i = Some (target, VNumber maxVotes)
                      /\ Forall (fun e => countOf e.2 < maxVotes) (take i entries)
     end.
Proof.
  intros entries. unfold findVotedOut. fold entries.
  assert (Hgen : forall (es : list (string * TallyValue)) (m0 : nat) (t0 : option string),
             let '(m, t) :=
               fold_left (fun '(maxVotes, votedOut) '(target, voteCount) =>
                            if greaterThan voteCount maxVotes
                            then (match voteCount with VNumber n => n | VString => maxVotes end,
                                  Some target)
                            else (maxVotes, votedOut)) es (m0, t0) in
             Forall (fun e => countOf e.2 <= m) es /\ m0 <= m
             /\ ((m = m0 /\ t = t0)
                 \/ (m0 < m /\ exists i target,
                        t = Some target /\ es !! i = Some (target, VNumber m)
                        /\ Forall (fun e => countOf e.2 < m) (take i es)))).
  { induction es as [|[k v] es IH]; intros m0 t0; simpl.
    - split_and!; [done | done | by left].
    - destruct (greaterThan v m0) eqn:Hgt.
      + destruct v as [n|]; simpl in Hgt; last done.
        apply bool_decide_eq_true in Hgt.
        specialize (IH n (Some k)). destruct (fold_left _ es (n, Some k)) as [m t].
        destruct IH as (Hall & Hle & [[-> ->]|(Hlt & i & target & -> & Hi & Htake)]).
        * split_and!; [constructor; [done|done] | lia |].
          right. split; first done. exists 0, k. by split_and!.
        * split_and!; [constructor; [simpl; lia|done] | lia |].
          right. split; first lia. exists (S i), target.
          split_and!; [done | done |]. simpl. constructor; [simpl; lia | done].
      + assert (Hv : countOf v <= m0).
        { destruct v as [n|]; simpl in *; last lia.
          apply bool_decide_eq_false in Hgt. lia. }
        specialize (IH m0 t0). destruct (fold_left _ es (m0, t0)) as [m t].
        destruct IH as (Hall & Hle & [[-> ->]|(Hlt & i & target & -> & Hi & Htake)]).
        * split_and!; [constructor; [done|done] | lia | by left].
        * split_and!; [constructor; [simpl; lia|done] | lia |].
          right. split; first done. exists (S i), target.
          split_and!; [done | done |]. simpl. constructor; [simpl; lia | done]. }
  specialize (Hgen entries 0 None).
  destruct (fold_left _ entries (0, None)) as [m t].
  destruct Hgen as (Hall & _ & [[-> ->]|(Hlt & i & target & -> & Hi & Htake)]).
  - done.
  - split; first done. split; first done. by exists i.
Qed.

(** For a target that is not the name of an inherited property, the tally
    holds the number of pending votes that name it, and no property when
    there is none. *)
Lemma tallyVotes_counts (actions : list (string * Action.t)) (t : string) :
  t ∉ objectPrototypeKeys ->
  JsMap.get t (tallyVotes actions)
  = match votesCast t actions with
    | 0 => None
    | S n => Some (VNumber (S n))
    end.
Proof.
  intros Hproto. unfold tallyVotes, votesCast, JsMap.entries.
  assert (Hp : t <> "__proto__").
  { intros ->. apply Hproto. apply (bool_decide_unpack _). by vm_compute. }
  assert (Hgen : forall acc,
             (JsMap.get t acc = None \/ exists n, JsMap.get t acc = Some (VNumber (S n))) ->
             JsMap.get t (fold_left tallyStep actions acc)
             = match countOf (default (VNumber 0) (JsMap.get t acc))
                     + length (List.filter (votesFor t) actions) with
               | 0 => None
               | S n => Some (VNumber (S n))
               end).
  { induction actions as [|[who a] actions IH]; intros acc Hacc.
    - simpl. destruct Hacc as [->|[n ->]]; simpl; first done. by rewrite Nat.add_0_r.
    - cbn [fold_left List.filter].
      unfold tallyStep at 2. unfold votesFor at 1. cbn [snd].
      destruct (bool_decide (Action.action a = "vote") && truthy (Action.target a)) eqn:Hv;
        cbn [andb]; last by rewrite IH.
      destruct (Action.target a) as [t'|] eqn:Ht; last by rewrite IH.
      destruct (decide (t' = t)) as [->|Hne].
      + rewrite (bool_decide_eq_true_2 (Some t = Some t)) by done. cbn [length].
        unfold tallyAssign, tallyNext. rewrite (bool_decide_eq_false_2 _ Hp).
        rewrite (bool_decide_eq_false_2 _ Hproto).
        destruct Hacc as [Hacc|[n Hacc]]; rewrite Hacc.
        * rewrite IH; rewrite get_set_eq; [done | right; by exists 0].
        * rewrite IH; rewrite get_set_eq; last (right; exists (S n); f_equal; f_equal; lia).
          cbn [default countOf id].
          by replace (S n + 1 + length (List.filter (votesFor t) actions))
            with (S n + S (length (List.filter (votesFor t) actions))) by lia.
      + rewrite (bool_decide_eq_false_2 (Some t' = Some t)) by congruence.
        cbn [andb]. unfold tallyAssign.
        destruct (bool_decide (t' = "__proto__")); first by rewrite IH.
        rewrite IH; rewrite get_set_ne by done; done. }
  rewrite Hgen; [done | by left].
Qed.

(** Without a pending vote that names a target the tally is empty, nobody
    is eliminated and the outcome line says so. *)
Lemma resolveDay_no_votes (game : Game.t) :
  Forall (fun e => bool_decide (Action.action e.2 = "vote") && truthy (Action.target e.2) = false)
         (JsMap.entries (Game.actions game)) ->
  tallyVotes (Game.actions game) = []
  /\ Game.players (resolveDay game) = Game.players game
  /\ Game.lastAction (resolveDay game) = Some "Никто не был исключён".
Proof.
  intros Hall.
  assert (Htally : tallyVotes (Game.actions game) = []).
  { unfold tallyVotes. generalize (@nil (string * TallyValue)).
    induction Hall as [|e es He _ IH]; intros acc; simpl; first done.
    unfold tallyStep at 2. rewrite He. apply IH. }
  split; first done. unfold resolveDay. rewrite Htally. done.
Qed.

(** C4 on a target that is the name of an inherited property.  In the game
    with the player "constructor", all four living players vote for
    "constructor" on day 1.  The tally reads the inherited function, adds 1
    to it and stores a string; the search for the maximum skips it.
    Nobody is eliminated although the target has four votes of four, and
    the game goes to night 2.  The same four votes for Carol eliminate
    Carol. *)
Theorem day_vote_for_inherited_name_is_lost :
  let after := run (allVoteFor "constructor") dayOfInherited in
  phaseViewOf "r4" dayOfInherited = Some (Day, 1, 120%Z, Some "Ночь прошла спокойно")
  /\ aliveFlags dayOfInherited
     = [("Alice", true); ("Bob", true); ("Carol", true); ("constructor", true)]
  /\ (Game.votingResults <$> store after !! 0) = Some [("constructor", VString)]
  /\ aliveFlags after
     = [("Alice", true); ("Bob", true); ("Carol", true); ("constructor", true)]
  /\ phaseViewOf "r4" after = Some (Night, 2, 60%Z, Some "Никто не был исключён")
  /\ (Game.votingResults <$> store (run (allVoteFor "Carol") dayOfInherited) !! 0)
     = Some [("Carol", VNumber 4)]
  /\ aliveFlags (run (allVoteFor "Carol") dayOfInherited)
     = [("Alice", true); ("Bob", true); ("Carol", false); ("constructor", true)]
  /\ phaseViewOf "r4" (run (allVoteFor "Carol") dayOfInherited)
     = Some (Night, 2, 60%Z, Some "Carol был исключён голосованием").
Proof. evaluate. Qed.

(** ** Login and disconnection *)

Lemma send_open (ws : nat) (data : Message) (s : State) :
  ws ∉ closedSockets s -> sent (send ws data s) = sent s ++ [(ws, data)].
Proof. intros H. unfold send. by rewrite bool_decide_eq_false_2. Qed.

Lemma send_other_fields (ws : nat) (data : Message) (s : State) :
  rooms (send ws data s) = rooms s
  /\ store (send ws data s) = store s
  /\ users (send ws data s) = users s
  /\ usersByNickname (send ws data s) = usersByNickname s
  /\ closedSockets (send ws data s) = closedSockets s
  /\ intervals (send ws data s) = intervals s
  /\ games (send ws data s) = games s
  /\ dbCalls (send ws data s) = dbCalls s.
Proof. unfold send. by case_bool_decide. Qed.

(** A login of an identity that is bound to another connection: the old
    connection is sent the kicked notice if it is open, is closed, and the
    identity is then bound to the new connection. *)
Lemma handleLogin_kicks_prior (ws existingWs : nat) (nickname password : string)
    (user : DbUser.t) (s : State) :
  nickname <> "" -> password <> "" ->
  usersByNickname s !! nickname = Some existingWs ->
  existingWs <> ws ->
  let s' := handleLogin ws nickname password (DbOk (Some user)) s in
  existingWs ∈ closedSockets s'
  /\ usersByNickname s' !! nickname = Some ws
  /\ (exists bound, JsMap.get ws (users s') = Some bound
                    /\ User.nickname bound = DbUser.nickname user
                    /\ User.isAuthenticated bound = true)
  /\ (existingWs ∉ closedSockets s ->
      exists after, sent s' = sent s
                               ++ (existingWs, MsgKicked "Вход с другого устройства") :: after).
Proof.
  intros Hn Hp Hold Hne s'. unfold s', handleLogin.
  rewrite (bool_decide_eq_false_2 _ Hn), (bool_decide_eq_false_2 _ Hp). simpl.
  rewrite Hold. rewrite (bool_decide_eq_false_2 _ Hne). simpl.
  set (kicked := send existingWs (MsgKicked "Вход с другого устройства") s).
  destruct (send_other_fields existingWs (MsgKicked "Вход с другого устройства") s)
    as (_ & _ & Hu & Hbn & Hc & _).
  fold kicked in Hu, Hbn, Hc.
  match goal with |- context [send ws ?m ?st] => set (bound := st); set (msg := m) end.
  destruct (send_other_fields ws msg bound) as (_ & _ & Hu' & Hbn' & Hc' & _).
  rewrite Hu', Hbn', Hc'. unfold bound. simpl. split_and!.
  - rewrite Hc. apply elem_of_union_l. by apply elem_of_singleton.
  - by rewrite lookup_insert_eq.
  - rewrite get_set_eq. eexists. by split_and!.
  - intros Hopen. unfold send at 1. fold bound. case_bool_decide.
    + exists []. simpl. unfold kicked. by rewrite send_open.
    + exists [(ws, msg)]. simpl. unfold kicked. rewrite send_open by done.
      by rewrite <- app_assoc.
Qed.

(** C7 fails when the [close] event of the kicked connection arrives after
    the new binding was installed.  Anna logs in from connection 1, then
    from connection 2: connection 1 is sent the kicked notice and closed,
    and 2 is the only open connection that holds her identity.  The
    [close] event of connection 1 then runs [handleDisconnect], which
    deletes the entry of "Anna" from [usersByNickname] although that entry
    names connection 2.  When Anna logs in from connection 3, no earlier
    connection is found: connection 2 gets no notice, stays open, and 2 and
    3 both hold the identity. *)
Theorem relogin_after_close_event_leaves_two_connections :
  let s2 := connRun twoLogins emptyState in
  let s3 := connStep s2 closeOfFirst in
  let s4 := connStep s3 (loginAnna 3) in
  sentTo 1 s2 = [MsgLoginSuccess anna; MsgKicked "Вход с другого устройства"]
  /\ closedSockets s2 = {[1]}
  /\ usersByNickname s2 !! "Anna" = Some 2
  /\ liveConnectionsOf "Anna" s2 = [2]
  /\ JsMap.keys (users s3) = [2]
  /\ usersByNickname s3 !! "Anna" = None
  /\ liveConnectionsOf "Anna" s3 = [2]
  /\ sentTo 2 s4 = [MsgLoginSuccess anna]
  /\ closedSockets s4 = {[1]}
  /\ usersByNickname s4 !! "Anna" = Some 3
  /\ liveConnectionsOf "Anna" s4 = [2; 3].
Proof. evaluate. Qed.

(** ** Room snapshots *)

(** C9.  In the snapshot that [sanitizeRoomForClient] builds for a viewer,
    the players are those of the room, in order, and the role of a player
    is present only if the viewer is that player or the status of the room
    is finished; for every other viewer, and for the snapshot built without
    a viewer, the role is [null], whatever else the room and the game
    hold. *)
Theorem snapshot_role_visibility (objects : gmap nat Game.t) (room : Room.t)
    (userNickname : option string) (i : nat) (view : PlayerView.t) :
  Snapshot.players (sanitizeRoomForClient objects room userNickname) !! i = Some view ->
  exists player,
    Room.players room !! i = Some player
    /\ PlayerView.nickname view = Player.nickname player
    /\ (PlayerView.role view <> None ->
        userNickname = Some (Player.nickname player) \/ Room.status room = Finished)
    /\ (userNickname <> Some (Player.nickname player) -> Room.status room <> Finished ->
        PlayerView.role view = None)
    /\ (userNickname = Some (Player.nickname player) \/ Room.status room = Finished ->
        PlayerView.role view = Player.role player).
Proof.
  simpl. rewrite list_lookup_fmap.
  destruct (Room.players room !! i) as [player|]; simpl; last done.
  intros [= <-]. exists player. simpl. split_and!; try done.
  - repeat case_bool_decide; simpl; naive_solver.
  - intros H1 H2. rewrite !bool_decide_eq_false_2; [done | done | congruence].
  - intros [-> | ->].
    + by rewrite bool_decide_eq_true_2.
    + rewrite (bool_decide_eq_true_2 (Finished = Finished)) by done.
      by rewrite orb_true_r.
Qed.

(** The room of [gameOfFour] while the game is on: P1 sees the own role
    and nobody else's; the snapshot without a viewer shows no role. *)
Lemma snapshot_role_visibility_witness :
  PlayerView.role <$> Snapshot.players (sanitizeRoomForClient (store gameOfFour) roomOfFour (Some "P1"))
  = [Some Don; None; None; None]
  /\ PlayerView.role <$> Snapshot.players (sanitizeRoomForClient (store gameOfFour) roomOfFour None)
     = [None; None; None; None]
  /\ exists view,
       Snapshot.players (sanitizeRoomForClient (store gameOfFour) roomOfFour (Some "P1")) !! 1
       = Some view
       /\ PlayerView.role view = None.
Proof.
  split_and!; [vm_compute; reflexivity | vm_compute; reflexivity |].
  eexists. split; first (vm_compute; reflexivity).
  destruct (snapshot_role_visibility (store gameOfFour) roomOfFour (Some "P1") 1
              (PlayerView.mk "P2" "" false false true None) ltac:(vm_compute; reflexivity))
    as (player & Hp & _ & _ & Hhidden & _).
  vm_compute in Hp. injection Hp as <-.
  apply Hhidden; vm_compute; discriminate.
Defined.

(** ** Joining a room *)

Lemma set_sent_sent (s : State) : set_sent (sent s) s = s.
Proof. by destruct s. Qed.

Lemma set_sent_set_sent (x y : list (nat * Message)) (s : State) :
  set_sent y (set_sent x s) = set_sent y s.
Proof. reflexivity. Qed.

Lemma send_eq (ws : nat) (data : Message) (s : State) :
  send ws data s
  = set_sent (sent s ++ if bool_decide (ws ∈ closedSockets s) then [] else [(ws, data)]) s.
Proof.
  unfold send. case_bool_decide; last done.
  by rewrite app_nil_r, set_sent_sent.
Qed.

(** A loop of [send]s changes [sent] only, by the frames it hands out. *)
Lemma send_loop (f : nat * User.t -> bool) (data : Message)
    (entries : list (nat * User.t)) (s : State) :
  fold_left (fun s e => if f e then send e.1 data s else s) entries s
  = set_sent (sent s ++ deliveries f data entries (closedSockets s)) s.
Proof.
  unfold deliveries. revert s. induction entries as [|e entries IH]; intros s; simpl.
  - by rewrite app_nil_r, set_sent_sent.
  - destruct (f e); simpl.
    + rewrite IH, send_eq. simpl. case_bool_decide; simpl.
      * by rewrite app_nil_r.
      * by rewrite <- app_assoc.
    + by rewrite IH.
Qed.

Lemma broadcastToRoom_eq (roomId : string) (message : Message) (s : State) :
  is_Some (rooms s !! roomId) ->
  broadcastToRoom roomId message s
  = set_sent (sent s
                ++ deliveries (fun e => bool_decide (User.currentRoom e.2 = Some roomId))
                     message (JsMap.entries (users s)) (closedSockets s)) s.
Proof.
  intros [room Hroom]. unfold broadcastToRoom. rewrite Hroom. apply send_loop.
Qed.

Lemma broadcastRoomsList_eq (rows : list DbRoom.t) (s : State) :
  broadcastRoomsList (DbOk rows) s
  = Some (set_sent
            (sent s
               ++ deliveries (fun e => User.isAuthenticated e.2
                                       && negb (truthy (User.currentRoom e.2)))
                    (MsgRooms (roomsListOf rows s)) (JsMap.entries (users s))
                    (closedSockets s)) s).
Proof. unfold broadcastRoomsList. f_equal. apply send_loop. Qed.

Lemma elem_of_set_other {K V : Type} `{EqDecision K} (m : list (K * V)) (k k' : K) (v v' : V) :
  (k', v') ∈ m -> k' <> k -> (k', v') ∈ JsMap.set k v m.
Proof.
  intros Hin Hne. induction m as [|[k0 v0] m IH]; simpl.
  - by apply elem_of_nil in Hin.
  - apply elem_of_cons in Hin as [[= <- <-]|Hin].
    + rewrite decide_False by done. apply elem_of_cons. by left.
    + destruct (decide (k0 = k)); apply elem_of_cons; right; [done | by apply IH].
Qed.

Lemma elem_of_set_same {K V : Type} `{EqDecision K} (m : list (K * V)) (k : K) (v : V) :
  (k, v) ∈ JsMap.set k v m.
Proof.
  induction m as [|[k0 v0] m IH]; simpl.
  - apply elem_of_cons. by left.
  - destruct (decide (k0 = k)); apply elem_of_cons; [by left | by right].
Qed.

Lemma elem_of_deliveries (f : nat * User.t -> bool) (data : Message)
    (entries : list (nat * User.t)) (closed : gset nat) (ws : nat) (user : User.t) :
  (ws, user) ∈ entries -> f (ws, user) = true -> ws ∉ closed ->
  (ws, data) ∈ deliveries f data entries closed.
Proof.
  intros Hin Hf Hopen. unfold deliveries.
  apply (list_elem_of_fmap_2 (fun e : nat * User.t => (e.1, data)) _ (ws, user)).
  apply list_elem_of_In, filter_In. split; first by apply list_elem_of_In.
  rewrite Hf. simpl. by rewrite bool_decide_eq_false_2.
Qed.

(** [joinRoom] either reports an error on the state it was given, or every
    one of its checks has passed. *)
Lemma joinRoom_cases (ws : nat) (roomId : string) (password : option string)
    (dbRoom : DbResult (option DbRoom.t)) (dbRooms : DbResult (list DbRoom.t))
    (now : Z) (s : State) :
  (exists message, joinRoom ws roomId password dbRoom dbRooms now s = sendError ws message s)
  \/ (exists user room row,
        JsMap.get ws (users s) = Some user
        /\ User.isAuthenticated user = true
        /\ truthy (User.currentRoom user) = false
        /\ rooms s !! roomId = Some room
        /\ dbRoom = DbOk row
        /\ wrongPassword row password = false
        /\ (Z.of_nat (length (Room.players room)) < Room.maxPlayers room)%Z
        /\ Room.status room = Waiting).
Proof.
  unfold joinRoom.
  destruct (JsMap.get ws (users s)) as [user|]; last by (left; eexists).
  destruct (User.isAuthenticated user) eqn:Hauth; simpl; last by (left; eexists).
  destruct (truthy (User.currentRoom user)) eqn:Hin; first by (left; eexists).
  destruct (rooms s !! roomId) as [room|]; last by (left; eexists).
  destruct dbRoom as [row|]; last by (left; eexists).
  destruct (wrongPassword row password) eqn:Hpw; first by (left; eexists).
  case_bool_decide as Hfull; first by (left; eexists).
  case_bool_decide as Hstatus; simpl; last by (left; eexists).
  right. exists user, room, row. split_and!; try done. lia.
Qed.

(** A refusal: the error frame goes to the connection if it is open, and
    nothing else changes. *)
Lemma sendError_refuses (ws : nat) (message : string) (s : State) :
  let s' := sendError ws message s in
  sent s' = sent s ++ (if bool_decide (ws ∈ closedSockets s) then []
                       else [(ws, MsgError message)])
  /\ rooms s' = rooms s
  /\ users s' = users s
  /\ usersByNickname s' = usersByNickname s
  /\ store s' = store s
  /\ dbCalls s' = dbCalls s.
Proof. intros s'. unfold s', sendError. rewrite send_eq. by split_and!. Qed.

(** C8, as the code has it.  [joinRoom] refuses with an error frame to the
    caller, and leaves the rooms, the rosters, the user records and the
    bindings of the connections as they were, when the room does not
    exist, when the row of the room in the database holds a secret that
    differs from the supplied one, when the roster has reached the maximum
    of the room, and when the status of the room is not waiting.  For an
    authenticated caller who is in no room the error is, in this order of
    precedence: room not found, wrong secret, room full, game in progress.
    The secret that is compared is the one of the database row, not the one
    the room object holds: without a row no secret is asked for.  When
    every check passes, the new player is appended to the roster, the
    connection is bound to the room, the joiner is sent the room, and every
    open connection that was in the room is sent the roster update and the
    system chat line. *)
Theorem joinRoom_contract (ws : nat) (roomId : string) (password : option string)
    (dbRoom : DbResult (option DbRoom.t)) (dbRooms : DbResult (list DbRoom.t))
    (now : Z) (s : State) :
  let s' := joinRoom ws roomId password dbRoom dbRooms now s in
  let refused (message : string) :=
    sent s' = sent s ++ (if bool_decide (ws ∈ closedSockets s) then []
                         else [(ws, MsgError message)])
    /\ rooms s' = rooms s
    /\ users s' = users s
    /\ usersByNickname s' = usersByNickname s
    /\ store s' = store s
    /\ dbCalls s' = dbCalls s in
  ((rooms s !! roomId = None
    \/ (exists row, dbRoom = DbOk (Some row)
                    /\ truthy (DbRoom.password row) = true
                    /\ DbRoom.password row <> password)
    \/ (exists room, rooms s !! roomId = Some room
                     /\ (Room.maxPlayers room <= Z.of_nat (length (Room.players room)))%Z)
    \/ (exists room, rooms s !! roomId = Some room /\ Room.status room <> Waiting)) ->
   exists message, refused message)
  /\ (forall (user : User.t),
        JsMap.get ws (users s) = Some user ->
        User.isAuthenticated user = true ->
        truthy (User.currentRoom user) = false ->
        (rooms s !! roomId = None -> refused "Комната не найдена")
        /\ (forall room row,
              rooms s !! roomId = Some room ->
              dbRoom = DbOk (Some row) ->
              truthy (DbRoom.password row) = true ->
              DbRoom.password row <> password ->
              refused "Неверный пароль")
        /\ (forall room row,
              rooms s !! roomId = Some room ->
              dbRoom = DbOk row ->
              wrongPassword row password = false ->
              (Room.maxPlayers room <= Z.of_nat (length (Room.players room)))%Z ->
              refused "Комната заполнена")
        /\ (forall room row,
              rooms s !! roomId = Some room ->
              dbRoom = DbOk row ->
              wrongPassword row password = false ->
              (Z.of_nat (length (Room.players room)) < Room.maxPlayers room)%Z ->
              Room.status room <> Waiting ->
              refused "Игра уже началась"))
  /\ (forall (user : User.t) (room : Room.t) (row : option DbRoom.t),
        JsMap.get ws (users s) = Some user ->
        User.isAuthenticated user = true ->
        truthy (User.currentRoom user) = false ->
        rooms s !! roomId = Some room ->
        dbRoom = DbOk row ->
        wrongPassword row password = false ->
        (Z.of_nat (length (Room.players room)) < Room.maxPlayers room)%Z ->
        Room.status room = Waiting ->
        let joined := Room.set_players (Room.players room ++ [newPlayer user]) room in
        rooms s' = <[roomId := joined]> (rooms s)
        /\ users s' = JsMap.set ws (User.set_currentRoom (Some roomId) user) (users s)
        /\ (ws ∉ closedSockets s ->
            (ws, MsgRoomJoined (sanitizeRoomForClient (store s) joined
                                  (Some (User.nickname user)))) ∈ sent s')
        /\ (forall (member : nat) (u : User.t),
              (member, u) ∈ JsMap.entries (users s) ->
              User.currentRoom u = Some roomId ->
              member ∉ closedSockets s ->
              (member, MsgRoomUpdated (sanitizeRoomForClient (store s) joined None)) ∈ sent s'
              /\ (member,
                  MsgChatMessage
                    (ChatMessage.mk "Система"
                       (User.nickname user +:+ " присоединился к комнате") now)) ∈ sent s')).
Proof.
  intros s' refused.
  assert (Hrefuse : forall message, s' = sendError ws message s -> refused message).
  { intros message ->. apply sendError_refuses. }
  split_and!.
  - intros Hfail.
    assert (Herr : exists message, s' = sendError ws message s).
    { destruct (joinRoom_cases ws roomId password dbRoom dbRooms now s)
        as [Herr|(user & room & row & _ & _ & _ & Hroom & Hdb & Hpw & Hfull & Hstatus)];
        first done.
      exfalso. destruct Hfail as [Hnone|[(row' & Hrow & Hset & Hdiff)|[(room' & Hroom' & Hmax)|(room' & Hroom' & Hst)]]].
      - congruence.
      - rewrite Hdb in Hrow. injection Hrow as ->. unfold wrongPassword in Hpw.
        rewrite Hset in Hpw. simpl in Hpw. by rewrite bool_decide_eq_false_2 in Hpw.
      - rewrite Hroom in Hroom'. injection Hroom' as ->. lia.
      - rewrite Hroom in Hroom'. injection Hroom' as ->. done. }
    destruct Herr as [message Herr]. exists message. by apply Hrefuse.
  - intros user Huser Hauth Hfree. split_and!.
    + intros Hnone. apply Hrefuse. unfold s', joinRoom.
      by rewrite Huser, Hauth, Hfree, Hnone.
    + intros room row Hroom -> Hset Hdiff. apply Hrefuse. unfold s', joinRoom.
      rewrite Huser, Hauth, Hfree, Hroom. unfold wrongPassword. rewrite Hset.
      by rewrite (bool_decide_eq_false_2 _ Hdiff).
    + intros room row Hroom -> Hpw Hfull. apply Hrefuse. unfold s', joinRoom.
      rewrite Huser, Hauth, Hfree, Hroom, Hpw.
      by rewrite (bool_decide_eq_true_2 _ Hfull).
    + intros room row Hroom -> Hpw Hfull Hstatus. apply Hrefuse. unfold s', joinRoom.
      rewrite Huser, Hauth, Hfree, Hroom, Hpw.
      rewrite (bool_decide_eq_false_2 (Room.maxPlayers room <= _)%Z) by lia.
      by rewrite (bool_decide_eq_false_2 _ Hstatus).
  - intros user room row Huser Hauth Hfree Hroom -> Hpw Hfull Hstatus joined.
    unfold s', joinRoom. rewrite Huser, Hauth, Hfree, Hroom, Hpw. cbn [negb].
    rewrite (bool_decide_eq_false_2 (Room.maxPlayers room <= _)%Z) by lia.
    rewrite (bool_decide_eq_true_2 _ Hstatus). cbn [negb]. fold joined.
    set (s1 := set_users _ (set_rooms _ s)).
    assert (Hrooms1 : is_Some (rooms s1 !! roomId)).
    { unfold s1. simpl. rewrite lookup_insert_eq. by eexists. }
    rewrite send_eq.
    rewrite (broadcastToRoom_eq roomId (MsgRoomUpdated _)) by exact Hrooms1.
    rewrite (broadcastToRoom_eq roomId (MsgChatMessage _)) by exact Hrooms1.
    assert (Hmembers : forall (member : nat) (u : User.t),
               (member, u) ∈ JsMap.entries (users s) ->
               User.currentRoom u = Some roomId ->
               member ∉ closedSockets s ->
               exists u', (member, u') ∈ JsMap.entries (users s1)
                          /\ User.currentRoom u' = Some roomId).
    { intros member u Hin Hcur _. destruct (decide (member = ws)) as [->|Hne].
      - eexists. split; first apply elem_of_set_same. done.
      - exists u. split; last done. by apply elem_of_set_other. }
    match goal with
    | |- context [broadcastRoomsList dbRooms ?st] => set (s4 := st)
    end.
    assert (Hfinal : exists more,
               match broadcastRoomsList dbRooms s4 with
               | Some s' => s'
               | None => sendError ws "Ошибка присоединения к комнате" s4
               end = set_sent (sent s4 ++ more) s4).
    { destruct dbRooms as [rows|].
      - rewrite broadcastRoomsList_eq. eexists. reflexivity.
      - simpl. unfold sendError. rewrite send_eq. eexists. reflexivity. }
    destruct Hfinal as [more Hfinal]. rewrite Hfinal. clear Hfinal.
    unfold s4. cbn [sent set_sent users closedSockets store rooms].
    set (updates := deliveries _ (MsgRoomUpdated _) _ _).
    set (lines := deliveries _ (MsgChatMessage _) _ _).
    split_and!.
    + done.
    + done.
    + intros Hopen. unfold s1. cbn [closedSockets set_users set_rooms store].
      rewrite bool_decide_eq_false_2 by done.
      rewrite !elem_of_app. left. left. left. right. apply elem_of_cons. by left.
    + intros member u Hin Hcur Hopen.
      destruct (Hmembers member u Hin Hcur Hopen) as (u' & Hin' & Hcur').
      split.
      * rewrite !elem_of_app. left. left. right. unfold updates.
        apply (elem_of_deliveries _ _ _ _ member u'); [done| |done].
        by apply bool_decide_eq_true_2.
      * rewrite !elem_of_app. left. right. unfold lines.
        apply (elem_of_deliveries _ _ _ _ member u'); [done| |done].
        by apply bool_decide_eq_true_2.
Qed.

(** In the lobby, Carl's request for a room that does not exist is refused
    with the error frame and changes nothing else; his request for "lobby"
    puts him on the roster after Bob, and Bob is sent the roster update and
    the chat line. *)
Lemma joinRoom_contract_witness :
  sent (joinRoom 2 "nowhere" None (DbOk None) (DbOk []) 5 lobby)
  = [(2, MsgError "Комната не найдена")]
  /\ rooms (joinRoom 2 "nowhere" None (DbOk None) (DbOk []) 5 lobby) = rooms lobby
  /\ users (joinRoom 2 "nowhere" None (DbOk None) (DbOk []) 5 lobby) = users lobby
  /\ (let s' := joinRoom 2 "lobby" None (DbOk (Some lobbyRow)) (DbOk [lobbyRow]) 5 lobby in
      let joined := Room.set_players (Room.players lobbyRoom ++ [newPlayer carl]) lobbyRoom in
      rooms s' = <["lobby" := joined]> (rooms lobby)
      /\ (1, MsgRoomUpdated (sanitizeRoomForClient (store lobby) joined None)) ∈ sent s'
      /\ (1, MsgChatMessage (ChatMessage.mk "Система" "Carl присоединился к комнате" 5))
         ∈ sent s').
Proof.
  destruct (joinRoom_contract 2 "nowhere" None (DbOk None) (DbOk []) 5 lobby)
    as (_ & Hfail & _).
  destruct (Hfail carl eq_refl eq_refl eq_refl) as (Hnone & _).
  destruct (Hnone eq_refl) as (Hsent & Hrooms & Husers & _).
  split; first exact Hsent. split; first exact Hrooms. split; first exact Husers.
  destruct (joinRoom_contract 2 "lobby" None (DbOk (Some lobbyRow)) (DbOk [lobbyRow]) 5 lobby)
    as (_ & _ & Hok).
  destruct (Hok carl lobbyRoom (Some lobbyRow) eq_refl eq_refl eq_refl eq_refl eq_refl eq_refl
              ltac:(simpl; lia) eq_refl) as (Hr & _ & _ & Hmembers).
  intros s' joined. split; first exact Hr.
  apply (Hmembers 1 bob).
  - apply elem_of_cons. by left.
  - reflexivity.
  - apply not_elem_of_empty.
Defined.

(** C8, as the specification words it, fails on a room that is registered
    in memory only.  Dora creates a room with the secret "pw" and the
    database rejects the insert: the room stays registered, and it holds
    the secret.  Carl then joins it without a secret, and with a wrong
    one: the database has no row for the room, the comparison is skipped,
    and he is on the roster. *)
Lemma joinRoom_ignores_room_secret :
  let joinedWithout := joinRoom 2 "r9" None (DbOk None) (DbOk []) 6 orphanRoom in
  let joinedWithWrong := joinRoom 2 "r9" (Some "guess") (DbOk None) (DbOk []) 6 orphanRoom in
  Room.password <$> rooms orphanRoom !! "r9" = Some (Some "pw")
  /\ (fun room => Player.nickname <$> Room.players room) <$> rooms orphanRoom !! "r9"
     = Some ["Dora"]
  /\ (fun room => Player.nickname <$> Room.players room) <$> rooms joinedWithout !! "r9"
     = Some ["Dora"; "Carl"]
  /\ User.currentRoom <$> JsMap.get 2 (users joinedWithout) = Some (Some "r9")
  /\ (fun room => Player.nickname <$> Room.players room) <$> rooms joinedWithWrong !! "r9"
     = Some ["Dora"; "Carl"]
  /\ Forall (fun frame => forall message, frame <> (2, MsgError message))
            (sent joinedWithWrong).
Proof.
  vm_compute. split_and!; try reflexivity.
  repeat constructor; discriminate.
Qed.

(** * Further results on the engine *)

(** ** The day vote on ordinary names *)

Lemma elem_of_insertByIndex (i : N) (e : string * TallyValue)
    (sorted : list (N * (string * TallyValue))) (x : N * (string * TallyValue)) :
  x ∈ insertByIndex i e sorted <-> x = (i, e) \/ x ∈ sorted.
Proof.
  induction sorted as [|[j e'] sorted IH]; simpl.
  - rewrite list_elem_of_singleton. split; [by left | intros [?|H]; [done | by apply elem_of_nil in H]].
  - destruct (i <? j)%N.
    + by rewrite elem_of_cons.
    + rewrite !elem_of_cons, IH. tauto.
Qed.

Lemma elem_of_indexEntries (own : list (string * TallyValue)) (i : N) (e : string * TallyValue) :
  (i, e) ∈ indexEntries own <-> e ∈ own /\ arrayIndex e.1 = Some i.
Proof.
  unfold indexEntries.
  assert (Hgen : forall acc,
             (i, e) ∈ fold_left (fun acc e =>
                                   match arrayIndex e.1 with
                                   | Some i => insertByIndex i e acc
                                   | None => acc
                                   end) own acc
             <-> (i, e) ∈ acc \/ (e ∈ own /\ arrayIndex e.1 = Some i)).
  { induction own as [|e0 own IH]; intros acc; simpl.
    - split; [by left | intros [?|[H _]]; [done | by apply elem_of_nil in H]].
    - rewrite IH, elem_of_cons. destruct (arrayIndex e0.1) as [i0|] eqn:H0.
      + rewrite elem_of_insertByIndex. split.
        * intros [[[= -> ->]|?]|[? ?]]; [right; split; [by left | done] | by left | right; split; [by right | done]].
        * intros [?|[[->|?] ?]]; [left; by right | left; left; congruence | right; by split].
      + split.
        * intros [?|[? ?]]; [by left | right; split; [by right | done]].
        * intros [?|[[->|?] ?]]; [by left | congruence | right; by split]. }
  rewrite Hgen. split; [intros [H|?]; [by apply elem_of_nil in H | done] | by right].
Qed.

(** [Object.entries] lists exactly the own properties. *)
Lemma elem_of_objectEntries (own : list (string * TallyValue)) (e : string * TallyValue) :
  e ∈ objectEntries own <-> e ∈ own.
Proof.
  unfold objectEntries. rewrite elem_of_app. split.
  - intros [H|H].
    + apply list_elem_of_fmap in H as ([i e'] & -> & H). simpl.
      by apply elem_of_indexEntries in H as [? _].
    + apply list_elem_of_In, filter_In in H as [H _]. by apply list_elem_of_In.
  - intros H. destruct (arrayIndex e.1) as [i|] eqn:Hi.
    + left. apply list_elem_of_fmap. exists (i, e). split; first done.
      by apply elem_of_indexEntries.
    + right. apply list_elem_of_In, filter_In. split; first by apply list_elem_of_In.
      by rewrite Hi.
Qed.

Lemma get_elem_of {K V : Type} `{EqDecision K} (m : list (K * V)) (k : K) (v : V) :
  JsMap.get k m = Some v -> (k, v) ∈ m.
Proof.
  induction m as [|[k' v'] m IH]; simpl; first done.
  destruct (decide (k' = k)) as [->|].
  - intros [= ->]. apply elem_of_cons. by left.
  - intros H. apply elem_of_cons. right. by apply IH.
Qed.

Lemma elem_of_get {K V : Type} `{EqDecision K} (m : list (K * V)) (k : K) (v : V) :
  NoDup (JsMap.keys m) -> (k, v) ∈ m -> JsMap.get k m = Some v.
Proof.
  unfold JsMap.keys. induction m as [|[k' v'] m IH]; simpl.
  - by intros _ ?%elem_of_nil.
  - intros [Hk Hm]%NoDup_cons [[= <- <-]|Hin]%elem_of_cons.
    + by rewrite decide_True.
    + destruct (decide (k' = k)) as [->|]; last by apply IH.
      destruct Hk. apply list_elem_of_fmap. by exists (k, v).
Qed.

Lemma votesFor_inv (t : string) (e : string * Action.t) :
  votesFor t e = true ->
  Action.action e.2 = "vote" /\ Action.target e.2 = Some t /\ t <> "".
Proof.
  unfold votesFor. intros H.
  apply andb_true_iff in H as [H Ht%bool_decide_eq_true].
  apply andb_true_iff in H as [Hv%bool_decide_eq_true Htr].
  split_and!; [done | done |]. rewrite Ht in Htr. simpl in Htr.
  intros ->. done.
Qed.

(** The tally has one property per name, and only names that a pending
    vote gives. *)
Lemma tallyVotes_keys (actions : list (string * Action.t)) :
  NoDup (JsMap.keys (tallyVotes actions))
  /\ forall k, k ∈ JsMap.keys (tallyVotes actions) ->
               exists e, e ∈ JsMap.entries actions /\ votesFor k e = true.
Proof.
  unfold tallyVotes, JsMap.entries.
  assert (Hgen : forall acc,
             NoDup (JsMap.keys acc) ->
             NoDup (JsMap.keys (fold_left tallyStep actions acc))
             /\ forall k, k ∈ JsMap.keys (fold_left tallyStep actions acc) ->
                          k ∈ JsMap.keys acc
                          \/ exists e, e ∈ actions /\ votesFor k e = true).
  { induction actions as [|e actions IH]; intros acc Hnd; simpl.
    - split; [done | by left].
    - assert (Hstep : NoDup (JsMap.keys (tallyStep acc e))
                      /\ forall k, k ∈ JsMap.keys (tallyStep acc e) ->
                                   k ∈ JsMap.keys acc \/ votesFor k e = true).
      { unfold tallyStep, votesFor. cbn zeta.
        destruct (bool_decide (Action.action e.2 = "vote") && truthy (Action.target e.2));
          last (split; [done | by left]).
        destruct (Action.target e.2) as [t|]; last (split; [done | by left]).
        unfold tallyAssign. case_bool_decide; first (split; [done | by left]).
        split; first by apply NoDup_keys_set.
        intros k. rewrite keys_set. case_decide; first by left.
        intros [?| ->%list_elem_of_singleton]%elem_of_app; first by left.
        right. simpl. by rewrite bool_decide_eq_true_2. }
      destruct Hstep as [Hnd' Hkeys]. destruct (IH _ Hnd') as [H1 H2].
      split; first done. intros k Hk.
      destruct (H2 k Hk) as [Hin|(e' & He' & Hv)].
      + destruct (Hkeys k Hin) as [?|Hv]; first by left.
        right. exists e. split; [apply elem_of_cons; by left | done].
      + right. exists e'. split; [apply elem_of_cons; by right | done]. }
  destruct (Hgen [] (NoDup_nil_2)) as [H1 H2]. split; first done.
  intros k Hk. destruct (H2 k Hk) as [Hin|?]; last done.
  by apply elem_of_nil in Hin.
Qed.

Lemma votesCast_positive (t : string) (actions : list (string * Action.t)) :
  0 < votesCast t actions ->
  exists e, e ∈ JsMap.entries actions /\ votesFor t e = true.
Proof.
  unfold votesCast. intros H.
  destruct (List.filter (votesFor t) (JsMap.entries actions)) as [|e l] eqn:Hf;
    first (simpl in H; lia).
  assert (Hin : In e (List.filter (votesFor t) (JsMap.entries actions)))
    by (rewrite Hf; by left).
  apply filter_In in Hin as [Hin Hv]. exists e. split; [by apply list_elem_of_In | done].
Qed.

(** X1.  When no pending vote names a property that objects inherit, the
    day vote eliminates a most-voted target: the name chosen has at least
    one vote and no name has more, the number kept as the maximum is its
    number of votes, every name enumerated before it has fewer votes, and
    the player of that name (if any) is the one who dies.  When no vote
    names a target, nobody dies. *)
Theorem day_vote_elects_maximum (game : Game.t) :
  (forall voter a t,
      (voter, a) ∈ JsMap.entries (Game.actions game) ->
      Action.action a = "vote" -> Action.target a = Some t ->
      t ∉ objectPrototypeKeys) ->
  let actions := Game.actions game in
  let tally := tallyVotes actions in
  match (findVotedOut tally).2 with
  | Some target =>
      0 < votesCast target actions
      /\ (forall t, votesCast t actions <= votesCast target actions)
      /\ (findVotedOut tally).1 = votesCast target actions
      /\ (exists i, objectEntries tally !! i = Some (target, VNumber (votesCast target actions))
                    /\ forall j t v, j < i -> objectEntries tally !! j = Some (t, v) ->
                                     votesCast t actions < votesCast target actions)
      /\ Game.players (resolveDay game) = killPlayer target (Game.players game)
  | None =>
      (forall t, votesCast t actions = 0)
      /\ Game.players (resolveDay game) = Game.players game
  end.
Proof.
  intros Hplain actions tally.
  destruct (tallyVotes_keys actions) as [Hnd Hkeys]. fold tally in Hnd, Hkeys.
  assert (Hentry : forall t v, (t, v) ∈ objectEntries tally ->
                               v = VNumber (votesCast t actions) /\ 0 < votesCast t actions).
  { intros t v Hin. apply (proj1 (elem_of_objectEntries _ _)) in Hin.
    pose proof (elem_of_get _ _ _ Hnd Hin) as Hget.
    destruct (Hkeys t) as ([voter a] & He & Hv).
    { apply list_elem_of_fmap. by exists (t, v). }
    apply votesFor_inv in Hv as (Hverb & Htarget & _).
    pose proof (tallyVotes_counts actions t (Hplain voter a t He Hverb Htarget)) as Hc.
    fold tally in Hc. rewrite Hget in Hc.
    destruct (votesCast t actions); simplify_eq. split; [done | lia]. }
  assert (Hbound : forall m, Forall (fun e => countOf e.2 <= m) (objectEntries tally) ->
                             forall t, votesCast t actions <= m).
  { intros m Hall t. destruct (votesCast t actions) as [|n] eqn:Hn; first lia.
    destruct (votesCast_positive t actions ltac:(lia)) as ([voter a] & He & Hv).
    apply votesFor_inv in Hv as (Hverb & Htarget & _).
    pose proof (tallyVotes_counts actions t (Hplain voter a t He Hverb Htarget)) as Hc.
    fold tally in Hc. rewrite Hn in Hc.
    apply get_elem_of in Hc. apply (proj2 (elem_of_objectEntries _ _)) in Hc.
    rewrite Forall_forall in Hall. apply (Hall _ Hc). }
  pose proof (findVotedOut_first_maximum tally) as Hmax. cbn zeta in Hmax.
  unfold resolveDay. fold actions tally.
  destruct (findVotedOut tally) as [maxVotes votedOut]. simpl.
  destruct Hmax as [Hall Hmax]. destruct votedOut as [target|].
  - destruct Hmax as (Hpos & i & Hi & Htake).
    destruct (Hentry target (VNumber maxVotes)) as [Heq Hcast].
    { by eapply list_elem_of_lookup_2. }
    injection Heq as ->.
    assert (Htruthy : truthy (Some target) = true).
    { destruct (votesCast_positive target actions Hcast) as (e & _ & Hv).
      apply votesFor_inv in Hv as (_ & _ & Hne). simpl.
      by rewrite bool_decide_eq_false_2. }
    split_and!; [done | by apply Hbound | done | |].
    + exists i. split; first done. intros j t v Hj Hjt.
      assert (Hin : (t, v) ∈ take i (objectEntries tally))
        by (eapply list_elem_of_lookup_2; by rewrite lookup_take_lt).
      rewrite Forall_forall in Htake. pose proof (Htake _ Hin) as Hlt. simpl in Hlt.
      destruct (Hentry t v) as [-> _]; last done.
      eapply list_elem_of_lookup_2. exact Hjt.
    + rewrite Htruthy, bool_decide_eq_true_2 by done. simpl.
      pose proof (findPlayerIndex_findPlayer target (Game.players game)) as Hfind.
      unfold killPlayer.
      destruct (findPlayerIndex target (Game.players game)) as [k|].
      * destruct Hfind as (p & _ & ->). done.
      * by rewrite Hfind.
  - subst maxVotes. split; last done.
    intros t. pose proof (Hbound 0 Hall t). lia.
Qed.

Lemma day_vote_elects_maximum_witness :
  votesCast "P2" (Game.actions completedDayGame) = 2
  /\ votesCast "P1" (Game.actions completedDayGame) <= 2
  /\ Game.players (resolveDay completedDayGame)
     = killPlayer "P2" (Game.players completedDayGame).
Proof.
  assert (Hplain : forall voter a t,
             (voter, a) ∈ JsMap.entries (Game.actions completedDayGame) ->
             Action.action a = "vote" -> Action.target a = Some t ->
             t ∉ objectPrototypeKeys).
  { intros voter a t Hin _ Ht. vm_compute in Hin.
    repeat (apply elem_of_cons in Hin as [[= -> ->]|Hin];
            [injection Ht as <-; apply (bool_decide_unpack _); by vm_compute|]).
    destruct (not_elem_of_nil _ Hin). }
  pose proof (day_vote_elects_maximum completedDayGame Hplain) as H.
  cbn zeta in H.
  assert (Hout : (findVotedOut (tallyVotes (Game.actions completedDayGame))).2 = Some "P2")
    by (vm_compute; reflexivity).
  rewrite Hout in H. destruct H as (_ & Hle & Hmax & _ & Hkill).
  split_and!; [vm_compute; reflexivity | apply Hle | exact Hkill].
Defined.

(** ** Role distribution on tables of any size *)

Lemma countRole_app (r : Role) (l1 l2 : list Role) :
  countRole r (l1 ++ l2) = countRole r l1 + countRole r l2.
Proof. unfold countRole. by rewrite List.filter_app, length_app. Qed.

Lemma countRole_replicate (r x : Role) (k : nat) :
  countRole r (replicate k x) = if bool_decide (x = r) then k else 0.
Proof.
  unfold countRole. induction k as [|k IH]; simpl.
  - by destruct (bool_decide (x = r)).
  - destruct (bool_decide (x = r)); simpl in *; by rewrite IH.
Qed.

Lemma rolesBeforeShuffle_counts (n : nat) (roleSettings : RoleSettings) :
  1 <= n ->
  let roles := rolesBeforeShuffle n roleSettings in
  let nDoctor := if doctor roleSettings && bool_decide (5 <= n) then 1 else 0 in
  let nLover := if lovers roleSettings && bool_decide (6 <= n) then 1 else 0 in
  length roles = n
  /\ countRole Don roles = 1
  /\ countRole Mafia roles = n / 3 - 1
  /\ countRole Doctor roles = nDoctor
  /\ countRole Lover1 roles = nLover
  /\ countRole Lover2 roles = nLover
  /\ countRole Citizen roles = n - (1 + (n / 3 - 1) + nDoctor + 2 * nLover).
Proof.
  intros Hn. unfold rolesBeforeShuffle.
  assert (Hdiv : 3 * (n / 3) <= n) by (apply Nat.Div0.mul_div_le).
  set (q := n / 3) in *. clearbody q.
  destruct (doctor roleSettings), (lovers roleSettings); cbn [andb];
    repeat case_bool_decide; cbn zeta;
    rewrite ?countRole_app, ?countRole_replicate, ?length_app, ?length_replicate;
    rewrite ?countRole_app, ?countRole_replicate, ?length_app, ?length_replicate;
    unfold countRole; simpl; split_and!; lia.
Qed.

(** X2.  The quota holds on a table of any size from one player on: as
    many roles as players, one leader, mafia up to a third of the table
    (none below six players), the protector from five players and the pair
    from six when enabled, townsfolk in the remaining slots.  For an empty
    table the result is still one role, the leader. *)
Theorem distributeRoles_any_table (random_index : nat -> nat) (players : list Player.t)
    (roleSettings : RoleSettings) :
  let n := length players in
  let roles := distributeRoles random_index players roleSettings in
  let nDoctor := if doctor roleSettings && bool_decide (5 <= n) then 1 else 0 in
  let nLover := if lovers roleSettings && bool_decide (6 <= n) then 1 else 0 in
  (n = 0 -> roles = [Don])
  /\ (1 <= n ->
      length roles = n
      /\ countRole Don roles = 1
      /\ countRole Mafia roles = n / 3 - 1
      /\ countRole Doctor roles = nDoctor
      /\ countRole Lover1 roles = nLover
      /\ countRole Lover2 roles = nLover
      /\ countRole Citizen roles = n - (1 + (n / 3 - 1) + nDoctor + 2 * nLover)).
Proof.
  intros n roles nDoctor nLover. split.
  - intros Hn. unfold roles, distributeRoles. fold n. rewrite Hn.
    by destruct roleSettings as [[] ? []].
  - intros Hn.
    pose proof (distributeRoles_Permutation random_index players roleSettings) as Hperm.
    fold n roles in Hperm.
    destruct (rolesBeforeShuffle_counts n roleSettings Hn) as (H1 & H2 & H3 & H4 & H5 & H6 & H7).
    rewrite !(countRole_Permutation _ _ _ Hperm), Hperm. by split_and!.
Qed.

Lemma distributeRoles_any_table_witness :
  length (distributeRoles (fun _ => 0) twoPlayers (mkRoleSettings true true true)) = 2
  /\ countRole Don (distributeRoles (fun _ => 0) twoPlayers (mkRoleSettings true true true)) = 1
  /\ countRole Citizen (distributeRoles (fun _ => 0) twoPlayers (mkRoleSettings true true true)) = 1.
Proof.
  destruct (distributeRoles_any_table (fun _ => 0) twoPlayers (mkRoleSettings true true true))
    as [_ H].
  destruct (H ltac:(vm_compute; lia)) as (H1 & H2 & _ & _ & _ & _ & H7).
  split_and!; [exact H1 | exact H2 | exact H7].
Defined.

(** ** What a resolution leaves behind *)

Lemma players_resolveDay_enterNight (game : Game.t) :
  Game.players (enterNight game) = Game.players game.
Proof. reflexivity. Qed.

Lemma length_killPlayer (nick : string) (players : list Player.t) :
  length (killPlayer nick players) = length players.
Proof.
  unfold killPlayer. destruct (findPlayerIndex nick players); last done.
  apply length_alter.
Qed.

Lemma length_players_resolveNight (game : Game.t) :
  length (Game.players (resolveNight game)) = length (Game.players game).
Proof.
  unfold resolveNight. destruct (nightVictim game); simpl; last done.
  apply length_killPlayer.
Qed.

Lemma length_players_resolveDay (game : Game.t) :
  length (Game.players (resolveDay game)) = length (Game.players game).
Proof.
  unfold resolveDay. destruct (findVotedOut _) as [m vo].
  destruct (truthy vo && bool_decide (0 < m)); last done.
  destruct vo as [t|]; last done.
  destruct (findPlayer t (Game.players game)); simpl; last done.
  apply length_killPlayer.
Qed.

(** X3.  A night resolution on a running game has three outcomes.  When the
    win rule decides a winner on the players the night left and the
    database accepts the two reward writes of every player, the game is
    detached from the room, the room is waiting again and the database is
    told the winner.  When the rule decides a winner and the database
    rejects one of these writes, [endGame] throws at that write: the game
    stays attached in the day the resolution set (120 seconds, no pending
    action) with the timer handle it had, no interval is armed and no
    end-of-game record is written.  When no winner is decided the game
    goes on as the day of the same day number with 120 seconds, no pending
    action, a newly armed interval, the log untouched, at least one living
    mafia-type player and strictly more living town-type players. *)
Theorem night_resolution_outcome (roomId : string) (s : State) (room : Room.t) (ref : nat)
    (game : Game.t) :
  liveGame roomId s = Some (room, ref, game) ->
  let s' := processNightActions roomId s in
  match decideWinner (Game.players (resolveNight game)) with
  | Some winner =>
      if dbAcceptsNext (2 * length (Game.players game)) s
      then
        liveGame roomId s' = None
        /\ Room.status <$> rooms s' !! roomId = Some Waiting
        /\ Room.game <$> rooms s' !! roomId = Some None
        /\ last (dbCalls s') = Some (DbEndGame (Game.id game) winner (Game.gameLog game))
        /\ intervals s' = intervals s
      else
        exists room',
          liveGame roomId s' = Some (room', ref, resolveNight game)
          /\ Room.status room' = Room.status room
          /\ Game.phase (resolveNight game) = Day
          /\ Game.timeLeft (resolveNight game) = 120%Z
          /\ Game.actions (resolveNight game) = []
          /\ Game.timer (resolveNight game) = Game.timer game
          /\ intervals s' = intervals s
          /\ dbCalls s `prefix_of` dbCalls s'
          /\ (forall gameId won gameLog,
                DbEndGame gameId won gameLog ∉ drop (length (dbCalls s)) (dbCalls s'))
  | None =>
      exists room' game',
        liveGame roomId s' = Some (room', ref, game')
        /\ Room.status room' = Room.status room
        /\ Game.phase game' = Day
        /\ Game.day game' = Game.day game
        /\ Game.timeLeft game' = 120%Z
        /\ Game.actions game' = []
        /\ Game.gameLog game' = Game.gameLog game
        /\ Game.timer game' = Some (nextHandle s)
        /\ intervals s' = intervals s ++ [mkInterval (nextHandle s) ref roomId]
        /\ dbCalls s' = dbCalls s
        /\ 1 <= length (aliveMafiaOf (Game.players game'))
           < length (aliveCitizensOf (Game.players game'))
  end.
Proof.
  intros H s'. unfold s'. rewrite (processNightActions_outcome _ _ _ _ _ H).
  pose proof (liveGame_updateGame _ _ resolveNight _ _ _ H) as H1.
  assert (Hfields : Game.id (resolveNight game) = Game.id game
                    /\ Game.gameLog (resolveNight game) = Game.gameLog game
                    /\ Game.day (resolveNight game) = Game.day game
                    /\ Game.timer (resolveNight game) = Game.timer game).
  { unfold resolveNight. by destruct (nightVictim game). }
  destruct Hfields as (Hid & Hlog & Hday & Htimer).
  destruct (decideWinner (Game.players (resolveNight game))) as [winner|] eqn:Hw.
  - destruct (dbAcceptsNext (2 * length (Game.players game)) s) eqn:Hacc.
    + assert (Hacc1 : dbAcceptsNext (2 * length (Game.players (resolveNight game)))
                        (updateGame ref resolveNight s) = true)
        by (by rewrite length_players_resolveNight).
      destruct (endGame_ends roomId winner _ _ _ _ H1 Hacc1) as (Hgone & Hroom & Hdb & Hiv).
      rewrite Hid, Hlog in Hdb. rewrite Hroom. split_and!; try done.
    + assert (Hacc1 : dbAcceptsNext (2 * length (Game.players (resolveNight game)))
                        (updateGame ref resolveNight s) = false)
        by (by rewrite length_players_resolveNight).
      unfold endGame. rewrite (endGame_stops _ _ _ _ _ _ H1 Hacc1). cbn [fst].
      exists room. split_and!; try done.
      * by apply prefix_app_r.
      * intros gameId won gameLog. cbn [dbCalls set_dbCalls updateGame set_store].
        rewrite drop_app_length. intros Hin.
        apply (not_record_in_rewards winner (Game.players (resolveNight game))
                 gameId won gameLog).
        exact (elem_of_prefix _ _ _ Hin (issuedOf_prefix _ _ _)).
  - destruct (startPhaseTimer_live _ _ _ _ _ H1) as (Hlive & Hiv & _ & _ & Hdb).
    eexists _, _. split; first exact Hlive. split_and!; try done.
    + cbn [Game.players Game.set_timer].
      destruct (decideWinner_cases (Game.players (resolveNight game))) as (_ & _ & Hnone).
      apply Hnone in Hw. lia.
    + cbn [Game.players Game.set_timer].
      destruct (decideWinner_cases (Game.players (resolveNight game))) as (_ & _ & Hnone).
      apply Hnone in Hw. lia.
Qed.

Lemma night_resolution_outcome_witness :
  exists room' game',
    liveGame "r1" (processNightActions "r1" gameOfFour) = Some (room', 0, game')
    /\ Game.phase game' = Day
    /\ Game.day game' = 1
    /\ Game.timeLeft game' = 120%Z.
Proof.
  assert (H : liveGame "r1" gameOfFour = Some (roomOfFour, 0, firstNightOfFour))
    by (vm_compute; reflexivity).
  pose proof (night_resolution_outcome "r1" gameOfFour _ _ _ H) as Hout.
  cbn zeta in Hout.
  assert (Hw : decideWinner (Game.players (resolveNight firstNightOfFour)) = None)
    by (vm_compute; reflexivity).
  rewrite Hw in Hout. destruct Hout as (room' & game' & Hlive & _ & Hphase & Hday & Htime & _).
  exists room', game'. split_and!; [exact Hlive | exact Hphase | exact Hday | exact Htime].
Defined.

(** X4.  A day resolution on a running game has three outcomes.  When the
    win rule decides a winner on the players the vote left and the database
    accepts the two reward writes of every player, the game is detached
    from the room and the database is told the winner; the phase, the day
    number and the pending actions of the detached game stay as they were.
    When the rule decides a winner and the database rejects one of these
    writes, [endGame] throws at that write: the game stays attached in the
    same day with the votes still pending and the tally stored, no interval
    is armed and no end-of-game record is written.  When no winner is
    decided the game goes on as the night of the next day number with 60
    seconds, no pending action, a newly armed interval, the tally kept in
    [votingResults], at least one living mafia-type player and strictly
    more living town-type players. *)
Theorem day_resolution_outcome (roomId : string) (s : State) (room : Room.t) (ref : nat)
    (game : Game.t) :
  liveGame roomId s = Some (room, ref, game) ->
  let s' := processDayVoting roomId s in
  match decideWinner (Game.players (resolveDay game)) with
  | Some winner =>
      if dbAcceptsNext (2 * length (Game.players game)) s
      then
        liveGame roomId s' = None
        /\ Room.status <$> rooms s' !! roomId = Some Waiting
        /\ Room.game <$> rooms s' !! roomId = Some None
        /\ last (dbCalls s') = Some (DbEndGame (Game.id game) winner (Game.gameLog game))
        /\ intervals s' = intervals s
        /\ (exists game', store s' !! ref = Some game'
                          /\ Game.phase game' = Game.phase game
                          /\ Game.day game' = Game.day game
                          /\ Game.actions game' = Game.actions game)
      else
        exists room',
          liveGame roomId s' = Some (room', ref, resolveDay game)
          /\ Room.status room' = Room.status room
          /\ Game.phase (resolveDay game) = Game.phase game
          /\ Game.day (resolveDay game) = Game.day game
          /\ Game.actions (resolveDay game) = Game.actions game
          /\ Game.votingResults (resolveDay game) = tallyVotes (Game.actions game)
          /\ Game.timer (resolveDay game) = Game.timer game
          /\ intervals s' = intervals s
          /\ dbCalls s `prefix_of` dbCalls s'
          /\ (forall gameId won gameLog,
                DbEndGame gameId won gameLog ∉ drop (length (dbCalls s)) (dbCalls s'))
  | None =>
      exists room' game',
        liveGame roomId s' = Some (room', ref, game')
        /\ Room.status room' = Room.status room
        /\ Game.phase game' = Night
        /\ Game.day game' = Game.day game + 1
        /\ Game.timeLeft game' = 60%Z
        /\ Game.actions game' = []
        /\ Game.votingResults game' = tallyVotes (Game.actions game)
        /\ Game.gameLog game' = Game.gameLog game
        /\ Game.timer game' = Some (nextHandle s)
        /\ intervals s' = intervals s ++ [mkInterval (nextHandle s) ref roomId]
        /\ dbCalls s' = dbCalls s
        /\ 1 <= length (aliveMafiaOf (Game.players game'))
           < length (aliveCitizensOf (Game.players game'))
  end.
Proof.
  intros H s'. unfold s'. rewrite (processDayVoting_outcome _ _ _ _ _ H).
  pose proof (liveGame_updateGame _ _ resolveDay _ _ _ H) as H1.
  assert (Hfields : Game.gameLog (resolveDay game) = Game.gameLog game
                    /\ Game.votingResults (resolveDay game) = tallyVotes (Game.actions game)
                    /\ Game.phase (resolveDay game) = Game.phase game
                    /\ Game.day (resolveDay game) = Game.day game
                    /\ Game.actions (resolveDay game) = Game.actions game
                    /\ Game.id (resolveDay game) = Game.id game
                    /\ Game.timer (resolveDay game) = Game.timer game).
  { unfold resolveDay. destruct (findVotedOut _) as [m vo].
    destruct (truthy vo && bool_decide (0 < m)); last done.
    destruct vo as [t|]; last done.
    by destruct (findPlayer t (Game.players game)). }
  destruct Hfields as (Hlog & Hvotes & Hphase & Hday & Hactions & Hid & Htimer).
  destruct (decideWinner (Game.players (resolveDay game))) as [winner|] eqn:Hw.
  - destruct (dbAcceptsNext (2 * length (Game.players game)) s) eqn:Hacc.
    + assert (Hacc1 : dbAcceptsNext (2 * length (Game.players (resolveDay game)))
                        (updateGame ref resolveDay s) = true)
        by (by rewrite length_players_resolveDay).
      destruct (endGame_ends roomId winner _ _ _ _ H1 Hacc1) as (Hgone & Hroom & Hdb & Hiv).
      rewrite Hid, Hlog in Hdb. rewrite Hroom. split_and!; try done.
      unfold endGame. rewrite (endGameRun_cases _ _ _ _ _ _ H1).
      rewrite length_rewards, Hacc1. cbn [negb].
      pose proof (store_liveGame _ _ _ _ _ H1) as Hstore.
      destruct (dbRejects _ _); cbn [fst]; simpl.
      * simpl in Hstore. rewrite Hstore. eexists. split; first done. by split_and!.
      * rewrite lookup_alter_eq. simpl in Hstore. rewrite Hstore. simpl.
        eexists. split; first done. by split_and!.
    + assert (Hacc1 : dbAcceptsNext (2 * length (Game.players (resolveDay game)))
                        (updateGame ref resolveDay s) = false)
        by (by rewrite length_players_resolveDay).
      unfold endGame. rewrite (endGame_stops _ _ _ _ _ _ H1 Hacc1). cbn [fst].
      exists room. split_and!; try done.
      * by apply prefix_app_r.
      * intros gameId won gameLog. cbn [dbCalls set_dbCalls updateGame set_store].
        rewrite drop_app_length. intros Hin.
        apply (not_record_in_rewards winner (Game.players (resolveDay game))
                 gameId won gameLog).
        exact (elem_of_prefix _ _ _ Hin (issuedOf_prefix _ _ _)).
  - pose proof (liveGame_updateGame _ _ enterNight _ _ _ H1) as H2.
    destruct (startPhaseTimer_live _ _ _ _ _ H2) as (Hlive & Hiv & _ & _ & Hdb).
    eexists _, _. split; first exact Hlive.
    destruct (decideWinner_cases (Game.players (resolveDay game))) as (_ & _ & Hnone).
    apply Hnone in Hw.
    split_and!; try done; cbn [Game.players Game.set_timer Game.day enterNight Game.set_actions
                                 Game.set_timeLeft Game.set_day Game.set_phase]; lia.
Qed.

Lemma day_resolution_outcome_witness :
  liveGame "r1" (processDayVoting "r1" completedDay) = None
  /\ (exists gameLog,
        last (dbCalls (processDayVoting "r1" completedDay))
        = Some (DbEndGame "g1" WMafia gameLog))
  /\ (exists room',
        liveGame "r1" (processDayVoting "r1" rejectingDay)
        = Some (room', 0, resolveDay completedDayGame))
  /\ intervals (processDayVoting "r1" rejectingDay) = intervals rejectingDay.
Proof.
  assert (H : liveGame "r1" completedDay = Some (roomOfFour, 0, completedDayGame))
    by (vm_compute; reflexivity).
  assert (H' : liveGame "r1" rejectingDay = Some (roomOfFour, 0, completedDayGame))
    by (vm_compute; reflexivity).
  pose proof (day_resolution_outcome "r1" completedDay _ _ _ H) as Hout.
  pose proof (day_resolution_outcome "r1" rejectingDay _ _ _ H') as Hout'.
  cbn zeta in Hout, Hout'.
  assert (Hw : decideWinner (Game.players (resolveDay completedDayGame)) = Some WMafia)
    by (vm_compute; reflexivity).
  assert (Hacc : dbAcceptsNext (2 * length (Game.players completedDayGame)) completedDay
                 = true) by (vm_compute; reflexivity).
  assert (Hrej : dbAcceptsNext (2 * length (Game.players completedDayGame)) rejectingDay
                 = false) by (vm_compute; reflexivity).
  rewrite Hw, Hacc in Hout. rewrite Hw, Hrej in Hout'.
  destruct Hout as (Hgone & _ & _ & Hdb & _).
  destruct Hout' as (room' & Hlive & _ & _ & _ & _ & _ & _ & Hiv & _).
  split; first exact Hgone. split; first (eexists; exact Hdb).
  split; [by exists room' | exact Hiv].
Defined.

(** ** After the end of a game *)

Lemma liveGame_endGame (roomId : string) (winner : Winner) (s : State) :
  (forall room ref game,
     liveGame roomId s = Some (room, ref, game) ->
     dbAcceptsNext (2 * length (Game.players game)) s = true) ->
  liveGame roomId (endGame roomId winner s) = None.
Proof.
  intros Hacc. destruct (liveGame roomId s) as [[[room ref] game]|] eqn:H.
  - by destruct (endGame_ends roomId winner s room ref game H (Hacc _ _ _ eq_refl))
      as (? & _).
  - unfold endGame. by rewrite endGame_idle.
Qed.

(** X5.  Once [endGame] has run for a room and the database has accepted
    the reward writes, the engine ignores that room: an action of any
    player, the completion check, both resolutions, the win evaluation, a
    new phase timer and a second [endGame] all return the state
    unchanged. *)
Theorem ended_game_ignores_events (roomId : string) (winner : Winner) (s : State) :
  (forall room ref game,
     liveGame roomId s = Some (room, ref, game) ->
     dbAcceptsNext (2 * length (Game.players game)) s = true) ->
  let s' := endGame roomId winner s in
  (forall playerNickname action target now,
      handleAction roomId playerNickname action target now s' = s')
  /\ checkPhaseCompletion roomId s' = s'
  /\ processNightActions roomId s' = s'
  /\ processDayVoting roomId s' = s'
  /\ checkWinConditions roomId s' = (s', Some false)
  /\ startPhaseTimer roomId s' = s'
  /\ (forall winner', endGame roomId winner' s' = s')
  /\ (forall winner', endGameReturns roomId winner' s' = true).
Proof.
  intros Hacc s'. pose proof (liveGame_endGame roomId winner s Hacc) as H. fold s' in H.
  clearbody s'.
  split_and!; intros;
    unfold handleAction, checkPhaseCompletion, processNightActions, processDayVoting,
      checkWinConditions, startPhaseTimer, endGame, endGameReturns, endGameRun;
    by rewrite H.
Qed.

Lemma ended_game_ignores_events_witness :
  let s' := endGame "r1" WMafia completedDay in
  handleAction "r1" "P1" "vote" (Some "P3") 9 s' = s'
  /\ processDayVoting "r1" s' = s'.
Proof.
  destruct (ended_game_ignores_events "r1" WMafia completedDay) as (Ha & _ & _ & Hd & _).
  - intros room ref game Hlive.
    assert (H : liveGame "r1" completedDay = Some (roomOfFour, 0, completedDayGame))
      by (vm_compute; reflexivity).
    rewrite H in Hlive. injection Hlive as _ _ <-. vm_compute. reflexivity.
  - split; [apply Ha | exact Hd].
Defined.

Lemma liveGame_updateGame_None (roomId : string) (s : State) (ref : nat)
    (f : Game.t -> Game.t) :
  liveGame roomId s = None -> liveGame roomId (updateGame ref f s) = None.
Proof.
  unfold liveGame. simpl. intros H.
  destruct (rooms s !! roomId) as [room|]; simpl in *; last done.
  destruct (Room.game room) as [ref'|]; simpl in *; last done.
  destruct (decide (ref = ref')) as [->|Hne].
  - rewrite lookup_alter_eq. by destruct (store s !! ref').
  - by rewrite lookup_alter_ne.
Qed.

(** X6.  An interval that is still armed for a room without a running game
    writes to nothing but its own game object and itself.  A run takes one
    second off the countdown of that object; when the countdown is then at
    zero or below, the run clears the interval (every armed interval of
    that handle), and otherwise the armed intervals stay as they are.  The
    resolution it calls at zero returns at once, so the phase, the players
    and the pending actions of the object, the rooms, the other game
    objects, the engine's table and the database are not touched. *)
Theorem leftover_interval_is_contained (timer : nat) (iv : Interval) (s : State) :
  List.find (fun iv => bool_decide (handle iv = timer)) (intervals s) = Some iv ->
  liveGame (intervalRoom iv) s = None ->
  let s' := intervalCallback timer s in
  rooms s' = rooms s
  /\ games s' = games s
  /\ dbCalls s' = dbCalls s
  /\ sent s' = sent s
  /\ store s' = alter (fun game => Game.set_timeLeft (Game.timeLeft game - 1) game)
                      (intervalGame iv) (store s)
  /\ intervals s'
     = match store s !! intervalGame iv with
       | Some game =>
           if bool_decide (Game.timeLeft game - 1 <= 0)%Z
           then List.filter (fun iv' => negb (bool_decide (handle iv' = timer)))
                            (intervals s)
           else intervals s
       | None => intervals s
       end.
Proof.
  intros Hfind Hidle s'. unfold s', intervalCallback. rewrite Hfind.
  set (s1 := updateGame (intervalGame iv) _ s).
  assert (H1 : liveGame (intervalRoom iv) s1 = None) by by apply liveGame_updateGame_None.
  assert (Hstore : store s1 !! intervalGame iv
                   = (fun game => Game.set_timeLeft (Game.timeLeft game - 1) game)
                       <$> store s !! intervalGame iv)
    by apply lookup_alter_eq.
  rewrite Hstore.
  destruct (store s !! intervalGame iv) as [game|]; last by split_and!.
  cbn [fmap option_fmap option_map Game.timeLeft Game.set_timeLeft].
  case_bool_decide; last by split_and!.
  set (s2 := set_intervals _ s1).
  assert (H2 : liveGame (intervalRoom iv) s2 = None) by exact H1.
  cbn [Game.phase Game.set_timeLeft].
  destruct (Game.phase game); unfold processNightActions, processDayVoting; rewrite H2;
    by split_and!.
Qed.

Lemma leftover_interval_is_contained_witness :
  liveGame "r2" endedGameOfSix = None
  /\ rooms (intervalCallback 0 endedGameOfSix) = rooms endedGameOfSix
  /\ handle <$> intervals endedGameOfSix = [0]
  /\ intervals (intervalCallback 0 endedGameOfSix) = intervals endedGameOfSix
  /\ intervals (run (replicate 120 (EvInterval 0)) endedGameOfSix) = [].
Proof.
  assert (Hidle : liveGame "r2" endedGameOfSix = None) by (vm_compute; reflexivity).
  split; first exact Hidle.
  destruct (leftover_interval_is_contained 0 (mkInterval 0 0 "r2") endedGameOfSix
              ltac:(vm_compute; reflexivity) Hidle) as (Hr & _ & _ & _ & _ & Hiv).
  split; first exact Hr. split; first (vm_compute; reflexivity).
  split; first (rewrite Hiv; vm_compute; reflexivity).
  vm_compute. reflexivity.
Defined.

(** ** Actions that do not count *)

Lemma filter_all_false {A : Type} (f : A -> bool) (l : list A) :
  Forall (fun x => f x = false) l -> List.filter f l = [].
Proof.
  induction 1 as [|x l Hx _ IH]; simpl; first done. by rewrite Hx.
Qed.

(** X7.  Only a kill submitted by a mafia-type player of the game counts at
    night.  When no pending action is such a kill (kills by townsfolk, by
    the protector, by a paired player or by a name that is not in the game
    included), the night resolution kills nobody, writes the quiet outcome
    line, and moves to the day with the pending actions cleared. *)
Theorem night_needs_a_mafia_kill (game : Game.t) :
  (forall actor a,
      (actor, a) ∈ JsMap.entries (Game.actions game) ->
      Action.action a = "kill" ->
      isMafiaRole (playerRole actor (Game.players game)) = false) ->
  Game.players (resolveNight game) = Game.players game
  /\ Game.lastAction (resolveNight game) = Some "Ночь прошла спокойно"
  /\ Game.phase (resolveNight game) = Day
  /\ Game.actions (resolveNight game) = [].
Proof.
  intros Hno.
  assert (Hkills : mafiaKillsOf game = []).
  { unfold mafiaKillsOf. apply filter_all_false. apply Forall_forall.
    intros [actor a] Hin. simpl.
    destruct (bool_decide (Action.action a = "kill")) eqn:Hk; last done.
    apply bool_decide_eq_true in Hk. simpl. by apply (Hno actor a). }
  unfold resolveNight, nightVictim. rewrite Hkills. done.
Qed.

Lemma night_needs_a_mafia_kill_witness :
  let game := recordAction "P2" "kill" (Some "P1") 1 firstNightOfFour in
  Game.players (resolveNight game) = Game.players game
  /\ Game.lastAction (resolveNight game) = Some "Ночь прошла спокойно".
Proof.
  intros game.
  destruct (night_needs_a_mafia_kill game) as (Hp & Hl & _).
  - intros actor a Hin _. vm_compute in Hin.
    apply elem_of_cons in Hin as [[= -> ->]|Hin]; first reflexivity.
    destruct (not_elem_of_nil _ Hin).
  - split; [exact Hp | exact Hl].
Defined.

(** ** What a game object keeps for life *)

Lemma playerEvolves_refl (p : Player.t) : playerEvolves p p.
Proof. by split_and!. Qed.

Lemma playersEvolve_refl (players : list Player.t) : Forall2 playerEvolves players players.
Proof. induction players; constructor; auto using playerEvolves_refl. Qed.

Lemma playersEvolve_trans (l1 l2 l3 : list Player.t) :
  Forall2 playerEvolves l1 l2 -> Forall2 playerEvolves l2 l3 -> Forall2 playerEvolves l1 l3.
Proof.
  intros H12. revert l3. induction H12 as [|p1 p2 l1 l2 Hp _ IH]; intros l3 H23.
  - by inversion H23.
  - inversion H23 as [|? p3 ? l3' Hp' H23']; subst. constructor; last by apply IH.
    destruct Hp as (? & ? & ?), Hp' as (? & ? & ?). split_and!; [congruence..|auto].
Qed.

Lemma playersEvolve_killPlayer (nick : string) (players : list Player.t) :
  Forall2 playerEvolves players (killPlayer nick players).
Proof.
  unfold killPlayer. destruct (findPlayerIndex nick players) as [i|];
    last apply playersEvolve_refl.
  revert i. induction players as [|p players IH]; intros i; first constructor.
  destruct i; simpl.
  - constructor; last apply playersEvolve_refl. by split_and!.
  - constructor; [apply playerEvolves_refl | apply IH].
Qed.

Lemma evolves_refl (g : Game.t) : evolves g g.
Proof. split_and!; try done. apply playersEvolve_refl. Qed.

Lemma evolves_trans (g1 g2 g3 : Game.t) : evolves g1 g2 -> evolves g2 g3 -> evolves g1 g3.
Proof.
  intros (? & ? & ? & Hp & Hl & ?) (? & ? & ? & Hp' & Hl' & ?).
  split_and!; [congruence..| |by etrans|lia].
  by eapply playersEvolve_trans.
Qed.

Lemma evolves_resolveNight (g : Game.t) : evolves g (resolveNight g).
Proof.
  unfold resolveNight. destruct (nightVictim g) as [p|]; split_and!; try done;
    simpl; auto using playersEvolve_killPlayer, playersEvolve_refl.
Qed.

Lemma evolves_resolveDay (g : Game.t) : evolves g (resolveDay g).
Proof.
  unfold resolveDay. destruct (findVotedOut _) as [maxVotes votedOut].
  destruct (truthy votedOut && bool_decide (0 < maxVotes));
    [destruct votedOut as [target|];
       [destruct (findPlayer target (Game.players g))|]|];
    split_and!; try done; simpl; auto using playersEvolve_killPlayer, playersEvolve_refl.
Qed.

Lemma evolves_enterNight (g : Game.t) : evolves g (enterNight g).
Proof.
  split_and!; try done; [apply playersEvolve_refl | simpl; lia].
Qed.

Lemma evolves_recordAction (playerNickname action : string) (target : option string)
    (now : Z) (g : Game.t) :
  evolves g (recordAction playerNickname action target now g).
Proof.
  split_and!; try done; [apply playersEvolve_refl | simpl; by apply prefix_app_r].
Qed.

(** The writes of the engine to a game object, followed through every
    function of the engine for a relation [R] that each of them keeps. *)
Section StoreKeeps.
Variable R : Game.t -> Game.t -> Prop.
Hypothesis R_refl : forall g, R g g.
Hypothesis R_trans : forall g1 g2 g3, R g1 g2 -> R g2 g3 -> R g1 g3.
Hypothesis R_set_timer : forall timer g, R g (Game.set_timer timer g).
Hypothesis R_set_timeLeft : forall timeLeft g, R g (Game.set_timeLeft timeLeft g).
Hypothesis R_set_lastAction : forall lastAction g, R g (Game.set_lastAction lastAction g).
Hypothesis R_resolveNight : forall g, R g (resolveNight g).
Hypothesis R_resolveDay : forall g, R g (resolveDay g).
Hypothesis R_enterNight : forall g, R g (enterNight g).

Lemma storeKeeps_refl (s : State) : storeKeeps R s s.
Proof. intros ref g H. exists g. auto. Qed.

Lemma storeKeeps_trans (s1 s2 s3 : State) :
  storeKeeps R s1 s2 -> storeKeeps R s2 s3 -> storeKeeps R s1 s3.
Proof.
  intros H12 H23 ref g H. destruct (H12 ref g H) as (g2 & H2 & He).
  destruct (H23 ref g2 H2) as (g3 & H3 & He'). exists g3. eauto.
Qed.

Lemma storeKeeps_same (s s' : State) : store s' = store s -> storeKeeps R s s'.
Proof. intros Heq ref g H. exists g. rewrite Heq. auto. Qed.

Lemma storeKeeps_updateGame (ref : nat) (f : Game.t -> Game.t) (s : State) :
  (forall g, R g (f g)) -> storeKeeps R s (updateGame ref f s).
Proof.
  intros Hf ref' g H. simpl. destruct (decide (ref = ref')) as [->|Hne].
  - exists (f g). rewrite lookup_alter_eq, H. auto.
  - exists g. rewrite lookup_alter_ne by done. auto.
Qed.

Lemma storeKeeps_startPhaseTimer (roomId : string) (s : State) :
  storeKeeps R s (startPhaseTimer roomId s).
Proof.
  unfold startPhaseTimer. destruct (liveGame roomId s) as [[[room ref] game]|];
    last apply storeKeeps_refl.
  eapply storeKeeps_trans; last (apply storeKeeps_updateGame; auto).
  by apply storeKeeps_same.
Qed.

Lemma storeKeeps_endGame (roomId : string) (winner : Winner) (s : State) :
  storeKeeps R s (endGame roomId winner s).
Proof.
  unfold endGame. destruct (liveGame roomId s) as [[[room ref] game]|] eqn:Hlive.
  - rewrite (endGameRun_cases _ _ _ _ _ _ Hlive).
    destruct (negb _); first by apply storeKeeps_same.
    destruct (dbRejects s _); first by apply storeKeeps_same.
    eapply storeKeeps_trans; last (apply storeKeeps_updateGame; auto).
    by apply storeKeeps_same.
  - rewrite endGame_idle by done. apply storeKeeps_refl.
Qed.

Lemma storeKeeps_checkWinConditions (roomId : string) (s : State) :
  storeKeeps R s (checkWinConditions roomId s).1.
Proof.
  unfold checkWinConditions. destruct (liveGame roomId s) as [[[room ref] game]|];
    last apply storeKeeps_refl.
  destruct (decideWinner _); [apply storeKeeps_endGame | apply storeKeeps_refl].
Qed.

Lemma storeKeeps_processNightActions (roomId : string) (s : State) :
  storeKeeps R s (processNightActions roomId s).
Proof.
  unfold processNightActions. destruct (liveGame roomId s) as [[[room ref] game]|];
    last apply storeKeeps_refl.
  pose proof (storeKeeps_checkWinConditions roomId (updateGame ref resolveNight s)) as H.
  destruct (checkWinConditions roomId (updateGame ref resolveNight s)) as [s' returned].
  simpl in H.
  assert (H' : storeKeeps R s s').
  { eapply storeKeeps_trans; last exact H. by apply storeKeeps_updateGame. }
  destruct returned; last done.
  eapply storeKeeps_trans; last apply storeKeeps_startPhaseTimer. done.
Qed.

Lemma storeKeeps_processDayVoting (roomId : string) (s : State) :
  storeKeeps R s (processDayVoting roomId s).
Proof.
  unfold processDayVoting. destruct (liveGame roomId s) as [[[room ref] game]|];
    last apply storeKeeps_refl.
  pose proof (storeKeeps_checkWinConditions roomId (updateGame ref resolveDay s)) as H.
  destruct (checkWinConditions roomId (updateGame ref resolveDay s)) as [s' returned].
  simpl in H.
  assert (H' : storeKeeps R s s').
  { eapply storeKeeps_trans; last exact H. by apply storeKeeps_updateGame. }
  destruct returned as [[|]|]; try done.
  eapply storeKeeps_trans; last apply storeKeeps_startPhaseTimer.
  eapply storeKeeps_trans; first exact H'.
  by apply storeKeeps_updateGame.
Qed.

Lemma storeKeeps_checkPhaseCompletion (roomId : string) (s : State) :
  storeKeeps R s (checkPhaseCompletion roomId s).
Proof.
  unfold checkPhaseCompletion. destruct (liveGame roomId s) as [[[room ref] game]|];
    last apply storeKeeps_refl.
  destruct (Game.phase game); case_bool_decide;
    auto using storeKeeps_refl, storeKeeps_processNightActions,
      storeKeeps_processDayVoting.
Qed.

Lemma storeKeeps_handleAction (roomId playerNickname action : string)
    (target : option string) (now : Z) (s : State) :
  (forall g, R g (recordAction playerNickname action target now g)) ->
  storeKeeps R s (handleAction roomId playerNickname action target now s).
Proof.
  intros R_recordAction.
  unfold handleAction. destruct (liveGame roomId s) as [[[room ref] game]|];
    last apply storeKeeps_refl.
  destruct (findPlayer _ _) as [player|]; last apply storeKeeps_refl.
  destruct (Player.isAlive player); simpl; last apply storeKeeps_refl.
  eapply storeKeeps_trans; last apply storeKeeps_checkPhaseCompletion.
  by apply storeKeeps_updateGame.
Qed.

Lemma storeKeeps_intervalCallback (timer : nat) (s : State) :
  storeKeeps R s (intervalCallback timer s).
Proof.
  unfold intervalCallback. destruct (List.find _ _) as [iv|]; last apply storeKeeps_refl.
  set (s1 := updateGame _ _ s).
  assert (H1 : storeKeeps R s s1) by (apply storeKeeps_updateGame; auto).
  destruct (store s1 !! intervalGame iv) as [game|]; last done.
  case_bool_decide; last done.
  eapply storeKeeps_trans; first exact H1.
  set (s2 := set_intervals _ s1).
  destruct (Game.phase game).
  - apply (storeKeeps_processNightActions _ s2).
  - apply (storeKeeps_processDayVoting _ s2).
Qed.

End StoreKeeps.

Lemma evolves_set_timer (timer : option nat) (g : Game.t) : evolves g (Game.set_timer timer g).
Proof. split_and!; try done. apply playersEvolve_refl. Qed.

Lemma evolves_set_timeLeft (timeLeft : Z) (g : Game.t) :
  evolves g (Game.set_timeLeft timeLeft g).
Proof. split_and!; try done. apply playersEvolve_refl. Qed.

Lemma evolves_set_lastAction (lastAction : option string) (g : Game.t) :
  evolves g (Game.set_lastAction lastAction g).
Proof. split_and!; try done. apply playersEvolve_refl. Qed.

Lemma storeKeeps_evolves_step (s : State) (e : Event) : storeKeeps evolves s (step s e).
Proof.
  destruct e; simpl;
    [apply storeKeeps_handleAction | apply storeKeeps_intervalCallback];
    first [exact evolves_trans
          | auto using evolves_refl, evolves_set_timer, evolves_set_timeLeft,
              evolves_set_lastAction, evolves_resolveNight, evolves_resolveDay,
              evolves_enterNight, evolves_recordAction].
Qed.

(** X8.  Over any sequence of player actions and interval runs, a game
    object stays in place and keeps its identity: its id, room id and mafia
    list are unchanged; its players keep their order, nicknames and roles,
    and a dead player is never alive again; the log only grows at its end;
    the day number never goes down. *)
Theorem game_object_for_life (events : list Event) (s : State) (ref : nat) (g : Game.t) :
  store s !! ref = Some g ->
  exists g', store (run events s) !! ref = Some g' /\ evolves g g'.
Proof.
  revert s g. induction events as [|e events IH]; intros s g H.
  - exists g. auto using evolves_refl.
  - destruct (storeKeeps_evolves_step s e ref g H) as (g1 & H1 & He1).
    destruct (IH _ _ H1) as (g' & H' & He'). exists g'. split; first exact H'.
    by eapply evolves_trans.
Qed.

Lemma game_object_for_life_witness :
  exists g', store (run twoPhasesOfFour gameOfFour) !! 0 = Some g'
             /\ evolves firstNightOfFour g'.
Proof.
  apply (game_object_for_life twoPhasesOfFour gameOfFour 0 firstNightOfFour).
  vm_compute. reflexivity.
Defined.

(** ** What an engine call leaves alone *)

Lemma closeRoom_idemp (room : Room.t) : closeRoom (closeRoom room) = closeRoom room.
Proof. by destruct room. Qed.

Lemma gameRefOf_liveGame (roomId : string) (s : State) (room : Room.t) (ref : nat)
    (game : Game.t) :
  liveGame roomId s = Some (room, ref, game) -> gameRefOf roomId s = Some ref.
Proof.
  unfold liveGame, gameRefOf. intros H.
  destruct (rooms s !! roomId) as [room'|]; simplify_eq/=.
  destruct (Room.game room') as [ref'|]; simplify_eq/=.
  destruct (store s !! ref'); by simplify_eq/=.
Qed.

Lemma engineFrame_refl (roomId : string) (s : State) : engineFrame roomId s s.
Proof. split_and!; auto. Qed.

Lemma engineFrame_trans (roomId : string) (s1 s2 s3 : State) :
  engineFrame roomId s1 s2 -> engineFrame roomId s2 s3 -> engineFrame roomId s1 s3.
Proof.
  intros (Ho & Hs & Hr & ? & ? & ? & ? & ?) (Ho' & Hs' & Hr' & ? & ? & ? & ? & ?).
  split_and!; try congruence.
  - intros other Hne. destruct (Ho other Hne), (Ho' other Hne). split; congruence.
  - intros ref Hne. rewrite Hs'; first by apply Hs.
    unfold gameRefOf in *. destruct Hr as [-> | ->]; first done.
    by destruct (rooms s1 !! roomId).
  - destruct Hr as [Hr | Hr], Hr' as [Hr' | Hr']; rewrite Hr', Hr; auto.
    right. destruct (rooms s1 !! roomId); simpl; last done. by rewrite closeRoom_idemp.
Qed.

Lemma engineFrame_updateGame (roomId : string) (ref : nat) (f : Game.t -> Game.t)
    (s : State) :
  gameRefOf roomId s = Some ref -> engineFrame roomId s (updateGame ref f s).
Proof.
  intros Href. split_and!; auto.
  intros ref' Hne. simpl. apply lookup_alter_ne. congruence.
Qed.

Lemma engineFrame_startPhaseTimer (roomId : string) (s : State) :
  engineFrame roomId s (startPhaseTimer roomId s).
Proof.
  unfold startPhaseTimer.
  destruct (liveGame roomId s) as [[[room ref] game]|] eqn:Hlive;
    last apply engineFrame_refl.
  apply gameRefOf_liveGame in Hlive. split_and!; auto.
  intros ref' Hne. simpl. apply lookup_alter_ne. congruence.
Qed.

Lemma engineFrame_endGame (roomId : string) (winner : Winner) (s : State) :
  engineFrame roomId s (endGame roomId winner s).
Proof.
  unfold endGame.
  destruct (liveGame roomId s) as [[[room ref] game]|] eqn:Hlive;
    last (rewrite endGame_idle by done; apply engineFrame_refl).
  rewrite (endGameRun_cases _ _ _ _ _ _ Hlive).
  apply gameRefOf_liveGame in Hlive.
  destruct (negb _); first by split_and!; auto.
  destruct (dbRejects s _); cbn [fst].
  - split_and!; auto.
    + intros other Hne. simpl. by rewrite lookup_alter_ne.
    + right. simpl. by rewrite lookup_alter_eq.
  - split_and!; auto.
    + intros other Hne. simpl. by rewrite lookup_alter_ne, lookup_delete_ne.
    + intros ref' Hne. simpl. apply lookup_alter_ne. congruence.
    + right. simpl. by rewrite lookup_alter_eq.
Qed.

Lemma engineFrame_checkWinConditions (roomId : string) (s : State) :
  engineFrame roomId s (checkWinConditions roomId s).1.
Proof.
  unfold checkWinConditions.
  destruct (liveGame roomId s) as [[[room ref] game]|]; last apply engineFrame_refl.
  destruct (decideWinner _); [apply engineFrame_endGame | apply engineFrame_refl].
Qed.

Lemma engineFrame_processNightActions (roomId : string) (s : State) :
  engineFrame roomId s (processNightActions roomId s).
Proof.
  unfold processNightActions.
  destruct (liveGame roomId s) as [[[room ref] game]|] eqn:Hlive;
    last apply engineFrame_refl.
  pose proof (engineFrame_checkWinConditions roomId (updateGame ref resolveNight s)) as H.
  destruct (checkWinConditions roomId (updateGame ref resolveNight s)) as [s' returned].
  simpl in H.
  assert (H' : engineFrame roomId s s').
  { eapply engineFrame_trans; last exact H.
    eapply engineFrame_updateGame, gameRefOf_liveGame, Hlive. }
  destruct returned; last done.
  eapply engineFrame_trans; last apply engineFrame_startPhaseTimer. done.
Qed.

Lemma engineFrame_processDayVoting (roomId : string) (s : State) :
  engineFrame roomId s (processDayVoting roomId s).
Proof.
  destruct (liveGame roomId s) as [[[room ref] game]|] eqn:Hlive;
    last (unfold processDayVoting; rewrite Hlive; apply engineFrame_refl).
  pose proof (gameRefOf_liveGame _ _ _ _ _ Hlive) as Href.
  rewrite (processDayVoting_outcome _ _ _ _ _ Hlive).
  destruct (decideWinner (Game.players (resolveDay game))) as [winner|].
  - eapply engineFrame_trans; last apply engineFrame_endGame.
    by apply engineFrame_updateGame.
  - eapply engineFrame_trans; last apply engineFrame_startPhaseTimer.
    eapply engineFrame_trans; first by apply (engineFrame_updateGame roomId ref resolveDay).
    by apply engineFrame_updateGame.
Qed.

Lemma engineFrame_checkPhaseCompletion (roomId : string) (s : State) :
  engineFrame roomId s (checkPhaseCompletion roomId s).
Proof.
  unfold checkPhaseCompletion.
  destruct (liveGame roomId s) as [[[room ref] game]|]; last apply engineFrame_refl.
  destruct (Game.phase game); case_bool_decide;
    auto using engineFrame_refl, engineFrame_processNightActions,
      engineFrame_processDayVoting.
Qed.

Lemma engineFrame_handleAction (roomId playerNickname action : string)
    (target : option string) (now : Z) (s : State) :
  engineFrame roomId s (handleAction roomId playerNickname action target now s).
Proof.
  unfold handleAction.
  destruct (liveGame roomId s) as [[[room ref] game]|] eqn:Hlive;
    last apply engineFrame_refl.
  destruct (findPlayer _ _) as [player|]; last apply engineFrame_refl.
  destruct (Player.isAlive player); simpl; last apply engineFrame_refl.
  eapply engineFrame_trans; last apply engineFrame_checkPhaseCompletion.
  eapply engineFrame_updateGame, gameRefOf_liveGame, Hlive.
Qed.

Lemma liveGame_of_ref (roomId : string) (s : State) (ref : nat) (game : Game.t) :
  gameRefOf roomId s = Some ref -> store s !! ref = Some game ->
  exists room, liveGame roomId s = Some (room, ref, game).
Proof.
  unfold gameRefOf, liveGame. intros Href Hgame.
  destruct (rooms s !! roomId) as [room|]; simplify_eq/=.
  exists room. rewrite Href. simpl. by rewrite Hgame.
Qed.

(** X9.  An action handled for one room stays in that room, when the game
    of the room carries the id of the room (as [startGame] makes it).  The
    other rooms and their entries in the engine's table are unchanged, and
    so is every game object that belongs to another room.  The room itself
    stays registered with the same players on its roster.  The engine
    writes nothing to the connections: no user record, no nickname binding
    and no message to any client, so a client learns of a phase change
    only from a later room snapshot. *)
Theorem handleAction_stays_in_room (roomId playerNickname action : string)
    (target : option string) (now : Z) (s : State) :
  (forall room ref game,
     liveGame roomId s = Some (room, ref, game) -> Game.roomId game = roomId) ->
  let s' := handleAction roomId playerNickname action target now s in
  (forall other, other <> roomId ->
     rooms s' !! other = rooms s !! other /\ games s' !! other = games s !! other)
  /\ (forall ref game,
        store s !! ref = Some game -> Game.roomId game <> roomId ->
        store s' !! ref = Some game)
  /\ (fun room => Player.nickname <$> Room.players room) <$> rooms s' !! roomId
     = (fun room => Player.nickname <$> Room.players room) <$> rooms s !! roomId
  /\ users s' = users s
  /\ usersByNickname s' = usersByNickname s
  /\ closedSockets s' = closedSockets s
  /\ sent s' = sent s.
Proof.
  intros Hown s'.
  destruct (engineFrame_handleAction roomId playerNickname action target now s)
    as (Hothers & Hstore & Hroom & Hu & Hb & Hc & Hsent & _).
  fold s' in Hothers, Hstore, Hroom, Hu, Hb, Hc, Hsent.
  split_and!; try done.
  - intros ref game Hgame Hforeign. rewrite Hstore; first done.
    intros Href. destruct (liveGame_of_ref roomId s ref game Href Hgame) as [room Hlive].
    by apply Hforeign, (Hown room ref game).
  - destruct Hroom as [-> | ->]; first done.
    by destruct (rooms s !! roomId).
Qed.

Lemma handleAction_stays_in_room_witness :
  let s' := handleAction "r1" "P1" "kill" (Some "P2") 7 twoTables in
  rooms s' !! "r2" = rooms twoTables !! "r2"
  /\ store s' !! 1 = Some secondOfTwoTables
  /\ sent s' = sent twoTables.
Proof.
  assert (Hlive1 : liveGame "r1" twoTables = Some (roomOfFour, 0, firstNightOfFour))
    by (vm_compute; reflexivity).
  assert (Hgame : store twoTables !! 1 = Some secondOfTwoTables)
    by (vm_compute; reflexivity).
  assert (Hforeign : Game.roomId secondOfTwoTables <> "r1")
    by (vm_compute; discriminate).
  destruct (handleAction_stays_in_room "r1" "P1" "kill" (Some "P2") 7 twoTables)
    as (Hothers & Hstore & _ & _ & _ & _ & Hsent).
  - intros room ref game Hlive. rewrite Hlive1 in Hlive.
    injection Hlive as _ _ <-. reflexivity.
  - cbv zeta. split_and!.
    + apply Hothers. discriminate.
    + exact (Hstore 1 secondOfTwoTables Hgame Hforeign).
    + exact Hsent.
Defined.

(** ** An action sent by a client *)

Lemma sameLog_resolveNight (g : Game.t) : sameLog g (resolveNight g).
Proof. unfold resolveNight, sameLog. by destruct (nightVictim g). Qed.

Lemma sameLog_resolveDay (g : Game.t) : sameLog g (resolveDay g).
Proof.
  unfold resolveDay, sameLog. destruct (findVotedOut _) as [maxVotes votedOut].
  destruct (truthy votedOut && bool_decide (0 < maxVotes));
    [destruct votedOut as [target|];
       [destruct (findPlayer target (Game.players g))|]|]; done.
Qed.

Lemma sameLog_checkPhaseCompletion (roomId : string) (s : State) :
  storeKeeps sameLog s (checkPhaseCompletion roomId s).
Proof.
  apply storeKeeps_checkPhaseCompletion;
    first [by unfold sameLog; intros; congruence
          | apply sameLog_resolveNight | apply sameLog_resolveDay | done].
Qed.

(** X10.  A client acts under its own name only.  For a connection whose
    user is in a room with a running game and is a living player of it,
    [handleGameAction] hands the connection's nickname to the engine: the
    game's log grows by exactly one entry, which carries that nickname, the
    submitted verb and target and the phase and day of the submission; and
    no message is sent to any connection, neither to the sender nor to the
    room, whatever the action sets off. *)
Theorem handleGameAction_acts_under_own_name (ws : nat) (action : string)
    (target : option string) (now : Z) (s : State) (user : User.t) (roomId : string)
    (room : Room.t) (ref : nat) (game : Game.t) (player : Player.t) :
  JsMap.get ws (users s) = Some user ->
  User.currentRoom user = Some roomId ->
  roomId <> "" ->
  liveGame roomId s = Some (room, ref, game) ->
  findPlayer (User.nickname user) (Game.players game) = Some player ->
  Player.isAlive player = true ->
  let s' := handleGameAction ws action target now s in
  sent s' = sent s
  /\ exists game',
       store s' !! ref = Some game'
       /\ Game.gameLog game'
          = Game.gameLog game
              ++ [LogEntry.mk (Game.phase game) (Game.day game) (User.nickname user)
                    action target now].
Proof.
  intros Huser Hroom Hne Hlive Hplayer Halive s'.
  assert (Hs' : s' = handleAction roomId (User.nickname user) action target now s).
  { unfold s', handleGameAction. rewrite Huser, Hroom. simpl.
    rewrite bool_decide_eq_false_2 by done. simpl. by rewrite Hlive. }
  rewrite Hs'. unfold handleAction. rewrite Hlive, Hplayer, Halive. simpl.
  set (s1 := updateGame ref _ s).
  split.
  - by destruct (engineFrame_checkPhaseCompletion roomId s1) as (_ & _ & _ & _ & _ & _ & ? & _).
  - 
    assert (H1 : store s1 !! ref
                 = Some (recordAction (User.nickname user) action target now game)).
    { unfold s1. simpl. by rewrite lookup_alter_eq, (store_liveGame _ _ _ _ _ Hlive). }
    destruct (sameLog_checkPhaseCompletion roomId s1 ref _ H1) as (game' & H' & Hlog).
    exists game'. split; first exact H'. by rewrite Hlog.
Qed.

Lemma handleGameAction_acts_under_own_name_witness :
  let s' := handleGameAction 1 "kill" (Some "P2") 7 twoTables in
  sent s' = sent twoTables
  /\ exists game',
       store s' !! 0 = Some game'
       /\ Game.gameLog game' = [LogEntry.mk Night 1 "P1" "kill" (Some "P2") 7].
Proof.
  apply (handleGameAction_acts_under_own_name 1 "kill" (Some "P2") 7 twoTables
           (User.mk "P1" "" 0 [] 0 0 0 false (Some "r1") true) "r1"
           roomOfFour 0 firstNightOfFour (Player.set_role (Some Don) (plainPlayer "P1")));
    try (vm_compute; reflexivity).
  discriminate.
Defined.

(** ** The start of a game *)

Lemma dealt_nicknames (roles : list Role) (players : list Player.t) :
  Player.nickname
    <$> imap (fun index player =>
                Player.set_isAlive true (Player.set_role (roles !! index) player)) players
  = Player.nickname <$> players.
Proof.
  apply list_eq. intros i. rewrite !list_lookup_fmap, list_lookup_imap.
  by destruct (players !! i).
Qed.

Lemma dealt_alive (roles : list Role) (players : list Player.t) :
  Forall (fun p => Player.isAlive p = true)
    (imap (fun index player =>
             Player.set_isAlive true (Player.set_role (roles !! index) player)) players).
Proof.
  apply Forall_forall. intros p Hin. apply elem_of_lookup_imap in Hin as (i & q & -> & _).
  done.
Qed.

Lemma dealt_roles (roles : list Role) (players : list Player.t) :
  length roles = length players ->
  Player.role
    <$> imap (fun index player =>
                Player.set_isAlive true (Player.set_role (roles !! index) player)) players
  = Some <$> roles.
Proof.
  intros Hlen. apply list_eq. intros i. rewrite !list_lookup_fmap, list_lookup_imap.
  destruct (players !! i) as [p|] eqn:Hp; simpl.
  - destruct (roles !! i) as [r|] eqn:Hr; first done.
    apply lookup_lt_Some in Hp. apply lookup_ge_None in Hr. lia.
  - apply lookup_ge_None in Hp. rewrite (proj2 (lookup_ge_None roles i)) by lia. done.
Qed.

Lemma mafia_of_roles (players : list Player.t) (roles : list Role) :
  Player.role <$> players = Some <$> roles ->
  length (List.filter (fun p => isMafiaRole (Player.role p)) players)
  = countRole Don roles + countRole Mafia roles.
Proof.
  revert roles. induction players as [|p players IH]; intros [|r roles] H;
    simplify_eq/=; first done.
  unfold countRole in *. simpl. rewrite H. specialize (IH roles H0).
  destruct r; simpl; rewrite IH; lia.
Qed.

Lemma games_startPhaseTimer (roomId : string) (s : State) :
  games (startPhaseTimer roomId s) = games s.
Proof. unfold startPhaseTimer. by destruct (liveGame roomId s) as [[[room ref] game]|]. Qed.

(** X11.  Starting a game on a table of at least one player: the game is
    registered for the room and is in its first night (day 1, 60 seconds,
    no pending action, empty log) with one interval armed for it; the room
    is playing and its roster is the game's player list; the players keep
    their order and nicknames, are all alive and hold the dealt roles in
    seat order; the mafia list names the leader and the mafia, a third of
    the table rounded down and at least one. *)
Theorem startGame_first_night (random_index : nat -> nat) (roomId gameId : string)
    (s : State) (room : Room.t) :
  rooms s !! roomId = Some room ->
  Room.id room = roomId ->
  1 <= length (Room.players room) ->
  let s' := startGame random_index roomId gameId s in
  exists room' game,
    liveGame roomId s' = Some (room', nextGame s, game)
    /\ games s' !! roomId = Some (nextGame s)
    /\ Room.status room' = Playing
    /\ Room.players room' = Game.players game
    /\ Game.id game = gameId
    /\ Game.phase game = Night
    /\ Game.day game = 1
    /\ Game.timeLeft game = 60%Z
    /\ Game.actions game = []
    /\ Game.gameLog game = []
    /\ Game.timer game = Some (nextHandle s)
    /\ intervals s' = intervals s ++ [mkInterval (nextHandle s) (nextGame s) roomId]
    /\ Player.nickname <$> Game.players game = Player.nickname <$> Room.players room
    /\ Forall (fun p => Player.isAlive p = true) (Game.players game)
    /\ Player.role <$> Game.players game
       = Some <$> distributeRoles random_index (Room.players room) (Room.roles room)
    /\ Game.mafiaMembers game
       = Player.nickname
           <$> List.filter (fun p => isMafiaRole (Player.role p)) (Game.players game)
    /\ length (Game.mafiaMembers game) = Nat.max 1 (length (Room.players room) / 3).
Proof.
  intros Hroom Hid Hn s'. unfold s', startGame. rewrite Hroom. cbv beta iota zeta.
  rewrite Hid.
  set (roles := distributeRoles random_index (Room.players room) (Room.roles room)).
  set (players := imap _ (Room.players room)).
  set (game := Game.mk gameId roomId players Night 1 60 JsMap.clear [] None _ [] None).
  set (s3 := set_games _ _).
  set (room3 := Room.set_status Playing
                  (Room.set_game (Some (nextGame s)) (Room.set_players players room))).
  assert (Hr : rooms s3 !! roomId = Some room3).
  { unfold s3. simpl. by rewrite lookup_alter_eq, Hroom. }
  assert (Hs : store s3 !! nextGame s = Some game) by apply lookup_insert_eq.
  assert (Hg : games s3 !! roomId = Some (nextGame s)) by apply lookup_insert_eq.
  assert (Hi : intervals s3 = intervals s) by done.
  assert (Hh : nextHandle s3 = nextHandle s) by done.
  clearbody s3.
  assert (Hlive : liveGame roomId s3 = Some (room3, nextGame s, game)).
  { unfold liveGame. rewrite Hr. simpl. by rewrite Hs. }
  destruct (startPhaseTimer_live roomId s3 _ _ _ Hlive) as (Hlive' & Hint & _).
  rewrite Hh, Hi in *.
  pose proof (distributeRoles_Permutation random_index (Room.players room)
                (Room.roles room)) as Hperm.
  destruct (rolesBeforeShuffle_counts _ (Room.roles room) Hn) as (Hlen & Hdon & Hmafia & _).
  assert (Hroles : Player.role <$> players = Some <$> roles).
  { apply dealt_roles. unfold roles. by rewrite Hperm. }
  eexists _, _. split; first exact Hlive'.
  split_and!; try done.
  - by rewrite games_startPhaseTimer.
  - apply dealt_nicknames.
  - apply dealt_alive.
  - cbn [Game.mafiaMembers Game.set_timer game].
    rewrite length_fmap, (mafia_of_roles _ _ Hroles). unfold roles.
    rewrite !(countRole_Permutation _ _ _ Hperm), Hdon, Hmafia. lia.
Qed.

Lemma startGame_first_night_witness :
  exists room' game,
    liveGame "r1" gameOfFour = Some (room', 0, game)
    /\ Game.mafiaMembers game = ["P1"]
    /\ Player.role <$> Game.players game
       = [Some Don; Some Citizen; Some Citizen; Some Citizen].
Proof.
  destruct (startGame_first_night (fun i => i) "r1" "g1"
              (set_rooms {["r1" := tableOfFour]} emptyState) tableOfFour)
    as (room' & game & Hlive & _ & _ & _ & _ & _ & _ & _ & _ & _ & _ & _ & _ & _ & Hroles
        & Hmafia & _);
    [vm_compute; reflexivity | reflexivity | vm_compute; lia |].
  exists room', game. split; first exact Hlive.
  assert (Hg : game = firstNightOfFour).
  { assert (H : liveGame "r1" gameOfFour = Some (roomOfFour, 0, firstNightOfFour))
      by (vm_compute; reflexivity).
    unfold gameOfFour in H. rewrite H in Hlive. congruence. }
  rewrite Hg. split; reflexivity.
Defined.

(** ** The rewards at the end of a game *)

Lemma elem_of_rewardCalls (winner : Winner) (players : list Player.t) (p : Player.t)
    (call : DbCall) :
  p ∈ players -> call ∈ rewardCalls winner p ->
  call ∈ concat (rewardCalls winner <$> players).
Proof.
  intros Hp Hc. induction Hp as [p players|p q players _ IH];
    rewrite fmap_cons; cbn [concat]; apply elem_of_app; auto.
Qed.

Lemma issuedOf_app (rejects : nat -> bool) (k : nat) (calls more : list DbCall) :
  issuedOf rejects k (calls ++ more)
  = if acceptsFrom rejects k (length calls)
    then calls ++ issuedOf rejects (k + length calls) more
    else issuedOf rejects k calls.
Proof.
  revert k. induction calls as [|call calls IH]; intros k; simpl.
  - by rewrite Nat.add_0_r.
  - destruct (rejects k); simpl; first done. rewrite IH.
    replace (S k + length calls) with (k + S (length calls)) by lia.
    by destruct (acceptsFrom rejects (S k) (length calls)).
Qed.

Lemma issuedOf_rejected (rejects : nat -> bool) (k : nat) (calls : list DbCall) :
  acceptsFrom rejects k (length calls) = false ->
  exists j, j < length calls
            /\ rejects (k + j) = true
            /\ (forall i, i < j -> rejects (k + i) = false)
            /\ issuedOf rejects k calls = take (S j) calls.
Proof.
  revert k. induction calls as [|call calls IH]; intros k; simpl; first done.
  destruct (rejects k) eqn:Hk; simpl.
  - intros _. exists 0. rewrite Nat.add_0_r. split_and!; [lia | done | lia |].
    by rewrite take_0.
  - intros Hrest. destruct (IH _ Hrest) as (j & Hj & Hrej & Hbefore & Hissued).
    exists (S j). split_and!.
    + lia.
    + by replace (k + S j) with (S k + j) by lia.
    + intros [|i] Hi; first by rewrite Nat.add_0_r.
      replace (k + S i) with (S k + i) by lia. apply Hbefore. lia.
    + by rewrite Hissued.
Qed.

(** X12.  What [endGame] writes to the database.  The writes are awaited
    in order: for every player of the game, in seat order, a statistics
    update and a coin update, then the end-of-game record; the first write
    that the database rejects is the last one that is handed over.  So
    when the database accepts the reward writes, every player's two writes
    and the record are issued; when it rejects the write number [k] of the
    rewards, the writes after it, the later players' updates and the
    record among them, are never issued.  A player whose side won gets 7
    coins if alive and 3 if dead; every other player loses 5.  The winning
    side is the townsfolk and the protector when the citizens win, the
    leader and the mafia when the mafia wins: a player with a paired role,
    or with no role, is on neither side, so is recorded as having lost and
    loses 5 coins whoever wins. *)
Theorem endGame_rewards (roomId : string) (winner : Winner) (s : State) (room : Room.t)
    (ref : nat) (game : Game.t) :
  liveGame roomId s = Some (room, ref, game) ->
  let rewards := concat (rewardCalls winner <$> Game.players game) in
  let record := DbEndGame (Game.id game) winner (Game.gameLog game) in
  let calls := dbCalls (endGame roomId winner s) in
  calls = dbCalls s ++ issuedOf (dbRejects s) (length (dbCalls s)) (rewards ++ [record])
  /\ (if dbAcceptsNext (2 * length (Game.players game)) s
      then calls = dbCalls s ++ rewards ++ [record]
           /\ (forall p call, p ∈ Game.players game -> call ∈ rewardCalls winner p ->
                 call ∈ calls)
      else exists k,
             k < length rewards
             /\ dbRejects s (length (dbCalls s) + k) = true
             /\ (forall i, i < k -> dbRejects s (length (dbCalls s) + i) = false)
             /\ calls = dbCalls s ++ take (S k) rewards)
  /\ (forall p,
        let nick := Player.nickname p in
        let alive := Player.isAlive p in
        rewardCalls winner p
        = match Player.role p, winner with
          | Some Citizen, WCitizens | Some Doctor, WCitizens
          | Some Don, WMafia | Some Mafia, WMafia =>
              [DbUpdateUserStats nick true alive;
               DbUpdateUserCoins nick (if alive then 7 else 3)]
          | _, _ =>
              [DbUpdateUserStats nick false alive; DbUpdateUserCoins nick (-5)]
          end).
Proof.
  intros Hlive rewards record calls.
  assert (Hlen : length rewards = 2 * length (Game.players game))
    by apply length_rewards.
  assert (Hcases : calls
                   = if dbAcceptsNext (2 * length (Game.players game)) s
                     then dbCalls s ++ rewards ++ [record]
                     else dbCalls s ++ issuedOf (dbRejects s) (length (dbCalls s)) rewards).
  { unfold calls, endGame. rewrite (endGameRun_cases _ _ _ _ _ _ Hlive).
    fold rewards record. rewrite Hlen.
    destruct (dbAcceptsNext _ s); cbn [negb]; last done.
    by destruct (dbRejects s _). }
  split_and!.
  - rewrite Hcases, issuedOf_app. unfold dbAcceptsNext. rewrite Hlen.
    destruct (acceptsFrom _ _ _); last done.
    cbn [issuedOf]. by destruct (dbRejects s _).
  - rewrite Hcases. destruct (dbAcceptsNext _ s) eqn:Hacc.
    + split; first done. intros p call Hp Hcall.
      apply elem_of_app. right. apply elem_of_app. left.
      by apply (elem_of_rewardCalls winner _ p).
    + unfold dbAcceptsNext in Hacc. rewrite <- Hlen in Hacc.
      destruct (issuedOf_rejected _ _ _ Hacc) as (k & Hk & Hrej & Hbefore & Hissued).
      exists k. rewrite Hissued. by split_and!.
  - intros p nick alive. unfold nick, alive, rewardCalls.
    by destruct p as [n a c r [[]|] []], winner.
Qed.

Lemma endGame_rewards_witness :
  dbCalls (endGame "r1" WMafia completedDay)
  = [DbUpdateUserStats "P1" true true; DbUpdateUserCoins "P1" 7;
     DbUpdateUserStats "P2" false true; DbUpdateUserCoins "P2" (-5);
     DbUpdateUserStats "P3" false true; DbUpdateUserCoins "P3" (-5);
     DbUpdateUserStats "P4" false false; DbUpdateUserCoins "P4" (-5);
     DbEndGame "g1" WMafia []]
  /\ dbCalls (endGame "r1" WMafia rejectingDay)
     = [DbUpdateUserStats "P1" true true; DbUpdateUserCoins "P1" 7;
        DbUpdateUserStats "P2" false true].
Proof.
  destruct (endGame_rewards "r1" WMafia completedDay completedDayRoom 0 completedDayGame)
    as [H _]; first (vm_compute; reflexivity).
  destruct (endGame_rewards "r1" WMafia rejectingDay completedDayRoom 0 completedDayGame)
    as [H' _]; first (vm_compute; reflexivity).
  rewrite H, H'. vm_compute. split; reflexivity.
Defined.

(** ** When an action resolves the night *)

Lemma filter_length_all {A : Type} (f : A -> bool) (l : list A) :
  Forall (fun x => f x = true) l -> length (List.filter f l) = length l.
Proof.
  induction 1 as [|x l Hx _ IH]; simpl; first done. rewrite Hx. simpl. by rewrite IH.
Qed.

Lemma filter_length_some {A : Type} (f : A -> bool) (l : list A) :
  Exists (fun x => f x = false) l -> length (List.filter f l) < length l.
Proof.
  induction 1 as [x l Hx|x l _ IH]; simpl.
  - rewrite Hx. pose proof (List.filter_length_le f l). lia.
  - destruct (f x); simpl; lia.
Qed.

(** X13.  An accepted action at night (of any living player, with any
    verb) resolves the night at once exactly when, with that action
    recorded, every living mafia-type player has a pending action; the
    resolution runs on the state with that action recorded.  While a living
    mafia-type
    player has no pending action the action is only recorded: the phase,
    the players and the intervals stay as they are. *)
Theorem night_resolves_when_mafia_has_acted (roomId playerNickname action : string)
    (target : option string) (now : Z) (s : State) (room : Room.t) (ref : nat)
    (game : Game.t) (player : Player.t) :
  liveGame roomId s = Some (room, ref, game) ->
  Game.phase game = Night ->
  findPlayer playerNickname (Game.players game) = Some player ->
  Player.isAlive player = true ->
  let game1 := recordAction playerNickname action target now game in
  let s1 := updateGame ref (recordAction playerNickname action target now) s in
  let acted (p : Player.t) := JsMap.has (Player.nickname p) (Game.actions game1) in
  let s' := handleAction roomId playerNickname action target now s in
  (Forall (fun p => acted p = true) (aliveMafiaOf (Game.players game)) ->
   s' = processNightActions roomId s1)
  /\ (Exists (fun p => acted p = false) (aliveMafiaOf (Game.players game)) ->
      s' = s1 /\ liveGame roomId s' = Some (room, ref, game1)).
Proof.
  intros Hlive Hphase Hplayer Halive game1 s1 acted s'.
  destruct (handleAction_accepts roomId playerNickname action target now s room ref game
              player Hlive Hplayer Halive) as [Hs' Hlive1].
  fold s1 in Hs', Hlive1. fold s' in Hs'. fold game1 in Hlive1.
  assert (Hcheck : checkPhaseCompletion roomId s1
                   = if bool_decide (length (List.filter acted
                                               (aliveMafiaOf (Game.players game)))
                                     = length (aliveMafiaOf (Game.players game)))
                     then processNightActions roomId s1 else s1).
  { unfold checkPhaseCompletion. rewrite Hlive1.
    change (Game.phase game1) with (Game.phase game). rewrite Hphase. done. }
  rewrite Hs', Hcheck. split.
  - intros Hall. by rewrite bool_decide_eq_true_2 by by apply filter_length_all.
  - intros Hsome. apply (filter_length_some acted) in Hsome.
    rewrite (bool_decide_eq_false_2
               (length (List.filter acted (aliveMafiaOf (Game.players game)))
                = length (aliveMafiaOf (Game.players game)))) by lia.
    done.
Qed.

Lemma night_resolves_when_mafia_has_acted_witness :
  handleAction "r3" "P3" "sleep" None 3 nineAfterTwo
  = processNightActions "r3"
      (updateGame 0 (recordAction "P3" "sleep" None 3) nineAfterTwo).
Proof.
  destruct (night_resolves_when_mafia_has_acted "r3" "P3" "sleep" None 3 nineAfterTwo
              nineAfterTwoRoom 0 nineAfterTwoGame
              (Player.set_role (Some Mafia) (plainPlayer "P3")))
    as [H _]; [vm_compute; reflexivity .. |].
  apply H. vm_compute. repeat constructor.
Defined.

(** * Further results on the connection handler *)

(** ** Who receives a broadcast *)

Lemma elem_of_deliveries_iff (f : nat * User.t -> bool) (data : Message)
    (entries : list (nat * User.t)) (closed : gset nat) (ws : nat) (m : Message) :
  ((ws, m) ∈ deliveries f data entries closed)
  <-> m = data /\ (ws ∉ closed)
      /\ exists user, (ws, user) ∈ entries /\ f (ws, user) = true.
Proof.
  unfold deliveries. split.
  - intros Hin. apply list_elem_of_fmap in Hin as ([ws' user] & [= -> ->] & Hin).
    apply list_elem_of_In, filter_In in Hin as [Hin Hf].
    apply andb_true_iff in Hf as [Hf Hopen]. apply negb_true_iff in Hopen.
    apply bool_decide_eq_false in Hopen. split_and!; try done.
    exists user. split; [by apply list_elem_of_In | done].
  - intros (-> & Hopen & user & Hin & Hf). by apply (elem_of_deliveries f data _ _ ws user).
Qed.

(** X14.  [broadcastToRoom] adds frames to the outgoing traffic and changes
    nothing else.  A connection receives the message exactly when the room
    is registered, the connection is open and the user record of the
    connection names the room as its current room: the roster of the room
    is not consulted, so a player of the roster whose record no longer
    points to the room is left out.  For a room that is not registered
    nothing is sent. *)
Theorem broadcastToRoom_recipients (roomId : string) (message : Message) (s : State) :
  exists frames,
    broadcastToRoom roomId message s = set_sent (sent s ++ frames) s
    /\ forall ws m,
         ((ws, m) ∈ frames)
         <-> m = message
             /\ is_Some (rooms s !! roomId)
             /\ (ws ∉ closedSockets s)
             /\ exists user, (ws, user) ∈ JsMap.entries (users s)
                             /\ User.currentRoom user = Some roomId.
Proof.
  destruct (rooms s !! roomId) as [room|] eqn:Hroom.
  - eexists. split.
    + apply broadcastToRoom_eq. by rewrite Hroom.
    + intros ws m. rewrite elem_of_deliveries_iff. split.
      * intros (-> & Hopen & user & Hin & Hf). apply bool_decide_eq_true in Hf.
        split_and!; eauto.
      * intros (-> & _ & Hopen & user & Hin & Hf). split_and!; try done.
        exists user. split; first done. by apply bool_decide_eq_true.
  - exists []. split.
    + unfold broadcastToRoom. by rewrite Hroom, app_nil_r, set_sent_sent.
    + intros ws m. split; first by intros Hin; destruct (not_elem_of_nil _ Hin).
      by intros (_ & [room Hsome] & _).
Qed.

(** X15.  [broadcastRoomsList] with the rows of [db.getRooms()] sends one
    and the same room list, and nothing else changes.  It goes to exactly
    the open connections that are authenticated and in no room.  Each row
    of the list takes its player count from the roster of the room in
    memory, and 0 when the room is known to the database only.  When
    [db.getRooms()] is rejected, the function throws and nothing is sent. *)
Theorem broadcastRoomsList_recipients (rows : list DbRoom.t) (s : State) :
  broadcastRoomsList DbFail s = None
  /\ exists frames,
       broadcastRoomsList (DbOk rows) s = Some (set_sent (sent s ++ frames) s)
       /\ (forall ws m,
             ((ws, m) ∈ frames)
             <-> m = MsgRooms (roomsListOf rows s)
                 /\ (ws ∉ closedSockets s)
                 /\ exists user, (ws, user) ∈ JsMap.entries (users s)
                                 /\ User.isAuthenticated user = true
                                 /\ truthy (User.currentRoom user) = false)
       /\ (RoomListEntry.id <$> roomsListOf rows s) = (DbRoom.id <$> rows)
       /\ (forall row, row ∈ rows ->
             exists entry, entry ∈ roomsListOf rows s
               /\ RoomListEntry.id entry = DbRoom.id row
               /\ RoomListEntry.hasPassword entry = truthy (DbRoom.password row)
               /\ RoomListEntry.players entry
                  = match rooms s !! DbRoom.id row with
                    | Some room => length (Room.players room)
                    | None => 0
                    end).
Proof.
  split; first done. eexists. split_and!.
  - apply broadcastRoomsList_eq.
  - intros ws m. rewrite elem_of_deliveries_iff. split.
    + intros (-> & Hopen & user & Hin & Hf). apply andb_true_iff in Hf as [Ha Hr].
      apply negb_true_iff in Hr. split_and!; eauto.
    + intros (-> & Hopen & user & Hin & Ha & Hr). split_and!; try done.
      exists user. split; first done. simpl in *. by rewrite Ha, Hr.
  - unfold roomsListOf. rewrite <- list_fmap_compose. done.
  - intros row Hin. eexists. split.
    + unfold roomsListOf. apply list_elem_of_fmap. exists row. split; [reflexivity | done].
    + done.
Qed.

(** ** Leaving a room *)

Lemma broadcastToRoom_sends (roomId : string) (message : Message) (s : State) :
  exists frames, broadcastToRoom roomId message s = set_sent (sent s ++ frames) s.
Proof.
  destruct (rooms s !! roomId) as [room|] eqn:Hroom.
  - eexists. apply broadcastToRoom_eq. by rewrite Hroom.
  - exists []. unfold broadcastToRoom. by rewrite Hroom, app_nil_r, set_sent_sent.
Qed.

Lemma broadcastRoomsList_sends (answer : DbResult (list DbRoom.t)) (s : State) :
  exists frames, default s (broadcastRoomsList answer s) = set_sent (sent s ++ frames) s.
Proof.
  destruct answer as [rows|].
  - eexists. by rewrite broadcastRoomsList_eq.
  - exists []. simpl. by rewrite app_nil_r, set_sent_sent.
Qed.

(** X16.  A user who is in a registered room leaves it.  The user record
    has no current room afterwards, and the first roster entry with the
    user's nickname is removed.  If the roster is then empty the room is
    deleted from the registry and the delete is handed to the database,
    whether or not a game is running on it.  Otherwise the room stays, and if the leaver was its
    creator the first remaining player becomes the creator.  Status, game
    link and messages of the room, all other rooms, the engine's table, the
    armed intervals and the nickname bindings are unchanged: a game that is
    running on the room goes on, and [leaveRoom] does not touch its list of
    players. *)
Theorem leaveRoom_outcome (ws : nat) (dbRooms : DbResult (list DbRoom.t)) (now : Z)
    (s : State) (user : User.t) (roomId : string) (room : Room.t) :
  JsMap.get ws (users s) = Some user ->
  User.currentRoom user = Some roomId ->
  roomId <> "" ->
  rooms s !! roomId = Some room ->
  let remaining :=
    match findPlayerIndex (User.nickname user) (Room.players room) with
    | Some playerIndex => delete playerIndex (Room.players room)
    | None => Room.players room
    end in
  let s' := leaveRoom ws dbRooms now s in
  users s' = JsMap.set ws (User.set_currentRoom None user) (users s)
  /\ (forall other, other <> roomId -> rooms s' !! other = rooms s !! other)
  /\ games s' = games s
  /\ intervals s' = intervals s
  /\ usersByNickname s' = usersByNickname s
  /\ match remaining with
     | [] => rooms s' !! roomId = None /\ dbCalls s' = dbCalls s ++ [DbDeleteRoom roomId]
     | first :: others =>
         dbCalls s' = dbCalls s
         /\ rooms s' !! roomId
            = Some (if bool_decide (Room.creator room = User.nickname user)
                    then Room.set_players (Player.set_isCreator true first :: others)
                           (Room.set_creator (Player.nickname first) room)
                    else Room.set_players remaining room)
     end.
Proof.
  intros Huser Hcur Hne Hroom remaining s'.
  unfold s', leaveRoom, leaveRoomSync. rewrite Huser, Hcur. simpl.
  rewrite bool_decide_eq_false_2 by done. simpl. rewrite Hroom.
  fold remaining. clearbody remaining. destruct remaining as [|first others].
  - unfold dbWrite. cbn beta iota. destruct (negb _).
    + match goal with
      | |- context [broadcastRoomsList dbRooms ?st] =>
          destruct (broadcastRoomsList_sends dbRooms st) as [frames ->]
      end.
      simpl. split_and!; try done.
      * intros other Hother. by rewrite lookup_delete_ne, lookup_insert_ne.
      * by rewrite lookup_delete_eq.
    + simpl. split_and!; try done.
      * intros other Hother. by rewrite lookup_delete_ne, lookup_insert_ne.
      * by rewrite lookup_delete_eq.
  - match goal with
    | |- context [broadcastRoomsList dbRooms ?st] =>
        destruct (broadcastRoomsList_sends dbRooms st) as [frames ->]
    end.
    repeat match goal with
    | |- context [broadcastToRoom ?r ?m ?st] =>
        let frames := fresh "frames" in
        destruct (broadcastToRoom_sends r m st) as [frames ->]
    end.
    simpl. split_and!; try done.
    + intros other Hother. by rewrite !lookup_insert_ne.
    + rewrite lookup_insert_eq. by case_bool_decide.
Qed.

Lemma leaveRoom_outcome_witness :
  let s' := leaveRoom 1 (DbOk []) 5 twoAtTable in
  users s' = JsMap.set 1 (User.set_currentRoom None bob) (users twoAtTable)
  /\ (Room.creator <$> rooms s' !! "lobby") = Some "Carl".
Proof.
  destruct (leaveRoom_outcome 1 (DbOk []) 5 twoAtTable bob "lobby" tableOfTwo)
    as (Hu & _ & _ & _ & _ & _ & Hr);
    [vm_compute; reflexivity | reflexivity | discriminate | vm_compute; reflexivity |].
  split; first exact Hu. rewrite Hr. reflexivity.
Defined.

(** ** Logging in again *)

(** X17.  A successful login never looks at the rooms.  Whatever the
    connection was before, its user record is replaced by a fresh one built
    from the database row, authenticated and with no current room: a user
    who logs in again while sitting in a room is still on the roster of
    that room, but the record no longer points to it.  The nickname of the
    login is bound to the connection; the records of all other connections
    and the bindings of all other nicknames (a binding of this connection
    under an earlier nickname included) stay as they were. *)
Theorem login_forgets_room (ws : nat) (nickname password : string) (row : DbUser.t)
    (s : State) :
  nickname <> "" ->
  password <> "" ->
  let s' := handleLogin ws nickname password (DbOk (Some row)) s in
  rooms s' = rooms s
  /\ store s' = store s
  /\ games s' = games s
  /\ JsMap.get ws (users s')
     = Some (User.mk (DbUser.nickname row) (DbUser.avatar row) (DbUser.coins row)
               (DbUser.nickname_effects row) (DbUser.games_played row)
               (DbUser.games_won row) (DbUser.games_survived row) (DbUser.is_admin row)
               None true)
  /\ (forall other, other <> ws -> JsMap.get other (users s') = JsMap.get other (users s))
  /\ usersByNickname s' !! nickname = Some ws
  /\ (forall other, other <> nickname ->
        usersByNickname s' !! other = usersByNickname s !! other).
Proof.
  intros Hn Hp s'. unfold s', handleLogin.
  rewrite (bool_decide_eq_false_2 _ Hn), (bool_decide_eq_false_2 _ Hp). simpl.
  set (s1 := match usersByNickname s !! nickname with Some _ => _ | None => s end).
  assert (H1 : rooms s1 = rooms s /\ store s1 = store s /\ games s1 = games s
               /\ users s1 = users s /\ usersByNickname s1 = usersByNickname s).
  { unfold s1. destruct (usersByNickname s !! nickname) as [existingWs|]; last done.
    destruct (negb (bool_decide (existingWs = ws))); last done.
    rewrite send_eq. done. }
  destruct H1 as (Hr & Hst & Hg & Hu & Hb). clearbody s1.
  rewrite send_eq. simpl. rewrite Hr, Hst, Hg, Hu, Hb. split_and!; try done.
  - apply get_set_eq.
  - intros other Hne. by apply get_set_ne.
  - apply lookup_insert_eq.
  - intros other Hne. by apply lookup_insert_ne.
Qed.

Lemma login_forgets_room_witness :
  let s' := handleLogin 2 "Carl" "secret" (DbOk (Some carlRow)) twoAtTable in
  (User.currentRoom <$> JsMap.get 2 (users twoAtTable)) = Some (Some "lobby")
  /\ (User.currentRoom <$> JsMap.get 2 (users s')) = Some None
  /\ rooms s' = rooms twoAtTable.
Proof.
  destruct (login_forgets_room 2 "Carl" "secret" carlRow twoAtTable)
    as (Hr & _ & _ & Hu & _); [discriminate | discriminate |].
  split_and!; [reflexivity | by rewrite Hu | exact Hr].
Defined.

(** ** The end of a connection *)

Lemma get_delete_ne {K V : Type} `{EqDecision K} (m : list (K * V)) (k k' : K) :
  k <> k' -> JsMap.get k' (JsMap.delete k m) = JsMap.get k' m.
Proof.
  intros Hne. induction m as [|[k0 v0] m IH]; simpl; first done.
  destruct (decide (k0 = k)) as [->|Hk]; simpl.
  - by rewrite decide_False.
  - by rewrite IH.
Qed.

Lemma get_delete_eq {K V : Type} `{EqDecision K} (m : list (K * V)) (k : K) :
  NoDup (JsMap.keys m) -> JsMap.get k (JsMap.delete k m) = None.
Proof.
  unfold JsMap.keys. induction m as [|[k0 v0] m IH]; simpl; first done.
  intros [Hk Hm]%NoDup_cons. destruct (decide (k0 = k)) as [->|Hne]; simpl.
  - by apply get_None.
  - rewrite decide_False by done. by apply IH.
Qed.

Lemma leaveRoomSync_users (ws : nat) (now : Z) (s : State) (user : User.t) :
  JsMap.get ws (users s) = Some user ->
  usersByNickname (leaveRoomSync ws now s).1 = usersByNickname s
  /\ (users (leaveRoomSync ws now s).1 = users s
      \/ users (leaveRoomSync ws now s).1
         = JsMap.set ws (User.set_currentRoom None user) (users s)).
Proof.
  intros Huser. unfold leaveRoomSync. rewrite Huser.
  destruct (User.currentRoom user) as [roomId|]; last by auto.
  destruct (negb (truthy (Some roomId))); first by auto.
  destruct (rooms s !! roomId) as [room|]; last by auto.
  destruct (match findPlayerIndex (User.nickname user) (Room.players room) with
            | Some playerIndex => delete playerIndex (Room.players room)
            | None => Room.players room
            end) as [|first others]; first by auto.
  cbn [fst].
  repeat match goal with
  | |- context [broadcastToRoom ?r ?m ?st] =>
      let frames := fresh "frames" in
      destruct (broadcastToRoom_sends r m st) as [frames ->]
  end.
  by auto.
Qed.

(** X18.  The [close] event of a connection that has a user record, on a
    user table with distinct keys.  The record of the connection is gone
    and a non-empty nickname of it has no binding left; the records of the
    other connections and the bindings of the other nicknames are as they
    were.  The rooms and the database writes are those of [leaveRoom] for
    that connection.  A second run of [handleDisconnect] for the connection
    changes nothing. *)
Theorem handleDisconnect_outcome (ws : nat) (dbRooms : DbResult (list DbRoom.t)) (now : Z)
    (s : State) (user : User.t) :
  NoDup (JsMap.keys (users s)) ->
  JsMap.get ws (users s) = Some user ->
  let s' := handleDisconnect ws dbRooms now s in
  JsMap.get ws (users s') = None
  /\ (forall other, other <> ws -> JsMap.get other (users s') = JsMap.get other (users s))
  /\ (User.nickname user <> "" -> usersByNickname s' !! User.nickname user = None)
  /\ (forall other, other <> User.nickname user ->
        usersByNickname s' !! other = usersByNickname s !! other)
  /\ rooms s' = rooms (leaveRoom ws dbRooms now s)
  /\ dbCalls s' = dbCalls (leaveRoom ws dbRooms now s)
  /\ (forall dbRooms' now', handleDisconnect ws dbRooms' now' s' = s').
Proof.
  intros Hnodup Huser s'.
  assert (Hpair : (if truthy (User.currentRoom user) then leaveRoomSync ws now s
                   else (s, false)) = leaveRoomSync ws now s).
  { destruct (truthy (User.currentRoom user)) eqn:Ht; first done.
    unfold leaveRoomSync. rewrite Huser.
    destruct (User.currentRoom user) as [roomId|]; last done. by rewrite Ht. }
  destruct (leaveRoomSync_users ws now s user Huser) as [Hb Hu].
  unfold s', handleDisconnect, leaveRoom. rewrite Huser, Hpair.
  destruct (leaveRoomSync ws now s) as [s1 continues]. cbn [fst] in Hb, Hu.
  set (s2 := set_users (JsMap.delete ws (users s1)) s1).
  set (s3 := if negb (bool_decide (User.nickname user = ""))
             then set_usersByNickname (delete (User.nickname user) (usersByNickname s2)) s2
             else s2).
  assert (Hget : JsMap.get ws (users s3) = None).
  { assert (H3 : users s3 = JsMap.delete ws (users s1)) by (unfold s3; by destruct (negb _)).
    rewrite H3. apply get_delete_eq.
    destruct Hu as [-> | ->]; [done | by apply NoDup_keys_set]. }
  assert (Hothers : forall other, other <> ws ->
                      JsMap.get other (users s3) = JsMap.get other (users s)).
  { intros other Hne.
    assert (H3 : users s3 = JsMap.delete ws (users s1)) by (unfold s3; by destruct (negb _)).
    rewrite H3, get_delete_ne by done.
    destruct Hu as [-> | ->]; [done | by apply get_set_ne]. }
  assert (Hbound : User.nickname user <> "" ->
                   usersByNickname s3 !! User.nickname user = None).
  { intros Hne. unfold s3. rewrite bool_decide_eq_false_2 by done. simpl.
    apply lookup_delete_eq. }
  assert (Hbindings : forall other, other <> User.nickname user ->
                        usersByNickname s3 !! other = usersByNickname s !! other).
  { intros other Hne. unfold s3. destruct (negb _); simpl.
    - by rewrite lookup_delete_ne, Hb.
    - by rewrite Hb. }
  assert (Hrooms : rooms s3 = rooms s1 /\ dbCalls s3 = dbCalls s1)
    by (unfold s3; by destruct (negb _)).
  destruct Hrooms as [Hrooms Hdb]. clearbody s3.
  assert (Hfinal : exists frames,
             (if continues then default s3 (broadcastRoomsList dbRooms s3) else s3)
             = set_sent (sent s3 ++ frames) s3).
  { destruct continues; first apply broadcastRoomsList_sends.
    exists []. by rewrite app_nil_r, set_sent_sent. }
  destruct Hfinal as [frames ->].
  assert (Hleave : exists frames',
             (if continues then default s1 (broadcastRoomsList dbRooms s1) else s1)
             = set_sent (sent s1 ++ frames') s1).
  { destruct continues; first apply broadcastRoomsList_sends.
    exists []. by rewrite app_nil_r, set_sent_sent. }
  destruct Hleave as [frames' ->].
  split_and!; try done.
  intros dbRooms' now'. unfold handleDisconnect.
  change (users (set_sent (sent s3 ++ frames) s3)) with (users s3). by rewrite Hget.
Qed.

Lemma handleDisconnect_outcome_witness :
  let s' := handleDisconnect 2 (DbOk []) 5 twoAtTable in
  JsMap.get 2 (users s') = None
  /\ usersByNickname s' !! "Carl" = None
  /\ handleDisconnect 2 (DbOk []) 6 s' = s'.
Proof.
  destruct (handleDisconnect_outcome 2 (DbOk []) 5 twoAtTable carlAtTable)
    as (Hu & _ & Hb & _ & _ & _ & Hi).
  - apply (bool_decide_unpack _). by vm_compute.
  - reflexivity.
  - split_and!; [exact Hu | by apply Hb | apply Hi].
Defined.

(** ** Creating a room *)

(** X19.  An authenticated user who is in no room creates a room.  The room
    is registered under the new id with the user as its creator and only
    player, waiting and without a game; a missing or zero player limit
    becomes 4 and 10, so neither limit is 0, and an empty password becomes
    no password.  When the
    database accepts the room, the user record points to it and the user,
    if connected, is sent the snapshot of the room.  When the database
    rejects it, the user is sent an error and the user record still names
    no room, but the room stays registered in memory with the user on its
    roster. *)
Theorem createRoom_outcome (ws : nat) (roomId : string) (roomData : RoomData)
    (created : DbResult unit) (dbRooms : DbResult (list DbRoom.t)) (now : Z) (s : State)
    (user : User.t) :
  JsMap.get ws (users s) = Some user ->
  User.isAuthenticated user = true ->
  truthy (User.currentRoom user) = false ->
  let s' := createRoom ws roomId roomData created dbRooms now s in
  let room := newRoom roomId roomData user now in
  rooms s' = <[roomId := room]> (rooms s)
  /\ Room.creator room = User.nickname user
  /\ Player.nickname <$> Room.players room = [User.nickname user]
  /\ Room.status room = Waiting
  /\ Room.game room = None
  /\ Room.minPlayers room <> 0%Z
  /\ Room.maxPlayers room <> 0%Z
  /\ Room.password room <> Some ""
  /\ match created with
     | DbOk _ =>
         users s' = JsMap.set ws (User.set_currentRoom (Some roomId) user) (users s)
         /\ (ws ∉ closedSockets s ->
             (ws, MsgRoomJoined (sanitizeRoomForClient (store s) room
                                   (Some (User.nickname user)))) ∈ sent s')
     | DbFail =>
         users s' = users s
         /\ sent s' = sent s ++ (if bool_decide (ws ∈ closedSockets s) then []
                                 else [(ws, MsgError "Ошибка создания комнаты")])
     end.
Proof.
  intros Huser Hauth Hroom s' room. unfold s', createRoom.
  rewrite Huser, Hauth, Hroom. simpl. fold room.
  assert (Hpw : Room.password room <> Some "").
  { unfold room, newRoom. simpl. destruct (dataPassword roomData) as [p|]; simpl; last done.
    case_bool_decide; simpl; congruence. }
  assert (Hnum : forall x d, d <> 0%Z -> numberOr x d <> 0%Z).
  { intros [n|] d Hd; simpl; last done. by case_bool_decide. }
  assert (Hmin : Room.minPlayers room <> 0%Z) by by apply Hnum.
  assert (Hmax : Room.maxPlayers room <> 0%Z) by by apply Hnum.
  destruct created as [[]|].
  - rewrite send_eq.
    match goal with
    | |- context [broadcastRoomsList dbRooms ?st] =>
        set (s2 := st);
        assert (Hfinal : exists frames,
                   match broadcastRoomsList dbRooms s2 with
                   | Some s3 => s3
                   | None => sendError ws "Ошибка создания комнаты" s2
                   end = set_sent (sent s2 ++ frames) s2)
    end.
    { destruct dbRooms as [rows|].
      - rewrite broadcastRoomsList_eq. eauto.
      - simpl. unfold sendError. rewrite send_eq. eauto. }
    destruct Hfinal as [frames ->]. unfold s2. simpl. split_and!; try done.
    intros Hopen. rewrite bool_decide_eq_false_2 by done.
    apply elem_of_app. left. apply elem_of_app. right. by apply list_elem_of_singleton.
  - unfold sendError. rewrite send_eq. simpl. by split_and!.
Qed.

Lemma createRoom_outcome_witness :
  let s' := createRoom 3 "r9" doraRoomData DbFail (DbOk []) 5 twoAtTable in
  (Room.maxPlayers <$> rooms s' !! "r9") = Some 10%Z
  /\ (Room.password <$> rooms s' !! "r9") = Some None
  /\ (User.currentRoom <$> JsMap.get 3 (users s')) = Some None.
Proof.
  destruct (createRoom_outcome 3 "r9" doraRoomData DbFail (DbOk []) 5 twoAtTable dora)
    as (Hr & _ & _ & _ & _ & _ & _ & _ & Hu & _); [reflexivity..|].
  cbv zeta. rewrite Hr, Hu, lookup_insert_eq. by split_and!.
Defined.

(** ** A chat message *)

(** X20.  A user who is in a registered room sends a chat message.  The
    message, under the user's own nickname, is appended to the messages of
    the room before the database is asked, and nothing else of the rooms,
    the users and the games changes; no check is made of the game: a dead
    player and any player at night can write to the whole room.  A room
    snapshot built afterwards ends with the message and carries the last 50
    messages at most.  When the database accepts the message it is sent to
    exactly the open connections whose record names the room, the sender
    included.  When the database rejects it, nobody receives the message,
    the sender is sent the error, and the message stays in the room. *)
Theorem chat_message_outcome (ws : nat) (message : string) (saved : DbResult unit)
    (errorMessage : string) (now : Z) (s : State) (user : User.t) (roomId : string)
    (room : Room.t) :
  JsMap.get ws (users s) = Some user ->
  User.currentRoom user = Some roomId ->
  roomId <> "" ->
  rooms s !! roomId = Some room ->
  let chat := ChatMessage.mk (User.nickname user) message now in
  let s' := handleChatMessage ws message saved errorMessage now s in
  rooms s' = <[roomId := pushMessage chat room]> (rooms s)
  /\ users s' = users s
  /\ store s' = store s
  /\ (forall viewer,
        let snapshot := sanitizeRoomForClient (store s') (pushMessage chat room) viewer in
        last (Snapshot.messages snapshot) = Some chat
        /\ length (Snapshot.messages snapshot)
           = Nat.min 50 (S (length (Room.messages room))))
  /\ match saved with
     | DbOk _ =>
         exists frames,
           sent s' = sent s ++ frames
           /\ forall ws' m,
                ((ws', m) ∈ frames)
                <-> m = MsgChatMessage chat
                    /\ (ws' ∉ closedSockets s)
                    /\ exists member, (ws', member) ∈ JsMap.entries (users s)
                                      /\ User.currentRoom member = Some roomId
     | DbFail =>
         sent s' = sent s ++ (if bool_decide (ws ∈ closedSockets s) then []
                              else [(ws, MsgError ("Ошибка обработки сообщения: "
                                                     +:+ errorMessage))])
     end.
Proof.
  intros Huser Hcur Hne Hroom chat s'.
  assert (Hsnap : forall objects viewer,
            let snapshot := sanitizeRoomForClient objects (pushMessage chat room) viewer in
            last (Snapshot.messages snapshot) = Some chat
            /\ length (Snapshot.messages snapshot)
               = Nat.min 50 (S (length (Room.messages room)))).
  { intros objects viewer. cbn [sanitizeRoomForClient Snapshot.messages pushMessage
                                 Room.messages].
    rewrite length_app. cbn [length]. split.
    - rewrite drop_app_le by lia. apply last_snoc.
    - rewrite length_drop, length_app. cbn [length]. lia. }
  unfold s', handleChatMessage. rewrite Huser, Hcur. simpl.
  rewrite bool_decide_eq_false_2 by done. simpl. rewrite Hroom. fold chat.
  destruct saved as [[]|].
  - rewrite broadcastToRoom_eq by (simpl; by rewrite lookup_insert_eq).
    simpl. split_and!; try done; first (intros viewer; exact (Hsnap ∅ viewer)).
    eexists. split; first reflexivity.
    intros ws' m. rewrite elem_of_deliveries_iff. split.
    + intros (-> & Hopen & member & Hin & Hf). apply bool_decide_eq_true in Hf.
      split_and!; eauto.
    + intros (-> & Hopen & member & Hin & Hf). split_and!; try done.
      exists member. split; first done. by apply bool_decide_eq_true.
  - unfold sendError. rewrite send_eq. simpl. split_and!; try done.
    intros viewer. exact (Hsnap ∅ viewer).
Qed.

Lemma chat_message_outcome_witness :
  let s' := handleChatMessage 2 "hello" (DbOk ()) "" 9 twoAtTable in
  sent s' = [(1, MsgChatMessage (ChatMessage.mk "Carl" "hello" 9));
             (2, MsgChatMessage (ChatMessage.mk "Carl" "hello" 9))]
  /\ (Room.messages <$> rooms s' !! "lobby") = Some [ChatMessage.mk "Carl" "hello" 9].
Proof.
  destruct (chat_message_outcome 2 "hello" (DbOk ()) "" 9 twoAtTable carlAtTable "lobby"
              tableOfTwo)
    as (Hr & _ & _ & _ & _);
    [reflexivity | reflexivity | discriminate | vm_compute; reflexivity |].
  cbv zeta. rewrite Hr, lookup_insert_eq. split; [vm_compute | ]; reflexivity.
Defined.

(** ** Joining and leaving again *)

Lemma joinRoom_joined (ws : nat) (roomId : string) (password : option string)
    (row : option DbRoom.t) (dbRooms : DbResult (list DbRoom.t)) (now : Z) (s : State)
    (user : User.t) (room : Room.t) :
  JsMap.get ws (users s) = Some user ->
  User.isAuthenticated user = true ->
  truthy (User.currentRoom user) = false ->
  rooms s !! roomId = Some room ->
  wrongPassword row password = false ->
  (Z.of_nat (length (Room.players room)) < Room.maxPlayers room)%Z ->
  Room.status room = Waiting ->
  exists frames,
    joinRoom ws roomId password (DbOk row) dbRooms now s
    = set_sent (sent s ++ frames)
        (set_users (JsMap.set ws (User.set_currentRoom (Some roomId) user) (users s))
           (set_rooms
              (<[roomId := Room.set_players (Room.players room ++ [newPlayer user]) room]>
                 (rooms s)) s)).
Proof.
  intros Huser Hauth Hfree Hroom Hpw Hfull Hstatus.
  unfold joinRoom. rewrite Huser, Hauth, Hfree, Hroom, Hpw. cbn [negb].
  rewrite (bool_decide_eq_false_2 (Room.maxPlayers room <= _)%Z) by lia.
  rewrite (bool_decide_eq_true_2 _ Hstatus). cbn [negb].
  set (s1 := set_users _ (set_rooms _ s)).
  rewrite send_eq.
  match goal with
  | |- context [broadcastRoomsList dbRooms ?st] => set (s4 := st)
  end.
  assert (Hfinal : exists more,
             match broadcastRoomsList dbRooms s4 with
             | Some s' => s'
             | None => sendError ws "Ошибка присоединения к комнате" s4
             end = set_sent (sent s4 ++ more) s4).
  { destruct dbRooms as [rows|].
    - rewrite broadcastRoomsList_eq. eexists. reflexivity.
    - simpl. unfold sendError. rewrite send_eq. eexists. reflexivity. }
  destruct Hfinal as [more ->]. unfold s4.
  repeat match goal with
  | |- context [broadcastToRoom ?r ?m ?st] =>
      let frames := fresh "frames" in
      destruct (broadcastToRoom_sends r m st) as [frames ->]
  end.
  eexists. cbn [sent set_sent]. rewrite !set_sent_set_sent.
  cbn [sent set_users set_rooms s1]. rewrite <- !app_assoc. reflexivity.
Qed.

Lemma findPlayerIndex_new (nick : string) (players : list Player.t) (p : Player.t) :
  findPlayerIndex nick players = None ->
  Player.nickname p = nick ->
  findPlayerIndex nick (players ++ [p]) = Some (length players).
Proof.
  intros Hnone Hp. induction players as [|q players IH]; simpl in *.
  - by rewrite bool_decide_eq_true_2.
  - destruct (bool_decide (Player.nickname q = nick)); first done.
    destruct (findPlayerIndex nick players); first done. by rewrite IH.
Qed.

(** X21.  Joining a room and leaving it again is a round trip on the room.
    For a user whose join is accepted, who was not on the roster before
    and is not the creator of the room, and a room that had at least one
    player: after [joinRoom] and [leaveRoom] the registry of rooms is
    exactly what it was, the user record names no room, and nothing was
    written to the database or to a game object. *)
Theorem join_then_leave_restores_room (ws : nat) (roomId : string)
    (password : option string) (row : option DbRoom.t)
    (dbRooms dbRooms' : DbResult (list DbRoom.t)) (now now' : Z) (s : State)
    (user : User.t) (room : Room.t) :
  JsMap.get ws (users s) = Some user ->
  User.isAuthenticated user = true ->
  truthy (User.currentRoom user) = false ->
  rooms s !! roomId = Some room ->
  wrongPassword row password = false ->
  (Z.of_nat (length (Room.players room)) < Room.maxPlayers room)%Z ->
  Room.status room = Waiting ->
  roomId <> "" ->
  Room.players room <> [] ->
  findPlayerIndex (User.nickname user) (Room.players room) = None ->
  Room.creator room <> User.nickname user ->
  let s1 := joinRoom ws roomId password (DbOk row) dbRooms now s in
  let s2 := leaveRoom ws dbRooms' now' s1 in
  rooms s2 = rooms s
  /\ JsMap.get ws (users s2) = Some (User.set_currentRoom None user)
  /\ (forall other, other <> ws -> JsMap.get other (users s2) = JsMap.get other (users s))
  /\ dbCalls s2 = dbCalls s
  /\ store s2 = store s.
Proof.
  intros Huser Hauth Hfree Hroom Hpw Hfull Hstatus Hne Hplayers Hnew Hcreator s1 s2.
  destruct (joinRoom_joined ws roomId password row dbRooms now s user room
              Huser Hauth Hfree Hroom Hpw Hfull Hstatus) as [frames Hs1].
  unfold s2, s1. rewrite Hs1. unfold leaveRoom, leaveRoomSync.
  cbn [users set_sent set_users set_rooms rooms]. rewrite get_set_eq.
  cbn [User.currentRoom User.set_currentRoom truthy].
  rewrite (bool_decide_eq_false_2 _ Hne). cbn [negb]. rewrite lookup_insert_eq.
  cbn [Room.players Room.set_players User.nickname User.set_currentRoom].
  rewrite (findPlayerIndex_new _ _ (newPlayer user) Hnew) by done.
  rewrite delete_middle, app_nil_r.
  destruct (Room.players room) as [|first others] eqn:Hroster; first done.
  cbn [Room.creator Room.set_players]. rewrite (bool_decide_eq_false_2 _ Hcreator).
  match goal with
  | |- context [broadcastRoomsList dbRooms' ?st] =>
      destruct (broadcastRoomsList_sends dbRooms' st) as [frames' ->]
  end.
  repeat match goal with
  | |- context [broadcastToRoom ?r ?m ?st] =>
      let frames := fresh "frames" in
      destruct (broadcastToRoom_sends r m st) as [frames ->]
  end.
  cbn [rooms users dbCalls store set_sent set_rooms set_users].
  split_and!; try done.
  - rewrite !insert_insert_eq. apply insert_id. rewrite Hroom. f_equal.
    destruct room. simpl in *. by rewrite Hroster.
  - apply get_set_eq.
  - intros other Hother. by rewrite !get_set_ne.
Qed.

Lemma join_then_leave_restores_room_witness :
  let s1 := joinRoom 2 "lobby" None (DbOk (Some lobbyRow)) (DbOk []) 1 lobby in
  rooms (leaveRoom 2 (DbOk []) 2 s1) = rooms lobby
  /\ rooms s1 <> rooms lobby.
Proof.
  destruct (join_then_leave_restores_room 2 "lobby" None (Some lobbyRow) (DbOk []) (DbOk [])
              1 2 lobby carl lobbyRoom) as (Hr & _);
    [reflexivity | reflexivity | reflexivity | reflexivity | reflexivity
    | vm_compute; reflexivity | reflexivity | discriminate | discriminate
    | reflexivity | discriminate |].
  cbv zeta. split; first exact Hr.
  intros Heq. apply (f_equal (fun m => length <$> (Room.players <$> m !! "lobby"))) in Heq.
  vm_compute in Heq. discriminate.
Defined.

(** ** How long a phase lasts *)

Lemma run_snoc (events : list Event) (e : Event) (s : State) :
  run (events ++ [e]) s = step (run events s) e.
Proof. unfold run. by rewrite fold_left_app. Qed.

Lemma intervalCallback_ticked (timer : nat) (iv : Interval) (s : State) (game : Game.t)
    (timeLeft : Z) (k : nat) :
  List.find (fun iv => bool_decide (handle iv = timer)) (intervals s) = Some iv ->
  intervalCallback timer (ticked (intervalGame iv) game timeLeft k s)
  = if bool_decide (timeLeft - Z.of_nat (S k) <= 0)%Z
    then
      let expired :=
        set_intervals
          (List.filter (fun iv' => negb (bool_decide (handle iv' = timer))) (intervals s))
          (ticked (intervalGame iv) game timeLeft (S k) s) in
      match Game.phase game with
      | Night => processNightActions (intervalRoom iv) expired
      | Day => processDayVoting (intervalRoom iv) expired
      end
    else ticked (intervalGame iv) game timeLeft (S k) s.
Proof.
  intros Hfind. unfold intervalCallback.
  change (intervals (ticked (intervalGame iv) game timeLeft k s)) with (intervals s).
  rewrite Hfind.
  assert (Hnext : updateGame (intervalGame iv)
                    (fun game => Game.set_timeLeft (Game.timeLeft game - 1) game)
                    (ticked (intervalGame iv) game timeLeft k s)
                  = ticked (intervalGame iv) game timeLeft (S k) s).
  { unfold updateGame, ticked. cbn [store set_store]. rewrite alter_insert_eq.
    cbn [Game.timeLeft Game.set_timeLeft].
    replace (timeLeft - Z.of_nat k - 1)%Z with (timeLeft - Z.of_nat (S k))%Z by lia.
    reflexivity. }
  rewrite Hnext.
  assert (Hlook : store (ticked (intervalGame iv) game timeLeft (S k) s) !! intervalGame iv
                  = Some (Game.set_timeLeft (timeLeft - Z.of_nat (S k)) game))
    by apply lookup_insert_eq.
  rewrite Hlook. done.
Qed.

(** X22.  A phase lasts as long as its countdown says when only its own
    interval runs.  On a game object with [n + 1] seconds left, each of the
    first [n] runs of an armed interval takes one second off the countdown
    and changes nothing else; run [n + 1] clears the interval and resolves
    the phase the game object is in, for the room the interval was armed
    for. *)
Theorem phase_lasts_its_countdown (timer : nat) (iv : Interval) (s : State) (game : Game.t)
    (n : nat) :
  List.find (fun iv => bool_decide (handle iv = timer)) (intervals s) = Some iv ->
  store s !! intervalGame iv = Some game ->
  Game.timeLeft game = Z.of_nat (S n) ->
  (forall k, k <= n ->
     run (replicate k (EvInterval timer)) s
     = ticked (intervalGame iv) game (Z.of_nat (S n)) k s)
  /\ run (replicate (S n) (EvInterval timer)) s
     = let expired :=
         set_intervals
           (List.filter (fun iv' => negb (bool_decide (handle iv' = timer))) (intervals s))
           (ticked (intervalGame iv) game (Z.of_nat (S n)) (S n) s) in
       match Game.phase game with
       | Night => processNightActions (intervalRoom iv) expired
       | Day => processDayVoting (intervalRoom iv) expired
       end.
Proof.
  intros Hfind Hgame Hleft.
  assert (Hticks : forall k, k <= n ->
            run (replicate k (EvInterval timer)) s
            = ticked (intervalGame iv) game (Z.of_nat (S n)) k s).
  { induction k as [|k IH]; intros Hk.
    - unfold ticked. simpl. rewrite Z.sub_0_r, <- Hleft.
      replace (Game.set_timeLeft (Game.timeLeft game) game) with game by by destruct game.
      rewrite insert_id by done. by destruct s.
    - rewrite replicate_S_end, run_snoc, IH by lia. simpl.
      rewrite (intervalCallback_ticked timer iv s game _ k Hfind).
      by rewrite bool_decide_eq_false_2 by lia. }
  split; first exact Hticks.
  rewrite replicate_S_end, run_snoc, Hticks by lia. simpl.
  rewrite (intervalCallback_ticked timer iv s game _ n Hfind).
  by rewrite bool_decide_eq_true_2 by lia.
Qed.

Lemma phase_lasts_its_countdown_witness :
  Game.phase <$> store (run (replicate 59 (EvInterval 0)) gameOfFour) !! 0 = Some Night
  /\ Game.phase <$> store (run (replicate 60 (EvInterval 0)) gameOfFour) !! 0 = Some Day.
Proof.
  destruct (phase_lasts_its_countdown 0 (mkInterval 0 0 "r1") gameOfFour firstNightOfFour 59)
    as [Hticks Hlast]; [vm_compute; reflexivity ..|].
  split.
  - rewrite (Hticks 59) by lia. reflexivity.
  - rewrite Hlast. vm_compute. reflexivity.
Defined.
